(** * Statement parsers of analytic-parser: a shallow embedding

    The development follows the Python sources
      - [cleaner.py]         (footer stripping, description cleaning),
      - [freedom_parser.py]  (line-based statements, format A),
      - [parser.py]          (the earlier line-based parser),
      - [kaspi_parser.py]    (tabular statements, format B).

    Python [str] values are sequences of Unicode code points and are
    modelled as lists of code points.  The module [config] is not part of
    the sources; its tables and patterns are variables of the sections
    below.  Library functions that depend on the Unicode tables
    ([str.lower], [str.capitalize], [re.sub] with a configured pattern,
    [datetime.strptime]) are section variables as well, so every theorem
    holds for whatever these functions compute. *)

From Stdlib Require Import List NArith ZArith Bool Lia String Ascii.
Import ListNotations.

(** ** Text *)

Module Text.

Definition char := N.
Definition str := list char.

(** Reading a literal: the source text of this file is UTF-8, so a string
    literal is a byte sequence, decoded here into code points. *)
Fixpoint bytes_of (s : string) : list N :=
  match s with
  | EmptyString => []
  | String a t => N_of_ascii a :: bytes_of t
  end.

Fixpoint utf8_decode (bs : list N) : str :=
  match bs with
  | [] => []
  | b :: t =>
      if (b <? 128)%N then b :: utf8_decode t
      else match t with
      | [] => []
      | b1 :: t1 =>
          if (b <? 224)%N
          then ((b - 192) * 64 + (b1 - 128))%N :: utf8_decode t1
          else match t1 with
          | [] => []
          | b2 :: t2 =>
              if (b <? 240)%N
              then ((b - 224) * 4096 + (b1 - 128) * 64 + (b2 - 128))%N
                     :: utf8_decode t2
              else match t2 with
              | [] => []
              | b3 :: t3 =>
                  ((b - 240) * 262144 + (b1 - 128) * 4096
                   + (b2 - 128) * 64 + (b3 - 128))%N :: utf8_decode t3
              end
          end
      end
  end.

Definition u (s : string) : str := utf8_decode (bytes_of s).

Definition c_newline : char := 10%N.
Definition c_space : char := 32%N.
Definition c_plus : char := 43%N.
Definition c_comma : char := 44%N.
Definition c_hyphen : char := 45%N.      (* "-" *)
Definition c_period : char := 46%N.
Definition c_minus : char := 8722%N.     (* U+2212 *)
Definition c_tenge : char := 8376%N.     (* U+20B8 *)

Definition char_eqb (a b : char) : bool := N.eqb a b.

Fixpoint str_eqb (a b : str) : bool :=
  match a, b with
  | [], [] => true
  | x :: a', y :: b' => char_eqb x y && str_eqb a' b'
  | _, _ => false
  end.

(** [x in xs] for a list or set of strings. *)
Definition str_in (x : str) (xs : list str) : bool := existsb (str_eqb x) xs.

(** [s.startswith(p)] *)
Fixpoint startswith (p s : str) : bool :=
  match p, s with
  | [], _ => true
  | x :: p', y :: s' => char_eqb x y && startswith p' s'
  | _ :: _, [] => false
  end.

(** [s.find(sub)]: the lowest index at which [sub] occurs, [None] for -1. *)
Fixpoint find (sub s : str) : option nat :=
  if startswith sub s then Some 0
  else match s with
       | [] => None
       | _ :: s' => option_map S (find sub s')
       end.

(** [sub in s] *)
Definition contains (sub s : str) : bool :=
  match find sub s with Some _ => true | None => false end.

(** [c in s] for a one-character string [c]. *)
Definition has_char (c : char) (s : str) : bool := existsb (char_eqb c) s.

(** [s.replace(c, r)] for a one-character string [c]. *)
Definition replace_char (c : char) (r : str) (s : str) : str :=
  flat_map (fun x => if char_eqb x c then r else [x]) s.

(** [s[:n]] for [n >= 0]. *)
Definition slice_to (n : nat) (s : str) : str := firstn n s.

(** The characters [str.isspace] accepts; the class [\s] of [re] on [str]
    patterns is the same set. *)
Definition is_space (c : char) : bool :=
  ((9 <=? c) && (c <=? 13) || (28 <=? c) && (c <=? 32)
   || (c =? 133) || (c =? 160) || (c =? 5760)
   || (8192 <=? c) && (c <=? 8202)
   || (c =? 8232) || (c =? 8233) || (c =? 8239) || (c =? 8287)
   || (c =? 12288))%N.

Fixpoint lstrip (s : str) : str :=
  match s with
  | [] => []
  | c :: t => if is_space c then lstrip t else s
  end.

Definition rstrip (s : str) : str := rev (lstrip (rev s)).

(** [s.strip()] *)
Definition strip (s : str) : str := rstrip (lstrip s).

(** [re.sub(r"\s+", " ", s)]: every maximal run of whitespace becomes one
    space; the space is emitted at the last character of the run. *)
Fixpoint collapse_ws (s : str) : str :=
  match s with
  | [] => []
  | c :: t =>
      if is_space c then
        match t with
        | [] => [c_space]
        | c' :: _ => if is_space c' then collapse_ws t
                     else c_space :: collapse_ws t
        end
      else c :: collapse_ws t
  end.

(** [s.split("\n")] *)
Fixpoint split_lines_aux (cur : str) (s : str) : list str :=
  match s with
  | [] => [rev cur]
  | c :: t => if char_eqb c c_newline then rev cur :: split_lines_aux [] t
              else split_lines_aux (c :: cur) t
  end.

Definition split_lines (s : str) : list str := split_lines_aux [] s.

Definition is_ascii_digit (c : char) : bool := ((48 <=? c) && (c <=? 57))%N.

End Text.
Import Text.

(** ** Exceptions *)

Inductive exn : Type :=
| ValueError          (* datetime.strptime on a text that is no date *)
| InvalidOperation    (* decimal.Decimal on a text that is no numeral *)
| IndexError          (* row[i] with i out of range *)
| Overflow.           (* decimal.Overflow: a result beyond the exponent range *)

Inductive result (A : Type) : Type :=
| Ok (a : A)
| Raise (e : exn).
Arguments Ok {A} a.
Arguments Raise {A} e.

Definition bind {A B} (r : result A) (k : A -> result B) : result B :=
  match r with
  | Ok a => k a
  | Raise e => Raise e
  end.

Notation "'let*' x ':=' r 'in' k" := (bind r (fun x => k))
  (at level 10, x name, r at level 100, k at level 200).

Definition is_ok {A} (r : result A) : bool :=
  match r with Ok _ => true | Raise _ => false end.

(** ** Decimal numbers

    A [decimal.Decimal] is a sign, a coefficient and an exponent.  The
    constructor and the comparisons with zero are exact; [abs] and unary
    minus round their result in the context of the [decimal] module, which
    the code leaves at its default: 28 digits, rounding half to even,
    exponents between -999999 and 999999, with [Overflow] trapped. *)

Record Decimal : Type := mkDecimal {
  dsign : bool;      (* true: negative *)
  dcoeff : N;
  dexp : Z
}.

Definition dec_zero : Decimal := mkDecimal false 0 0.   (* Decimal("0") *)

(** The default context. *)
Definition context_prec : Z := 28.
Definition context_Emax : Z := 999999.
Definition context_Emin : Z := -999999.
Definition Etiny : Z := context_Emin - context_prec + 1.
Definition Etop : Z := context_Emax - context_prec + 1.

(** The number of decimal digits of a coefficient; the coefficient 0 has
    one digit. *)
Definition ndigits (n : N) : Z :=
  Z.of_nat (Decimal.nb_digits (N.to_uint n)).

(** The rounding of a result to the context ([Decimal._fix]).  A zero
    keeps its sign and has its exponent brought into the range.  Another
    number is too large when its first digit lies above [Emax]; it is
    rounded when it has more than 28 digits, or digits below [Etiny]:
    [k] digits are dropped, the quotient goes up when the dropped digits
    are more than a half, or are a half and the quotient is odd, and a
    quotient that reaches 29 digits loses its last zero. *)
Definition dec_fix (d : Decimal) : result Decimal :=
  if (dcoeff d =? 0)%N then
    Ok (mkDecimal (dsign d) 0
                  (Z.min (Z.max (dexp d) Etiny) context_Emax))
  else
    let exp_min := (ndigits (dcoeff d) + dexp d - context_prec)%Z in
    if (exp_min >? Etop)%Z then Raise Overflow
    else
      let exp_min := Z.max exp_min Etiny in
      if (dexp d <? exp_min)%Z then
        let k := Z.to_N (exp_min - dexp d) in
        let q := (dcoeff d / 10 ^ k)%N in
        let r := (dcoeff d mod 10 ^ k)%N in
        let up := ((10 ^ k <? 2 * r) || (2 * r =? 10 ^ k) && N.odd q)%N in
        let (coeff, exp_min) :=
          if up then
            if (ndigits (q + 1) >? context_prec)%Z
            then (((q + 1) / 10)%N, (exp_min + 1)%Z)
            else ((q + 1)%N, exp_min)
          else (q, exp_min) in
        if (exp_min >? Etop)%Z then Raise Overflow
        else Ok (mkDecimal (dsign d) coeff exp_min)
      else Ok d.

(** [abs(d)]: the sign is cleared, the result is rounded. *)
Definition dec_abs (d : Decimal) : result Decimal :=
  dec_fix (mkDecimal false (dcoeff d) (dexp d)).

(** [-d]: the opposite of a zero is the positive zero; the result is
    rounded. *)
Definition dec_neg (d : Decimal) : result Decimal :=
  dec_fix (if (dcoeff d =? 0)%N then mkDecimal false (dcoeff d) (dexp d)
           else mkDecimal (negb (dsign d)) (dcoeff d) (dexp d)).

(** [d < 0] and [d > 0] *)
Definition dec_lt0 (d : Decimal) : bool := dsign d && negb (dcoeff d =? 0)%N.
Definition dec_gt0 (d : Decimal) : bool :=
  negb (dsign d) && negb (dcoeff d =? 0)%N.

(** The coefficient with its sign: the value is [dec_scaled d * 10^dexp d]. *)
Definition dec_scaled (d : Decimal) : Z :=
  if dsign d then (- Z.of_N (dcoeff d))%Z else Z.of_N (dcoeff d).

Definition digits_value (ds : str) : N :=
  fold_left (fun acc c => (acc * 10 + (c - 48))%N) ds 0%N.

Fixpoint span_digits (s : str) : str * str :=
  match s with
  | [] => ([], [])
  | c :: t => if is_ascii_digit c
              then let (a, b) := span_digits t in (c :: a, b)
              else ([], s)
  end.

Definition is_nil {A} (l : list A) : bool :=
  match l with [] => true | _ => false end.

(** [Decimal(v)] for a text [v] over the characters the normalizers leave
    (ASCII digits, period, hyphen, plus): an optional sign, then digits
    with at most one period and at least one digit.  Anything else raises
    [decimal.InvalidOperation]. *)
Definition Decimal_of_str (v : str) : result Decimal :=
  let '(sg, body) :=
    match v with
    | c :: t => if char_eqb c c_hyphen then (true, t)
                else if char_eqb c c_plus then (false, t)
                else (false, v)
    | [] => (false, [])
    end in
  let (ip, rest) := span_digits body in
  match rest with
  | [] => if is_nil ip then Raise InvalidOperation
          else Ok (mkDecimal sg (digits_value ip) 0)
  | c :: fp =>
      if char_eqb c c_period && forallb is_ascii_digit fp
         && negb (is_nil ip && is_nil fp)
      then Ok (mkDecimal sg (digits_value (ip ++ fp))
                 (- Z.of_nat (List.length fp)))
      else Raise InvalidOperation
  end.

(** ** Records *)

Record Date : Type := mkDate { year : N; month : N; day : N }.

Inductive Direction : Type := income | expense | neutral.
Inductive TransferType : Type := self | family | other.
Inductive Source : Type := freedom | kaspi.

(** The dictionary an extractor emits.  [source] is [None] while the key is
    not set. *)
Record Tx : Type := mkTx {
  date : Date;
  amount : Decimal;
  currency : str;
  operation : str;
  description : str;
  direction : Direction;
  transfer_type : option TransferType;
  source : option Source
}.

Definition set_description (t : Tx) (d : str) : Tx :=
  mkTx (date t) (amount t) (currency t) (operation t) d (direction t)
       (transfer_type t) (source t).

Definition set_source (t : Tx) (s : Source) : Tx :=
  mkTx (date t) (amount t) (currency t) (operation t) (description t)
       (direction t) (transfer_type t) (Some s).

(** The expression
    ["expense" if amount < 0 else "income" if amount > 0 else "neutral"]. *)
Definition direction_of (a : Decimal) : Direction :=
  if dec_lt0 a then expense else if dec_gt0 a then income else neutral.

(** The named groups of a match of [TX_HEAD_RE].  The group [details] may
    not take part in the match. *)
Record HeadMatch : Type := mkHeadMatch {
  g_date : str;
  g_amount : str;
  g_currency : str;
  g_operation : str;
  g_details : option str
}.

(** [m.group("details") or ""] *)
Definition or_empty (o : option str) : str :=
  match o with Some s => s | None => [] end.

(** ** cleaner.py *)

Module Cleaner.
Section Cleaner.

Variable lower : str -> str.                 (* str.lower *)
Variable FOOTER_MARKERS : list str.          (* config *)
(** A noise pattern [p] is given by the function
    [re.sub(p, "", text, flags=re.IGNORECASE)]. *)
Variable NOISE_PATTERNS : list (str -> str). (* config *)

Fixpoint strip_footer_loop (markers : list str) (low text : str) : str :=
  match markers with
  | [] => text
  | marker :: rest =>
      match find marker low with
      | Some idx => slice_to idx text
      | None => strip_footer_loop rest low text
      end
  end.

Definition strip_footer (text : str) : str :=
  strip_footer_loop FOOTER_MARKERS (lower text) text.

Definition remove_noise (text : str) : str :=
  fold_left (fun t sub => sub t) NOISE_PATTERNS text.

Definition clean_description (text : str) : str :=
  let text := strip_footer text in
  let text := remove_noise text in
  strip (collapse_ws text).

(** The reading of the specification: the cut is at the smallest index
    at which any marker occurs. *)
Fixpoint earliest_marker (markers : list str) (low : str) : option nat :=
  match markers with
  | [] => None
  | marker :: rest =>
      match find marker low, earliest_marker rest low with
      | Some i, Some j => Some (Nat.min i j)
      | Some i, None => Some i
      | None, r => r
      end
  end.

Definition strip_footer_earliest (text : str) : str :=
  match earliest_marker FOOTER_MARKERS (lower text) with
  | Some idx => slice_to idx text
  | None => text
  end.

End Cleaner.
End Cleaner.

(** ** freedom_parser.py *)

Module Freedom.
Section Freedom.

Variable lower : str -> str.                     (* str.lower *)
Variable capitalize : str -> str.                (* str.capitalize *)
(** [datetime.strptime(s, "%d.%m.%Y")]; [None] stands for [ValueError]. *)
Variable strptime_dmY : str -> option Date.
Variable FOOTER_MARKERS : list str.              (* config *)
Variable NOISE_PATTERNS : list (str -> str).     (* config *)
Variable DATE_START_RE : str -> bool.            (* config; [.match] *)
Variable TX_HEAD_RE : str -> option HeadMatch.   (* config; [.match] *)
Variable KNOWN_OPERATIONS : list str.            (* config *)

Let clean_description :=
  Cleaner.clean_description lower FOOTER_MARKERS NOISE_PATTERNS.

(** [re.sub(r"[^0-9\.\-]", "", v)] keeps these characters. *)
Definition keeps (c : char) : bool :=
  is_ascii_digit c || char_eqb c c_period || char_eqb c c_hyphen.

(** The text handed to [Decimal], before the [or "0"]. *)
Definition stripped (value : str) : str :=
  let v := replace_char c_space [] (replace_char c_minus [c_hyphen] value) in
  let v := if has_char c_period v && has_char c_comma v
           then replace_char c_comma [] v
           else replace_char c_comma [c_period] v in
  filter keeps v.

Definition _to_decimal (value : str) : result Decimal :=
  let v := stripped value in
  Decimal_of_str (if is_nil v then u "0" else v).

(** [raw_amount.startswith(("−", "-"))] *)
Definition negated (raw_amount : str) : bool :=
  startswith [c_minus] raw_amount || startswith [c_hyphen] raw_amount.

Definition _parse_head_line (line : str) : result (option Tx) :=
  match TX_HEAD_RE line with
  | None => Ok None
  | Some m =>
      let* date :=
        match strptime_dmY (g_date m) with
        | Some d => Ok d
        | None => Raise ValueError
        end in
      let raw_amount := g_amount m in
      let* amount := _to_decimal raw_amount in
      let* amount := if negated raw_amount
                     then let* a := dec_abs amount in dec_neg a
                     else dec_abs amount in
      let direction := direction_of amount in
      let operation := capitalize (g_operation m) in
      let operation := if str_in operation KNOWN_OPERATIONS then operation
                       else u "Покупка" in
      Ok (Some (mkTx date amount (g_currency m) operation
                  (or_empty (g_details m)) direction None None))
  end.

(** The state of the loop of [_parse_page]: [txs] and [current_tx]. *)
Definition page_state : Type := (list Tx * option Tx)%type.

Definition flush (st : page_state) : page_state :=
  match snd st with
  | Some current_tx =>
      (fst st ++ [set_description current_tx
                    (clean_description (description current_tx))], None)
  | None => st
  end.

Fixpoint page_loop (lines : list str) (st : page_state)
  : result (list Tx) :=
  match lines with
  | [] => Ok (fst (flush st))
  | line :: rest =>
      if DATE_START_RE line then
        let st := flush st in
        let* head := _parse_head_line line in
        match head with
        | Some h => page_loop rest (fst st, Some h)
        | None => page_loop rest st
        end
      else
        match snd st with
        | Some current_tx =>
            page_loop rest
              (fst st,
               Some (set_description current_tx
                       (description current_tx ++ [c_space] ++ line)))
        | None => page_loop rest st
        end
  end.

Definition _parse_page (lines : list str) : result (list Tx) :=
  page_loop lines ([], None).

(** [[l.strip() for l in text.split("\n") if l.strip()]] *)
Definition page_lines (text : str) : list str :=
  map strip (filter (fun l => negb (is_nil (strip l))) (split_lines text)).

(** The loop over [pdf.pages]; a page is the result of [extract_text],
    [None] or a text. *)
Fixpoint pages_loop (pages : list (option str)) (transactions : list Tx)
  : result (list Tx) :=
  match pages with
  | [] => Ok transactions
  | page :: rest =>
      match page with
      | None => pages_loop rest transactions
      | Some text =>
          if is_nil text then pages_loop rest transactions
          else
            let* txs := _parse_page (page_lines text) in
            pages_loop rest (transactions ++ txs)
      end
  end.

Definition parse_freedom_pdf (pages : list (option str))
  : result (list Tx) :=
  let* transactions := pages_loop pages [] in
  Ok (map (fun tx => set_source tx freedom) transactions).

End Freedom.
End Freedom.

(** ** parser.py *)

Module Parser.
Section Parser.

Variable lower : str -> str.
Variable capitalize : str -> str.
Variable strptime_dmY : str -> option Date.
Variable FOOTER_MARKERS : list str.
Variable NOISE_PATTERNS : list (str -> str).
Variable DATE_START_RE : str -> bool.
Variable TX_HEAD_RE : str -> option HeadMatch.
Variable KNOWN_OPERATIONS : list str.

Let clean_description :=
  Cleaner.clean_description lower FOOTER_MARKERS NOISE_PATTERNS.

Definition _to_decimal (v : str) : result Decimal :=
  let v := replace_char c_space [] (replace_char c_minus [c_hyphen] v) in
  let v := if has_char c_period v && has_char c_comma v
           then replace_char c_comma [] v
           else replace_char c_comma [c_period] v in
  let v := filter Freedom.keeps v in
  Decimal_of_str (if is_nil v then u "0" else v).

Definition _parse_head (line : str) : result (option Tx) :=
  match TX_HEAD_RE line with
  | None => Ok None
  | Some m =>
      let* date :=
        match strptime_dmY (g_date m) with
        | Some d => Ok d
        | None => Raise ValueError
        end in
      let raw_amount := g_amount m in
      let* amount := _to_decimal raw_amount in
      let* amount := if Freedom.negated raw_amount
                     then let* a := dec_abs amount in dec_neg a
                     else Ok amount in
      let op := capitalize (g_operation m) in
      let op := if str_in op KNOWN_OPERATIONS then op else u "Покупка" in
      Ok (Some (mkTx date amount (g_currency m) op
                  (or_empty (g_details m)) expense None None))
  end.

Definition flush (st : list Tx * option Tx) : list Tx * option Tx :=
  match snd st with
  | Some current =>
      (fst st ++ [set_description current
                    (clean_description (description current))], None)
  | None => st
  end.

Fixpoint page_loop (lines : list str) (st : list Tx * option Tx)
  : result (list Tx) :=
  match lines with
  | [] => Ok (fst (flush st))
  | line :: rest =>
      if DATE_START_RE line then
        let st := flush st in
        let* head := _parse_head line in
        match head with
        | Some h => page_loop rest (fst st, Some h)
        | None => page_loop rest st
        end
      else
        match snd st with
        | Some current =>
            page_loop rest
              (fst st,
               Some (set_description current
                       (description current ++ [c_space] ++ line)))
        | None => page_loop rest st
        end
  end.

Definition _parse_page (lines : list str) : result (list Tx) :=
  page_loop lines ([], None).

Fixpoint pages_loop (pages : list (option str)) (txs : list Tx)
  : result (list Tx) :=
  match pages with
  | [] => Ok txs
  | page :: rest =>
      match page with
      | None => pages_loop rest txs
      | Some text =>
          if is_nil text then pages_loop rest txs
          else
            let* page_txs := _parse_page (Freedom.page_lines text) in
            pages_loop rest (txs ++ page_txs)
      end
  end.

Definition parse_pdf (pages : list (option str)) : result (list Tx) :=
  pages_loop pages [].

End Parser.
End Parser.

(** ** kaspi_parser.py *)

Module Kaspi.

(** The column indices [idx_date], [idx_amount], [idx_operation] and
    [idx_details]; [None] is Python's [None]. *)
Record Cols : Type := mkCols {
  idx_date : option nat;
  idx_amount : option nat;
  idx_operation : option nat;
  idx_details : option nat
}.

Definition no_cols : Cols := mkCols None None None None.

(** [row[i]] for [i >= 0] *)
Definition index (row : list str) (i : nat) : result str :=
  match nth_error row i with
  | Some cell => Ok cell
  | None => Raise IndexError
  end.

(** [" ".join(cells)] *)
Fixpoint join_space (cells : list str) : str :=
  match cells with
  | [] => []
  | [c] => c
  | c :: rest => c ++ [c_space] ++ join_space rest
  end.

Section Kaspi.

Variable lower : str -> str.                     (* str.lower *)
Variable capitalize : str -> str.                (* str.capitalize *)
(** [datetime.strptime(s, "%d.%m.%y")]; [None] stands for [ValueError]. *)
Variable strptime_dmy : str -> option Date.
Variable re_digit : char -> bool.                (* the class [\d] of [re] *)
Variable FOOTER_MARKERS : list str.              (* config *)
Variable NOISE_PATTERNS : list (str -> str).     (* config *)

Let clean_description :=
  Cleaner.clean_description lower FOOTER_MARKERS NOISE_PATTERNS.

(** The [try] turns the [ValueError] of [strptime] into [None]. *)
Definition _parse_date (value : str) : option Date :=
  strptime_dmy (strip value).

(** [re.sub(r"[^0-9\.\-\+]", "", v)] keeps these characters. *)
Definition keeps (c : char) : bool :=
  is_ascii_digit c || char_eqb c c_period || char_eqb c c_hyphen
  || char_eqb c c_plus.

(** The text handed to [Decimal], before the [or "0"]. *)
Definition stripped (value : str) : str :=
  filter keeps
    (replace_char c_comma [c_period]
       (replace_char c_space [] (replace_char c_tenge [] value))).

Definition _parse_amount (value : str) : result Decimal :=
  let v := stripped value in
  Decimal_of_str (if is_nil v then u "0" else v).

Definition _looks_like_header (row : list str) : bool :=
  let joined :=
    join_space (map lower (filter (fun cell => negb (is_nil cell)) row)) in
  contains (u "дата") joined
  && contains (u "сумм") joined
  && contains (u "операц") joined.

(** [re.match(r"\d{2}\.\d{2}\.\d{2}", s)] *)
Definition date_prefix (s : str) : bool :=
  match s with
  | d1 :: d2 :: p1 :: d3 :: d4 :: p2 :: d5 :: d6 :: _ =>
      re_digit d1 && re_digit d2 && char_eqb p1 c_period
      && re_digit d3 && re_digit d4 && char_eqb p2 c_period
      && re_digit d5 && re_digit d6
  | _ => false
  end.

Definition _looks_like_transaction_row (row : list str) : bool :=
  match row with
  | [] => false
  | first :: _ =>
      if is_nil first then false else date_prefix (strip first)
  end.

(** The loop [for i, cell in enumerate(row)] of a header row. *)
Fixpoint scan_header (i : nat) (row : list str) (c : Cols) : Cols :=
  match row with
  | [] => c
  | cell :: rest =>
      let low := lower cell in
      let c :=
        if contains (u "дата") low then
          mkCols (Some i) (idx_amount c) (idx_operation c) (idx_details c)
        else if contains (u "сумм") low then
          mkCols (idx_date c) (Some i) (idx_operation c) (idx_details c)
        else if contains (u "операц") low then
          mkCols (idx_date c) (idx_amount c) (Some i) (idx_details c)
        else if contains (u "детал") low then
          mkCols (idx_date c) (idx_amount c) (idx_operation c) (Some i)
        else c in
      scan_header (S i) rest c
  end.

(** The body of the [try]: [Ok None] is the [continue] after a date that
    does not parse, [Raise] an exception on its way to the [except]. *)
Definition decode_row (i_date i_amount i_operation : nat)
           (i_details : option nat) (row : list str)
  : result (option Tx) :=
  let* date_cell := index row i_date in
  match _parse_date date_cell with
  | None => Ok None
  | Some date =>
      let* amount_cell := index row i_amount in
      let* amount := _parse_amount amount_cell in
      let* operation_cell := index row i_operation in
      let operation := capitalize operation_cell in
      let* description :=
        match i_details with
        | Some i => index row i
        | None => Ok []
        end in
      Ok (Some (mkTx date amount (u "KZT") operation
                  (clean_description description)
                  (direction_of amount) None (Some kaspi)))
  end.

(** The state carried by the loops: the column indices and
    [transactions]. *)
Definition doc_state : Type := (Cols * list Tx)%type.

(** [[(cell or "").strip() for cell in row]] *)
Definition normalize_row (row : list (option str)) : list str :=
  map (fun cell => strip (or_empty cell)) row.

(** One iteration of the loop over the rows of a table. *)
Definition row_step (st : doc_state) (raw_row : list (option str))
  : doc_state :=
  let row := normalize_row raw_row in
  let c := fst st in
  if _looks_like_header row then (scan_header 0 row c, snd st)
  else
    match idx_date c, idx_amount c, idx_operation c with
    | Some i_date, Some i_amount, Some i_operation =>
        if negb (_looks_like_transaction_row row) then st
        else
          match decode_row i_date i_amount i_operation (idx_details c) row
          with
          | Ok (Some tx) => (c, snd st ++ [tx])
          | Ok None => st
          | Raise _ => st      (* except Exception: continue *)
          end
    | _, _, _ => st
    end.

Definition table_loop (table : list (list (option str))) (st : doc_state)
  : doc_state :=
  fold_left row_step table st.

(** One iteration of the loop over [pdf.pages]; a page is the result of
    [extract_table], [None] or a table. *)
Definition page_step (st : doc_state)
           (page : option (list (list (option str)))) : doc_state :=
  match page with
  | None => st
  | Some table => if is_nil table then st else table_loop table st
  end.

Definition pages_loop (pages : list (option (list (list (option str)))))
           (st : doc_state) : doc_state :=
  fold_left page_step pages st.

Definition parse_kaspi_pdf
           (pages : list (option (list (list (option str))))) : list Tx :=
  snd (pages_loop pages (no_cols, [])).

End Kaspi.
End Kaspi.

(** ** A concrete library and configuration

    Instances of the section variables, used to run the parsers on
    concrete statements. *)

Module Sample.

Definition in_range (lo hi c : N) : bool := ((lo <=? c) && (c <=? hi))%N.

(** [str.lower] on Basic Latin, Latin-1 and the Cyrillic letters
    U+0400..U+042F, and on U+0130, whose lower case has two code points;
    other code points are left as they are. *)
Definition lower_char (c : char) : str :=
  if in_range 65 90 c then [(c + 32)%N]
  else if in_range 192 222 c && negb (c =? 215)%N then [(c + 32)%N]
  else if in_range 1040 1071 c then [(c + 32)%N]
  else if in_range 1024 1039 c then [(c + 80)%N]
  else if (c =? 304)%N then [105%N; 775%N]
  else [c].

Definition lower (s : str) : str := flat_map lower_char s.

Definition upper_char (c : char) : char :=
  if in_range 97 122 c then (c - 32)%N
  else if in_range 1072 1103 c then (c - 32)%N
  else if in_range 1104 1119 c then (c - 80)%N
  else c.

(** [str.capitalize] on Basic Latin and Cyrillic letters. *)
Definition capitalize (s : str) : str :=
  match s with
  | [] => []
  | c :: t => upper_char c :: lower t
  end.

(** The class [\d] restricted to ASCII. *)
Definition re_digit : char -> bool := is_ascii_digit.

(** *** [datetime.strptime], for texts with ASCII digits *)

Definition dv (c : char) : N := (c - 48)%N.

(** The directive [%d]: [3[0-1]|[1-2]\d|0[1-9]|[1-9]| [1-9]]. *)
Definition field_day (s : str) : option (N * str) :=
  match s with
  | a :: b :: t =>
      if (a =? 51)%N && in_range 48 49 b
         || in_range 49 50 a && is_ascii_digit b
         || (a =? 48)%N && in_range 49 57 b
      then Some ((dv a * 10 + dv b)%N, t)
      else if in_range 49 57 a then Some (dv a, b :: t)
      else if (a =? 32)%N && in_range 49 57 b then Some (dv b, t)
      else None
  | [a] => if in_range 49 57 a then Some (dv a, []) else None
  | [] => None
  end.

(** The directive [%m]: [1[0-2]|0[1-9]|[1-9]]. *)
Definition field_month (s : str) : option (N * str) :=
  match s with
  | a :: b :: t =>
      if (a =? 49)%N && in_range 48 50 b
         || (a =? 48)%N && in_range 49 57 b
      then Some ((dv a * 10 + dv b)%N, t)
      else if in_range 49 57 a then Some (dv a, b :: t)
      else None
  | [a] => if in_range 49 57 a then Some (dv a, []) else None
  | [] => None
  end.

Definition expect_period (s : str) : option str :=
  match s with
  | c :: t => if char_eqb c c_period then Some t else None
  | [] => None
  end.

Definition is_leap (y : N) : bool :=
  ((y mod 4 =? 0) && (negb (y mod 100 =? 0) || (y mod 400 =? 0)))%N.

Definition days_in_month (y m : N) : N :=
  if (m =? 2)%N then (if is_leap y then 29 else 28)%N
  else if ((m =? 4) || (m =? 6) || (m =? 9) || (m =? 11))%N then 30%N
  else 31%N.

Definition make_date (y m d : N) : option Date :=
  if (1 <=? y)%N && (d <=? days_in_month y m)%N then Some (mkDate y m d)
  else None.

(** The day and month fields and the two periods, common to both
    formats. *)
Definition day_month (s : str) : option (N * N * str) :=
  match field_day s with
  | None => None
  | Some (d, s) =>
      match expect_period s with
      | None => None
      | Some s =>
          match field_month s with
          | None => None
          | Some (m, s) =>
              match expect_period s with
              | None => None
              | Some s => Some (d, m, s)
              end
          end
      end
  end.

(** [datetime.strptime(s, "%d.%m.%Y")] *)
Definition strptime_dmY (s : str) : option Date :=
  match day_month s with
  | Some (d, m, [y1; y2; y3; y4]) =>
      if forallb is_ascii_digit [y1; y2; y3; y4]
      then make_date (digits_value [y1; y2; y3; y4]) m d
      else None
  | _ => None
  end.

(** [datetime.strptime(s, "%d.%m.%y")]: the years 00..68 are 2000..2068,
    the years 69..99 are 1969..1999. *)
Definition strptime_dmy (s : str) : option Date :=
  match day_month s with
  | Some (d, m, [y1; y2]) =>
      if forallb is_ascii_digit [y1; y2]
      then let y := digits_value [y1; y2] in
           make_date (if (y <=? 68)%N then (2000 + y)%N else (1900 + y)%N) m d
      else None
  | _ => None
  end.

(** *** The patterns of [config] *)

Fixpoint take_while (p : char -> bool) (s : str) : str * str :=
  match s with
  | [] => ([], [])
  | c :: t => if p c then let (a, b) := take_while p t in (c :: a, b)
              else ([], s)
  end.

(** [\s+]: what follows the white space, when there is some. *)
Definition spaces1 (s : str) : option str :=
  match s with
  | c :: t => if is_space c then Some (lstrip t) else None
  | [] => None
  end.

(** [\d{2}\.\d{2}\.\d{4}] at the start of [s]. *)
Definition date_token (s : str) : option (str * str) :=
  match s with
  | d1 :: d2 :: p1 :: m1 :: m2 :: p2 :: y1 :: y2 :: y3 :: y4 :: t =>
      if forallb is_ascii_digit [d1; d2; m1; m2; y1; y2; y3; y4]
         && char_eqb p1 c_period && char_eqb p2 c_period
      then Some ([d1; d2; p1; m1; m2; p2; y1; y2; y3; y4], t)
      else None
  | _ => None
  end.

(** Modelled from the spec: [config.DATE_START_RE] is not among the
    sources.  A transaction starts at "a line beginning with a date
    token": the pattern [^\d{2}\.\d{2}\.\d{4}]. *)
Definition DATE_START_RE (line : str) : bool :=
  match date_token line with Some _ => true | None => false end.

Definition is_sign (c : char) : bool :=
  char_eqb c c_plus || char_eqb c c_hyphen || char_eqb c c_minus.

(** [[+\-−]?\d[\d ]*[.,]\d{2}] at the start of [s]. *)
Definition amount_token (s : str) : option (str * str) :=
  let (sg, s1) :=
    match s with
    | c :: t => if is_sign c then ([c], t) else ([], s)
    | [] => ([], [])
    end in
  match s1 with
  | d :: s2 =>
      if is_ascii_digit d then
        let (body, s3) :=
          take_while (fun c => is_ascii_digit c || char_eqb c c_space) s2 in
        match s3 with
        | sep :: f1 :: f2 :: t =>
            if (char_eqb sep c_comma || char_eqb sep c_period)
               && is_ascii_digit f1 && is_ascii_digit f2
            then Some (sg ++ d :: body ++ [sep; f1; f2], t)
            else None
        | _ => None
        end
      else None
  | [] => None
  end.

(** [[A-Z]{3}] at the start of [s]. *)
Definition currency_token (s : str) : option (str * str) :=
  match s with
  | a :: b :: c :: t =>
      if forallb (in_range 65 90) [a; b; c] then Some ([a; b; c], t)
      else None
  | _ => None
  end.

(** Modelled from the spec: [config.TX_HEAD_RE] is not among the sources.
    The head line has "a fixed-shape pattern extracting: date token, signed
    amount token, currency token, operation token, free-text details token
    (details may be absent/empty)", as in the line
    [17.12.2025  -500,00 KZT Перевод Безвозмездный перевод] of the
    docstring of [_parse_head_line]; the pattern, on a line of text, is
    [^(?P<date>\d{2}\.\d{2}\.\d{4})\s+(?P<amount>[+\-−]?\d[\d ]*[.,]\d{2})\s+(?P<currency>[A-Z]{3})\s+(?P<operation>\S+)\s*(?P<details>.{0,})$]. *)
Definition TX_HEAD_RE (line : str) : option HeadMatch :=
  match date_token line with
  | None => None
  | Some (d, s) =>
  match spaces1 s with
  | None => None
  | Some s =>
  match amount_token s with
  | None => None
  | Some (a, s) =>
  match spaces1 s with
  | None => None
  | Some s =>
  match currency_token s with
  | None => None
  | Some (c, s) =>
  match spaces1 s with
  | None => None
  | Some s =>
      let (op, s) := take_while (fun c => negb (is_space c)) s in
      if is_nil op then None
      else Some (mkHeadMatch d a c op (Some (lstrip s)))
  end end end end end end.

(** Modelled from the spec: [config.KNOWN_OPERATIONS] is not among the
    sources; it is the "closed vocabulary of recognized operation
    labels". *)
Definition KNOWN_OPERATIONS : list str :=
  [u "Покупка"; u "Перевод"; u "Пополнение"; u "Снятие"].

(** Modelled from the spec: [config.FOOTER_MARKERS] is not among the
    sources; it is the "ordered list of footer marker phrases". *)
Definition FOOTER_MARKERS : list str := [u "итого"; u "страница"].

Definition ci_eqb (a b : char) : bool := str_eqb (lower_char a) (lower_char b).

Fixpoint ci_startswith (p s : str) : bool :=
  match p, s with
  | [], _ => true
  | x :: p', y :: s' => ci_eqb x y && ci_startswith p' s'
  | _ :: _, [] => false
  end.

(** [re.sub(p, "", s, flags=re.IGNORECASE)] for a pattern [p] that is a
    non-empty literal text: the occurrences are removed from left to
    right, without overlap.  [skip] counts the characters of the current
    occurrence that are still to drop. *)
Fixpoint sub_literal_aux (p : str) (skip : nat) (s : str) : str :=
  match s with
  | [] => []
  | c :: t =>
      match skip with
      | S k => sub_literal_aux p k t
      | O => if ci_startswith p s
             then sub_literal_aux p (List.length p - 1) t
             else c :: sub_literal_aux p 0 t
      end
  end.

Definition sub_literal (p : str) (s : str) : str := sub_literal_aux p 0 s.

(** Modelled from the spec: [config.NOISE_PATTERNS] is not among the
    sources; it is the "ordered list of noise regular expressions". *)
Definition NOISE_PATTERNS : list (str -> str) :=
  [sub_literal (u "оплата услуг")].

(** *** The parsers with this library and configuration *)

Definition strip_footer : str -> str :=
  Cleaner.strip_footer lower FOOTER_MARKERS.

Definition clean_description : str -> str :=
  Cleaner.clean_description lower FOOTER_MARKERS NOISE_PATTERNS.

Definition freedom_head : str -> result (option Tx) :=
  Freedom._parse_head_line capitalize strptime_dmY TX_HEAD_RE
    KNOWN_OPERATIONS.

Definition parser_head : str -> result (option Tx) :=
  Parser._parse_head capitalize strptime_dmY TX_HEAD_RE KNOWN_OPERATIONS.

Definition parse_freedom_pdf : list (option str) -> result (list Tx) :=
  Freedom.parse_freedom_pdf lower capitalize strptime_dmY FOOTER_MARKERS
    NOISE_PATTERNS DATE_START_RE TX_HEAD_RE KNOWN_OPERATIONS.

Definition parse_pdf : list (option str) -> result (list Tx) :=
  Parser.parse_pdf lower capitalize strptime_dmY FOOTER_MARKERS
    NOISE_PATTERNS DATE_START_RE TX_HEAD_RE KNOWN_OPERATIONS.

Definition kaspi_row_step
  : Kaspi.doc_state -> list (option str) -> Kaspi.doc_state :=
  Kaspi.row_step lower capitalize strptime_dmy re_digit FOOTER_MARKERS
    NOISE_PATTERNS.

Definition kaspi_pages_loop
  : list (option (list (list (option str)))) -> Kaspi.doc_state
    -> Kaspi.doc_state :=
  Kaspi.pages_loop lower capitalize strptime_dmy re_digit FOOTER_MARKERS
    NOISE_PATTERNS.

Definition parse_kaspi_pdf
  : list (option (list (list (option str)))) -> list Tx :=
  Kaspi.parse_kaspi_pdf lower capitalize strptime_dmy re_digit
    FOOTER_MARKERS NOISE_PATTERNS.

(** *** Statements *)

Definition cell (s : string) : option str := Some (u s).

(** A head line whose date token is no date: there is no month 13. *)
Definition bad_date_line : str := u "31.13.2025 -500,00 KZT Перевод Оплата".

Definition income_line : str := u "18.12.2025 +1000,00 KZT Доход Зарплата".

Definition expense_line : str :=
  u "17.12.2025  -500,00 KZT Перевод Безвозмездный перевод".

Definition kaspi_header : list (option str) :=
  [cell "Дата"; cell "Сумма"; cell "Операция"; cell "Детали"].

(** A later header row without a details column, the columns in another
    order. *)
Definition kaspi_header_short : list (option str) :=
  [cell "Операция"; cell "Дата"; cell "Сумма"].

Definition kaspi_row1 : list (option str) :=
  [cell "17.12.25"; cell "-2 880,00 ₸"; cell "Покупка"; cell "Магазин"].

Definition kaspi_row2 : list (option str) :=
  [cell "18.12.25"; cell "+3 000,00 ₸"; cell "пополнение"; cell "С карты"].

Definition kaspi_row3 : list (option str) :=
  [cell "19.12.25"; cell "-500,00 ₸"; cell "Перевод"; cell "Алия"].

(** A row that ends after its first cell: reading the amount column
    raises [IndexError]. *)
Definition kaspi_row_short : list (option str) := [cell "20.12.25"].


Definition all_cols : Kaspi.Cols :=
  Kaspi.mkCols (Some 0) (Some 1) (Some 2) (Some 3).

End Sample.

(** ** analytics.py *)

(** A transaction after [categorize_transactions]: the dictionary with its
    key [category]. *)
Record CatTx : Type := mkCatTx {
  tx_of : Tx;
  category : str
}.

Definition set_transfer_type (t : Tx) (k : TransferType) : Tx :=
  mkTx (date t) (amount t) (currency t) (operation t) (description t)
       (direction t) (Some k) (source t).

Module Analytics.

(** [counter[key] += 1] on a [Counter], kept as the list of its items in
    insertion order. *)
Fixpoint counter_incr (key : str) (counter : list (str * nat))
  : list (str * nat) :=
  match counter with
  | [] => [(key, 1)]
  | (k, n) :: rest =>
      if str_eqb k key then (k, S n) :: rest
      else (k, n) :: counter_incr key rest
  end.

(** [counter[key]] *)
Fixpoint counter_get (key : str) (counter : list (str * nat)) : nat :=
  match counter with
  | [] => 0
  | (k, n) :: rest => if str_eqb k key then n else counter_get key rest
  end.

Definition is_expense (tx : Tx) : bool :=
  match direction tx with expense => true | _ => false end.

Section Analytics.

Variable lower : str -> str.                   (* str.lower *)
Variable upper : str -> str.                   (* str.upper *)
Variable SELF_KEYWORDS : list str.             (* config *)
Variable FAMILY_KEYWORDS : list str.           (* config *)
(** The pairs [(cat_name, patterns)]; a pattern [p] is given by the test
    [re.search(p, desc)]. *)
Variable CATEGORIES : list (str * list (str -> bool)).   (* config *)

Definition _contains_any (text : str) (keywords : list str) : bool :=
  let low := lower text in
  existsb (fun k => contains (lower k) low) keywords.

(** The body of the loop of [classify_transfers]. *)
Definition classify_one (tx : Tx) : Tx :=
  if negb (str_eqb (operation tx) (u "Перевод")) then tx
  else
    let desc := description tx in
    if _contains_any desc SELF_KEYWORDS then set_transfer_type tx self
    else if _contains_any desc FAMILY_KEYWORDS
         then set_transfer_type tx family
         else set_transfer_type tx other.

Definition classify_transfers (transactions : list Tx) : list Tx :=
  map classify_one transactions.

Definition filter_self_transfers (transactions : list Tx) : list Tx :=
  filter (fun tx => match transfer_type tx with
                    | Some self => false
                    | _ => true
                    end) transactions.

(** The loop over [CATEGORIES]; [category] is the value of the variable
    when the iteration starts. *)
Fixpoint category_loop (cats : list (str * list (str -> bool)))
         (desc : str) (category : str) : str :=
  match cats with
  | [] => category
  | (cat_name, patterns) :: rest =>
      let category := if existsb (fun p => p desc) patterns then cat_name
                      else category in
      if negb (str_eqb category (u "Прочее")) then category
      else category_loop rest desc category
  end.

Definition categorize_one (tx : Tx) : CatTx :=
  let desc := upper (description tx) in
  mkCatTx tx (category_loop CATEGORIES desc (u "Прочее")).

Definition categorize_transactions (transactions : list Tx) : list CatTx :=
  map categorize_one transactions.

(** The loop of [recurring_payments]. *)
Definition count_step (counter : list (str * nat)) (tx : Tx)
  : list (str * nat) :=
  if is_expense tx then counter_incr (upper (description tx)) counter
  else counter.

Definition recurring_payments (transactions : list Tx) (min_count : Z)
  : list (str * nat) :=
  filter (fun item => (min_count <=? Z.of_nat (snd item))%Z)
         (fold_left count_step transactions []).

End Analytics.
End Analytics.

(** Sample values of the keyword and category tables of [config], which is
    not among the sources. *)
Module AnalyticsSample.

Definition upper (s : str) : str := map Sample.upper_char s.

Definition SELF_KEYWORDS : list str := [u "свой счет"; u "между своими"].
Definition FAMILY_KEYWORDS : list str := [u "Алия"; u "мама"].

(** [re.search(p, desc)] for a pattern that is a literal text. *)
Definition search_literal (p : str) (desc : str) : bool := contains p desc.

Definition CATEGORIES : list (str * list (str -> bool)) :=
  [(u "Прочее", [search_literal (u "КОМИССИЯ")]);
   (u "Еда", [search_literal (u "КАФЕ"); search_literal (u "МАГАЗИН")]);
   (u "Связь", [search_literal (u "ИНТЕРНЕТ")])].

Definition classify_transfers : list Tx -> list Tx :=
  Analytics.classify_transfers Sample.lower SELF_KEYWORDS FAMILY_KEYWORDS.

Definition categorize_one : Tx -> CatTx :=
  Analytics.categorize_one upper CATEGORIES.

End AnalyticsSample.

(** ** Notions used in the statements *)

(** A decimal numeral: an optional sign, then digits with at most one
    period and at least one digit. *)
Definition is_numeral (s : str) : bool :=
  let body :=
    match s with
    | c :: t => if char_eqb c c_hyphen || char_eqb c c_plus then t else s
    | [] => []
    end in
  let (ip, rest) := span_digits body in
  match rest with
  | [] => negb (is_nil ip)
  | c :: fp => char_eqb c c_period && forallb is_ascii_digit fp
               && negb (is_nil ip && is_nil fp)
  end.

(** The absolute value and the opposite of a decimal as numbers, with
    nothing rounded. *)
Definition exact_abs (d : Decimal) : Decimal :=
  mkDecimal false (dcoeff d) (dexp d).

Definition exact_neg (d : Decimal) : Decimal :=
  if (dcoeff d =? 0)%N then mkDecimal false (dcoeff d) (dexp d)
  else mkDecimal (negb (dsign d)) (dcoeff d) (dexp d).

(** The two decimals are the same number. *)
Definition same_number (a b : Decimal) : Prop :=
  let m := Z.min (dexp a) (dexp b) in
  (dec_scaled a * 10 ^ (dexp a - m) = dec_scaled b * 10 ^ (dexp b - m))%Z.

(** The decimal is within the context: at most 28 digits, no digit below
    [Etiny], the first digit not above [Emax]. *)
Definition fits_context (d : Decimal) : Prop :=
  (ndigits (dcoeff d) <= context_prec)%Z
  /\ (Etiny <= dexp d)%Z
  /\ (dexp d + ndigits (dcoeff d) - 1 <= context_Emax)%Z.

(** The direction of the record is the sign of its amount. *)
Definition dir_ok (r : Tx) : Prop := direction r = direction_of (amount r).

(** [sub] occurs in [s] at index [i]. *)
Definition occurs_at (sub s : str) (i : nat) : Prop :=
  i <= List.length s /\ startswith sub (skipn i s) = true.

(** The first character, if any, is not white space. *)
Definition head_ok (s : str) : bool :=
  match s with
  | [] => true
  | c :: _ => negb (is_space c)
  end.

(** Every white space character is a space and is followed by a character
    that is not white space, or by nothing. *)
Fixpoint tidy (s : str) : Prop :=
  match s with
  | [] => True
  | c :: t => (is_space c = true -> c = c_space /\ head_ok t = true) /\ tidy t
  end.

Module KaspiSpec.
Section KaspiSpec.

Variable lower : str -> str.
Variable capitalize : str -> str.
Variable strptime_dmy : str -> option Date.
Variable re_digit : char -> bool.
Variable FOOTER_MARKERS : list str.
Variable NOISE_PATTERNS : list (str -> str).

(** The table has no header row. *)
Definition headerless_table (table : list (list (option str))) : Prop :=
  Forall (fun raw =>
            Kaspi._looks_like_header lower (Kaspi.normalize_row raw) = false)
         table.

Definition headerless (page : option (list (list (option str)))) : Prop :=
  match page with
  | None => True
  | Some table => headerless_table table
  end.

(** The records a row yields when it is decoded with the indices [c]. *)
Definition row_records (c : Kaspi.Cols) (raw : list (option str))
  : list Tx :=
  snd (Kaspi.row_step lower capitalize strptime_dmy re_digit
         FOOTER_MARKERS NOISE_PATTERNS (c, []) raw).

Definition page_records (c : Kaspi.Cols)
           (page : option (list (list (option str)))) : list Tx :=
  match page with
  | None => []
  | Some table => flat_map (row_records c) table
  end.

(** One of the indices of the date, amount and operation columns is
    unknown. *)
Definition unknown (c : Kaspi.Cols) : Prop :=
  Kaspi.idx_date c = None \/ Kaspi.idx_amount c = None
  \/ Kaspi.idx_operation c = None.

(** No cell of the row contains the indicator [ind]. *)
Definition absent (ind : str) (row : list str) : Prop :=
  forall cell, In cell row -> contains ind (lower cell) = false.

End KaspiSpec.
End KaspiSpec.

(** * Properties *)

(** ** Text and decimals *)

Lemma char_eqb_eq (a b : char) : char_eqb a b = true <-> a = b.
Proof. unfold char_eqb. apply N.eqb_eq. Qed.

Lemma str_eqb_eq (a b : str) : str_eqb a b = true <-> a = b.
Proof.
  revert b. induction a as [|x a IH]; intros [|y b]; simpl; split;
    try congruence; try reflexivity.
  - intros H. apply andb_true_iff in H as [H1 H2].
    apply char_eqb_eq in H1. apply IH in H2. congruence.
  - intros H. injection H as -> ->. apply andb_true_iff. split.
    + now apply char_eqb_eq.
    + now apply IH.
Qed.

Lemma str_in_In (x : str) (xs : list str) : str_in x xs = true <-> In x xs.
Proof.
  unfold str_in. rewrite existsb_exists. split.
  - intros (y & Hy & E). apply str_eqb_eq in E. now subst.
  - intros H. exists x. split; [assumption | now apply str_eqb_eq].
Qed.

Lemma str_in_not_In (x : str) (xs : list str) :
  str_in x xs = false <-> ~ In x xs.
Proof.
  rewrite <- str_in_In. destruct (str_in x xs); split; congruence.
Qed.

Lemma Decimal_of_numeral (s : str) :
  is_numeral s = true -> exists d, Decimal_of_str s = Ok d.
Proof.
  unfold is_numeral, Decimal_of_str.
  destruct s as [|c t]; [discriminate|].
  destruct (char_eqb c c_hyphen); [|destruct (char_eqb c c_plus)];
    cbn -[span_digits];
    destruct (span_digits _) as [ip [|x fp]]; intros H;
    try (rewrite H; eauto);
    destruct (is_nil ip); first [discriminate | eauto].
Qed.

Lemma Decimal_of_other (s : str) :
  is_numeral s = false -> Decimal_of_str s = Raise InvalidOperation.
Proof.
  unfold is_numeral, Decimal_of_str.
  destruct s as [|c t]; [reflexivity|].
  destruct (char_eqb c c_hyphen); [|destruct (char_eqb c c_plus)];
    cbn -[span_digits];
    destruct (span_digits _) as [ip [|x fp]]; intros H;
    try (now rewrite H);
    destruct (is_nil ip); first [discriminate | reflexivity].
Qed.

Lemma Decimal_of_zero : Decimal_of_str (u "0") = Ok dec_zero.
Proof. reflexivity. Qed.

Lemma or_zero_nonempty (s : str) :
  s <> [] -> (if is_nil s then u "0" else s) = s.
Proof. destruct s; [congruence | reflexivity]. Qed.

Lemma numeral_nonempty (s : str) : is_numeral s = true -> s <> [].
Proof. destruct s; [discriminate | congruence]. Qed.

Lemma parser_to_decimal_same (v : str) :
  Parser._to_decimal v = Freedom._to_decimal v.
Proof. reflexivity. Qed.

(** ** The amount normalizer *)

(** C3, as the code has it: the normalizers return the decimal zero when
    the input is empty or nothing is left of it after stripping; they
    return a [Decimal] when what is left is a decimal numeral; and on any
    other residue they raise [InvalidOperation]. *)
Theorem normalizer_defined_on_numerals (v : str) :
  (Freedom.stripped v = [] ->
     Freedom._to_decimal v = Ok dec_zero /\ Parser._to_decimal v = Ok dec_zero)
  /\ (Kaspi.stripped v = [] -> Kaspi._parse_amount v = Ok dec_zero)
  /\ (is_numeral (Freedom.stripped v) = true ->
     exists d, Freedom._to_decimal v = Ok d /\ Parser._to_decimal v = Ok d)
  /\ (is_numeral (Kaspi.stripped v) = true ->
     exists d, Kaspi._parse_amount v = Ok d)
  /\ (Freedom.stripped v <> [] -> is_numeral (Freedom.stripped v) = false ->
     Freedom._to_decimal v = Raise InvalidOperation
     /\ Parser._to_decimal v = Raise InvalidOperation)
  /\ (Kaspi.stripped v <> [] -> is_numeral (Kaspi.stripped v) = false ->
     Kaspi._parse_amount v = Raise InvalidOperation).
Proof.
  change (Parser._to_decimal v) with (Freedom._to_decimal v).
  unfold Freedom._to_decimal, Kaspi._parse_amount.
  split; [|split; [|split; [|split; [|split]]]].
  - now intros ->.
  - now intros ->.
  - intros H. rewrite (or_zero_nonempty _ (numeral_nonempty _ H)).
    destruct (Decimal_of_numeral _ H) as [d Hd]. eauto.
  - intros H. rewrite (or_zero_nonempty _ (numeral_nonempty _ H)).
    now apply Decimal_of_numeral.
  - intros H H0. rewrite (or_zero_nonempty _ H).
    split; now apply Decimal_of_other.
  - intros H H0. rewrite (or_zero_nonempty _ H). now apply Decimal_of_other.
Qed.

Lemma normalizer_defined_on_numerals_witness :
  Freedom.stripped (u "???") = []
  /\ Freedom._to_decimal (u "???") = Ok dec_zero
  /\ is_numeral (Kaspi.stripped (u "+3 000,00 ₸")) = true
  /\ (exists d, Kaspi._parse_amount (u "+3 000,00 ₸") = Ok d)
  /\ Freedom.stripped (u "12-34") <> []
  /\ is_numeral (Freedom.stripped (u "12-34")) = false
  /\ Freedom._to_decimal (u "12-34") = Raise InvalidOperation.
Proof.
  split; [reflexivity|].
  split; [apply (normalizer_defined_on_numerals (u "???")); reflexivity|].
  split; [reflexivity|].
  split; [apply (normalizer_defined_on_numerals (u "+3 000,00 ₸"));
          reflexivity|].
  split; [discriminate|].
  split; [reflexivity|].
  apply (normalizer_defined_on_numerals (u "12-34"));
    [discriminate | reflexivity].
Defined.

(** C3, as the claim has it, fails: a lone hyphen, and a text with two
    periods, make the normalizers raise. *)
Lemma normalizer_raises :
  Freedom._to_decimal (u "-") = Raise InvalidOperation
  /\ Parser._to_decimal (u "-") = Raise InvalidOperation
  /\ Kaspi._parse_amount (u "-") = Raise InvalidOperation
  /\ Kaspi._parse_amount (u "1.234,56") = Raise InvalidOperation.
Proof. repeat split; reflexivity. Qed.

(** ** Signs and directions *)

Lemma dec_fix_sign (d x : Decimal) : dec_fix d = Ok x -> dsign x = dsign d.
Proof.
  unfold dec_fix. destruct (dcoeff d =? 0)%N.
  - intros H. now injection H as <-.
  - cbv zeta. destruct (_ >? Etop)%Z; [discriminate|].
    destruct (dexp d <? _)%Z; [|intros H; now injection H as <-].
    destruct (if (_ || _)%bool then _ else _) as [coeff e].
    destruct (e >? Etop)%Z; [discriminate|].
    intros H. now injection H as <-.
Qed.

Lemma dec_fix_raises (d : Decimal) (e : exn) :
  dec_fix d = Raise e -> e = Overflow.
Proof.
  unfold dec_fix. destruct (dcoeff d =? 0)%N; [discriminate|].
  cbv zeta. destruct (_ >? Etop)%Z; [intros H; now injection H as <-|].
  destruct (dexp d <? _)%Z; [|discriminate].
  destruct (if (_ || _)%bool then _ else _) as [coeff e'].
  destruct (e' >? Etop)%Z; [intros H; now injection H as <-|discriminate].
Qed.

Lemma dec_fix_zero (d x : Decimal) :
  dcoeff d = 0%N -> dec_fix d = Ok x -> dcoeff x = 0%N.
Proof.
  unfold dec_fix. intros ->. cbn. intros H. now injection H as <-.
Qed.

(** A decimal within the context is not changed by the rounding. *)
Lemma dec_fix_exact (d : Decimal) : fits_context d -> dec_fix d = Ok d.
Proof.
  unfold dec_fix, fits_context. destruct d as [s c e]. cbn [dcoeff dexp dsign].
  unfold Etiny, Etop, context_Emin, context_Emax, context_prec.
  intros (H1 & H2 & H3).
  destruct (N.eqb_spec c 0) as [->|Hc].
  - change (ndigits 0) with 1%Z in H3. do 2 f_equal. lia.
  - cbv zeta.
    destruct (Z.gtb_spec (ndigits c + e - 28) (999999 - 28 + 1));
      [lia|].
    destruct (Z.ltb_spec e (Z.max (ndigits c + e - 28) (-999999 - 28 + 1)));
      [lia | reflexivity].
Qed.

Lemma dec_abs_exact (d : Decimal) :
  fits_context d -> dec_abs d = Ok (exact_abs d).
Proof. intros H. unfold dec_abs. now apply dec_fix_exact. Qed.

Lemma dec_neg_exact (d : Decimal) :
  fits_context d -> dec_neg d = Ok (exact_neg d).
Proof.
  intros H. unfold dec_neg, exact_neg. apply dec_fix_exact.
  now destruct (dcoeff d =? 0)%N.
Qed.

Lemma dec_abs_sign (d x : Decimal) : dec_abs d = Ok x -> dsign x = false.
Proof. intros H. now apply dec_fix_sign in H. Qed.

Lemma dec_neg_abs_sign (d a x : Decimal) :
  dec_abs d = Ok a -> dec_neg a = Ok x ->
  dsign x = true \/ dcoeff x = 0%N.
Proof.
  intros Ha Hx. apply dec_abs_sign in Ha. unfold dec_neg in Hx.
  destruct (N.eqb_spec (dcoeff a) 0) as [E|E].
  - right. now apply dec_fix_zero in Hx.
  - left. apply dec_fix_sign in Hx. rewrite Hx. cbn. now rewrite Ha.
Qed.

Lemma dec_lt0_scaled (d : Decimal) :
  dec_lt0 d = true <-> (dec_scaled d < 0)%Z.
Proof.
  unfold dec_lt0, dec_scaled.
  destruct (dsign d); destruct (N.eqb_spec (dcoeff d) 0); simpl;
    split; try discriminate; try reflexivity; lia.
Qed.

Lemma dec_gt0_scaled (d : Decimal) :
  dec_gt0 d = true <-> (0 < dec_scaled d)%Z.
Proof.
  unfold dec_gt0, dec_scaled.
  destruct (dsign d); destruct (N.eqb_spec (dcoeff d) 0); simpl;
    split; try discriminate; try reflexivity; lia.
Qed.

(** [direction_of] is the sign function of the amount. *)
Lemma direction_of_sign (d : Decimal) :
  ((0 < dec_scaled d)%Z -> direction_of d = income)
  /\ ((dec_scaled d < 0)%Z -> direction_of d = expense)
  /\ (dec_scaled d = 0%Z -> direction_of d = neutral).
Proof.
  unfold direction_of.
  pose proof (dec_lt0_scaled d) as L. pose proof (dec_gt0_scaled d) as G.
  destruct (dec_lt0 d); destruct (dec_gt0 d); repeat split; intros H;
    try reflexivity;
    try (apply L in H; discriminate); try (apply G in H; discriminate);
    try (destruct L as [L _]; specialize (L eq_refl); lia);
    try (destruct G as [G _]; specialize (G eq_refl); lia).
Qed.

Lemma negated_begins (raw : str) :
  Freedom.negated raw = true
  <-> exists t, raw = c_hyphen :: t \/ raw = c_minus :: t.
Proof.
  unfold Freedom.negated. destruct raw as [|c t]; cbn [startswith].
  - split; [discriminate | intros (t & [H|H]); discriminate].
  - rewrite !andb_true_r. rewrite orb_true_iff, !char_eqb_eq. split.
    + intros [H|H]; exists t; subst; auto.
    + intros (t' & [H|H]); injection H as H _; subst; auto.
Qed.

(** ** The head-line decoders *)

Section Heads.

Variable capitalize : str -> str.
Variable strptime_dmY : str -> option Date.
Variable TX_HEAD_RE : str -> option HeadMatch.
Variable KNOWN_OPERATIONS : list str.

Local Abbreviation freedom_head :=
  (Freedom._parse_head_line capitalize strptime_dmY TX_HEAD_RE
     KNOWN_OPERATIONS).
Local Abbreviation parser_head :=
  (Parser._parse_head capitalize strptime_dmY TX_HEAD_RE KNOWN_OPERATIONS).

Lemma freedom_head_inv (line : str) (r : Tx) :
  freedom_head line = Ok (Some r) ->
  exists m dt d a,
    TX_HEAD_RE line = Some m
    /\ strptime_dmY (g_date m) = Some dt
    /\ Freedom._to_decimal (g_amount m) = Ok d
    /\ (if Freedom.negated (g_amount m)
        then bind (dec_abs d) dec_neg else dec_abs d) = Ok a
    /\ r = mkTx dt a (g_currency m)
             (if str_in (capitalize (g_operation m)) KNOWN_OPERATIONS
              then capitalize (g_operation m) else u "Покупка")
             (or_empty (g_details m)) (direction_of a) None None.
Proof.
  unfold Freedom._parse_head_line.
  destruct (TX_HEAD_RE line) as [m|]; [|discriminate].
  destruct (strptime_dmY (g_date m)) as [dt|] eqn:Edt; [|discriminate].
  cbn [bind].
  destruct (Freedom._to_decimal (g_amount m)) as [d|e] eqn:Ed;
    [|discriminate].
  cbn [bind].
  destruct (if Freedom.negated (g_amount m)
            then bind (dec_abs d) dec_neg else dec_abs d) as [a|e] eqn:Ea;
    [|discriminate].
  cbn [bind]. intros H. injection H as <-.
  exists m, dt, d, a. repeat split; first [assumption | reflexivity].
Qed.

Lemma parser_head_inv (line : str) (r : Tx) :
  parser_head line = Ok (Some r) ->
  exists m dt d a,
    TX_HEAD_RE line = Some m
    /\ strptime_dmY (g_date m) = Some dt
    /\ Parser._to_decimal (g_amount m) = Ok d
    /\ (if Freedom.negated (g_amount m)
        then bind (dec_abs d) dec_neg else Ok d) = Ok a
    /\ r = mkTx dt a (g_currency m)
             (if str_in (capitalize (g_operation m)) KNOWN_OPERATIONS
              then capitalize (g_operation m) else u "Покупка")
             (or_empty (g_details m)) expense None None.
Proof.
  unfold Parser._parse_head.
  destruct (TX_HEAD_RE line) as [m|]; [|discriminate].
  destruct (strptime_dmY (g_date m)) as [dt|] eqn:Edt; [|discriminate].
  cbn [bind].
  destruct (Parser._to_decimal (g_amount m)) as [d|e] eqn:Ed;
    [|discriminate].
  cbn [bind].
  destruct (if Freedom.negated (g_amount m)
            then bind (dec_abs d) dec_neg else Ok d) as [a|e] eqn:Ea;
    [|discriminate].
  cbn [bind]. intros H. injection H as <-.
  exists m, dt, d, a. repeat split; first [assumption | reflexivity].
Qed.

Lemma neg_abs_exact (d x : Decimal) :
  fits_context d -> bind (dec_abs d) dec_neg = Ok x ->
  x = exact_neg (exact_abs d).
Proof.
  intros F. rewrite (dec_abs_exact d F). cbn [bind].
  rewrite dec_neg_exact; [congruence | exact F].
Qed.

Lemma neg_abs_sign (d x : Decimal) :
  bind (dec_abs d) dec_neg = Ok x -> dsign x = true \/ dcoeff x = 0%N.
Proof.
  destruct (dec_abs d) as [a|e] eqn:Ea; cbn [bind]; [|discriminate].
  intros H. exact (dec_neg_abs_sign d a x Ea H).
Qed.

(** C5, as the code has it: for a head line the pattern accepts, the
    decoder of [freedom_parser.py] emits [-abs(a)] when the amount token
    begins with a hyphen or a minus sign and [abs(a)] otherwise, [a]
    being the normalized amount and [abs] and the unary minus those of
    the decimal context.  The first is negative or zero, the second is
    not negative; both have exactly the magnitude of [a] when [a] is
    within the context, of 28 digits.  The decoder of [parser.py] emits
    the same [-abs(a)] when the token begins with a hyphen or a minus
    sign, and [a] itself otherwise, which is its absolute value only
    when [a] is not negative. *)
Theorem head_amount_sign_forced (line : str) (m : HeadMatch) :
  TX_HEAD_RE line = Some m ->
  (forall r,
      freedom_head line = Ok (Some r) ->
      exists d,
        Freedom._to_decimal (g_amount m) = Ok d
        /\ ((exists t,
                g_amount m = c_hyphen :: t \/ g_amount m = c_minus :: t) ->
            bind (dec_abs d) dec_neg = Ok (amount r)
            /\ (dsign (amount r) = true \/ dcoeff (amount r) = 0%N)
            /\ (fits_context d -> amount r = exact_neg (exact_abs d)))
        /\ (~ (exists t,
                  g_amount m = c_hyphen :: t \/ g_amount m = c_minus :: t) ->
            dec_abs d = Ok (amount r)
            /\ dsign (amount r) = false
            /\ (fits_context d -> amount r = exact_abs d)))
  /\ (forall r,
         parser_head line = Ok (Some r) ->
         exists d,
           Parser._to_decimal (g_amount m) = Ok d
           /\ ((exists t,
                   g_amount m = c_hyphen :: t \/ g_amount m = c_minus :: t) ->
               bind (dec_abs d) dec_neg = Ok (amount r)
               /\ (dsign (amount r) = true \/ dcoeff (amount r) = 0%N)
               /\ (fits_context d -> amount r = exact_neg (exact_abs d)))
           /\ (~ (exists t,
                     g_amount m = c_hyphen :: t \/ g_amount m = c_minus :: t) ->
               amount r = d
               /\ (dsign d = false -> amount r = exact_abs d))).
Proof.
  intros Hm. split.
  - intros r H.
    apply freedom_head_inv in H as (m' & dt & d & a & E & _ & Hd & Ha & ->).
    rewrite Hm in E. injection E as <-.
    exists d. split; [assumption|]. cbn [amount]. split.
    + intros B. apply negated_begins in B. rewrite B in Ha.
      split; [assumption|]. split; [exact (neg_abs_sign d a Ha)|].
      intros F. now apply neg_abs_exact.
    + intros B. rewrite <- negated_begins in B.
      destruct (Freedom.negated (g_amount m)); [congruence|].
      split; [assumption|]. split; [exact (dec_abs_sign d a Ha)|].
      intros F. rewrite (dec_abs_exact d F) in Ha. congruence.
  - intros r H.
    apply parser_head_inv in H as (m' & dt & d & a & E & _ & Hd & Ha & ->).
    rewrite Hm in E. injection E as <-.
    exists d. split; [assumption|]. cbn [amount]. split.
    + intros B. apply negated_begins in B. rewrite B in Ha.
      split; [assumption|]. split; [exact (neg_abs_sign d a Ha)|].
      intros F. now apply neg_abs_exact.
    + intros B. rewrite <- negated_begins in B.
      destruct (Freedom.negated (g_amount m)); [congruence|].
      injection Ha as <-. split; [reflexivity|].
      destruct d as [sg co ex]. cbn. now intros ->.
Qed.

(** The earlier parser forces the sign only when the token is negated;
    otherwise it keeps the normalized amount, whatever its sign. *)
Lemma parser_head_amount (line : str) (m : HeadMatch) (r : Tx) :
  TX_HEAD_RE line = Some m ->
  parser_head line = Ok (Some r) ->
  exists d,
    Parser._to_decimal (g_amount m) = Ok d
    /\ (if Freedom.negated (g_amount m)
        then bind (dec_abs d) dec_neg else Ok d) = Ok (amount r).
Proof.
  intros Hm H.
  apply parser_head_inv in H as (m' & dt & d & a & E & _ & Hd & Ha & ->).
  rewrite Hm in E. injection E as <-. exists d. now split.
Qed.

Lemma in_replace_char (x c : char) (r s : str) :
  In x (replace_char c r s) -> In x r /\ In c s \/ In x s.
Proof.
  unfold replace_char. rewrite in_flat_map. intros (y & Hy & Hx).
  destruct (char_eqb y c) eqn:E.
  - apply char_eqb_eq in E. subst. now left.
  - destruct Hx as [<-|[]]. now right.
Qed.

Lemma stripped_hyphen (v : str) :
  In c_hyphen (Freedom.stripped v) -> In c_hyphen v \/ In c_minus v.
Proof.
  unfold Freedom.stripped. intros H. apply filter_In in H as [H _].
  assert (G : In c_hyphen
                (replace_char c_space []
                   (replace_char c_minus [c_hyphen] v))).
  { destruct (has_char c_period _ && has_char c_comma _);
      apply in_replace_char in H as [[H _]|H]; try assumption.
    - destruct H.
    - destruct H as [H|[]]. discriminate H. }
  apply in_replace_char in G as [[[] _]|G].
  apply in_replace_char in G as [[_ G]|G]; auto.
Qed.

Lemma Decimal_of_str_sign (s : str) (d : Decimal) :
  Decimal_of_str s = Ok d -> dsign d = true -> In c_hyphen s.
Proof.
  unfold Decimal_of_str. destruct s as [|c t]; [discriminate|].
  destruct (char_eqb c c_hyphen) eqn:E.
  - intros _ _. apply char_eqb_eq in E. subst. now left.
  - destruct (char_eqb c c_plus);
      destruct (span_digits _) as [ip [|x fp]];
      repeat match goal with
             | |- context [if ?b then _ else _] => destruct b
             end;
      intros H; try discriminate H; injection H as <-; discriminate.
Qed.

(** When the amount token holds no hyphen and no minus sign, the earlier
    parser emits the normalized amount, which is not negative. *)
Lemma parser_head_amount_unsigned (line : str) (m : HeadMatch) (r : Tx) :
  TX_HEAD_RE line = Some m ->
  parser_head line = Ok (Some r) ->
  ~ In c_hyphen (g_amount m) -> ~ In c_minus (g_amount m) ->
  Parser._to_decimal (g_amount m) = Ok (amount r)
  /\ dsign (amount r) = false.
Proof.
  intros Hm H Hh Hu.
  destruct (parser_head_amount _ _ _ Hm H) as (d & Hd & Ha).
  destruct (Freedom.negated (g_amount m)) eqn:N.
  - apply negated_begins in N as (t & [E|E]); rewrite E in *;
      exfalso; [apply Hh | apply Hu]; now left.
  - injection Ha as <-. split; [assumption|].
    destruct (dsign d) eqn:S; [|reflexivity]. exfalso.
    change (Parser._to_decimal (g_amount m))
      with (Freedom._to_decimal (g_amount m)) in Hd.
    unfold Freedom._to_decimal in Hd.
    destruct (Freedom.stripped (g_amount m)) as [|c t] eqn:Es.
    + injection Hd as <-. discriminate S.
    + cbn [is_nil] in Hd. apply Decimal_of_str_sign in Hd; [|assumption].
      rewrite <- Es in Hd. apply stripped_hyphen in Hd as [G|G]; auto.
Qed.

(** C2, where the code departs from it: every record of the head
    decoder of [parser.py] has the direction [expense]; when its amount
    is not negative this is not the sign of the amount. *)
Theorem parser_head_direction_constant (line : str) (r : Tx) :
  parser_head line = Ok (Some r) ->
  dec_lt0 (amount r) = false ->
  direction r = expense /\ direction r <> direction_of (amount r).
Proof.
  intros H Hs.
  apply parser_head_inv in H as (m & dt & d & a & _ & _ & _ & _ & ->).
  cbn [direction amount] in *. split; [reflexivity|].
  unfold direction_of. rewrite Hs.
  destruct (dec_gt0 _); discriminate.
Qed.

(** The decoder of [freedom_parser.py] derives the direction from the
    amount. *)
Lemma freedom_head_direction (line : str) (r : Tx) :
  freedom_head line = Ok (Some r) ->
  direction r = direction_of (amount r).
Proof.
  intros H.
  apply freedom_head_inv in H as (m & dt & d & a & _ & _ & _ & _ & ->).
  reflexivity.
Qed.

(** The operation label of both head decoders. *)
Lemma head_operation (line : str) (m : HeadMatch) (r : Tx) :
  TX_HEAD_RE line = Some m ->
  freedom_head line = Ok (Some r) \/ parser_head line = Ok (Some r) ->
  operation r =
    if str_in (capitalize (g_operation m)) KNOWN_OPERATIONS
    then capitalize (g_operation m) else u "Покупка".
Proof.
  intros Hm [H|H].
  - apply freedom_head_inv in H as (m' & dt & d & a & E & _ & _ & _ & ->).
    rewrite Hm in E. now injection E as <-.
  - apply parser_head_inv in H as (m' & dt & d & a & E & _ & _ & _ & ->).
    rewrite Hm in E. now injection E as <-.
Qed.

End Heads.

(** ** The line-based entry points *)

Section Lines.

Variable lower : str -> str.
Variable capitalize : str -> str.
Variable strptime_dmY : str -> option Date.
Variable FOOTER_MARKERS : list str.
Variable NOISE_PATTERNS : list (str -> str).
Variable DATE_START_RE : str -> bool.
Variable TX_HEAD_RE : str -> option HeadMatch.
Variable KNOWN_OPERATIONS : list str.

Local Abbreviation freedom_head :=
  (Freedom._parse_head_line capitalize strptime_dmY TX_HEAD_RE
     KNOWN_OPERATIONS).
Local Abbreviation freedom_loop :=
  (Freedom.page_loop lower capitalize strptime_dmY FOOTER_MARKERS
     NOISE_PATTERNS DATE_START_RE TX_HEAD_RE KNOWN_OPERATIONS).
Local Abbreviation freedom_page :=
  (Freedom._parse_page lower capitalize strptime_dmY FOOTER_MARKERS
     NOISE_PATTERNS DATE_START_RE TX_HEAD_RE KNOWN_OPERATIONS).
Local Abbreviation freedom_pages :=
  (Freedom.pages_loop lower capitalize strptime_dmY FOOTER_MARKERS
     NOISE_PATTERNS DATE_START_RE TX_HEAD_RE KNOWN_OPERATIONS).
Local Abbreviation parse_freedom_pdf :=
  (Freedom.parse_freedom_pdf lower capitalize strptime_dmY FOOTER_MARKERS
     NOISE_PATTERNS DATE_START_RE TX_HEAD_RE KNOWN_OPERATIONS).
Local Abbreviation parse_pdf :=
  (Parser.parse_pdf lower capitalize strptime_dmY FOOTER_MARKERS
     NOISE_PATTERNS DATE_START_RE TX_HEAD_RE KNOWN_OPERATIONS).

Lemma page_lines_nonempty (text : str) (line : str) (rest : list str) :
  Freedom.page_lines text = line :: rest -> is_nil text = false.
Proof. destruct text; [discriminate | reflexivity]. Qed.

(** C1, where the code departs from it: when the head-line pattern
    accepts a line and the date token is no date, the [ValueError] of
    [strptime] leaves the head decoder, the page parse and the entry
    point of the line-based format; no record list is returned. *)
Theorem head_date_error_escapes
        (line : str) (m : HeadMatch) (rest : list str) (text : str)
        (pages : list (option str)) :
  DATE_START_RE line = true ->
  TX_HEAD_RE line = Some m ->
  strptime_dmY (g_date m) = None ->
  Freedom.page_lines text = line :: rest ->
  freedom_head line = Raise ValueError
  /\ freedom_page (line :: rest) = Raise ValueError
  /\ parse_freedom_pdf (Some text :: pages) = Raise ValueError
  /\ parse_pdf (Some text :: pages) = Raise ValueError.
Proof.
  intros Hs Hm Hd Hl.
  assert (Hh : freedom_head line = Raise ValueError).
  { unfold Freedom._parse_head_line. now rewrite Hm, Hd. }
  assert (Hp : freedom_page (line :: rest) = Raise ValueError).
  { unfold Freedom._parse_page. cbn [Freedom.page_loop].
    now rewrite Hs, Hh. }
  repeat split; try assumption.
  - unfold Freedom.parse_freedom_pdf. cbn [Freedom.pages_loop].
    now rewrite (page_lines_nonempty _ _ _ Hl), Hl, Hp.
  - unfold Parser.parse_pdf. cbn [Parser.pages_loop].
    rewrite (page_lines_nonempty _ _ _ Hl), Hl.
    unfold Parser._parse_page. cbn [Parser.page_loop]. rewrite Hs.
    unfold Parser._parse_head. now rewrite Hm, Hd.
Qed.

Lemma freedom_loop_direction (lines : list str) :
  forall (st : Freedom.page_state) (txs : list Tx),
    Forall dir_ok (fst st) ->
    (forall c, snd st = Some c -> dir_ok c) ->
    freedom_loop lines st = Ok txs ->
    Forall dir_ok txs.
Proof.
  assert (Hflush : forall st : Freedom.page_state,
             Forall dir_ok (fst st) ->
             (forall c, snd st = Some c -> dir_ok c) ->
             Forall dir_ok
               (fst (Freedom.flush lower FOOTER_MARKERS NOISE_PATTERNS st))
             /\ snd (Freedom.flush lower FOOTER_MARKERS NOISE_PATTERNS st)
                = None).
  { intros [txs [c|]] H1 H2; unfold Freedom.flush; cbn [fst snd] in *.
    - split; [|reflexivity]. apply Forall_app. split; [assumption|].
      constructor; [|constructor]. exact (H2 c eq_refl).
    - now split. }
  induction lines as [|line rest IH]; intros st txs H1 H2 H;
    cbn [Freedom.page_loop] in H.
  - injection H as <-. now apply Hflush.
  - destruct (DATE_START_RE line).
    + destruct (Hflush st H1 H2) as [F1 F2].
      destruct (freedom_head line) as [[h|]|e] eqn:Eh; cbn [bind] in H;
        [| |discriminate].
      * apply IH in H; [assumption | assumption |].
        cbn [snd]. intros c Hc. injection Hc as <-.
        now apply freedom_head_direction in Eh.
      * apply IH in H; [assumption | assumption |].
        rewrite F2. discriminate.
    + destruct st as [done [c|]]; cbn [fst snd] in *.
      * apply IH in H; [assumption | assumption |].
        cbn [snd]. intros c' Hc. injection Hc as <-.
        exact (H2 c eq_refl).
      * apply IH in H; assumption.
Qed.

Lemma freedom_pages_direction (pages : list (option str)) :
  forall acc txs,
    Forall dir_ok acc -> freedom_pages pages acc = Ok txs ->
    Forall dir_ok txs.
Proof.
  induction pages as [|[text|] rest IH]; intros acc txs Ha H;
    cbn [Freedom.pages_loop] in H.
  - now injection H as <-.
  - destruct (is_nil text); [now apply IH in H|].
    destruct (freedom_page (Freedom.page_lines text)) as [p|e] eqn:Ep;
      cbn [bind] in H; [|discriminate].
    apply IH in H; [assumption|]. apply Forall_app. split; [assumption|].
    unfold Freedom._parse_page in Ep.
    apply freedom_loop_direction in Ep; [assumption | constructor |].
    discriminate.
  - now apply IH in H.
Qed.

(** The records of [parse_freedom_pdf] have the direction of their
    amount. *)
Lemma freedom_direction (pages : list (option str)) (txs : list Tx) :
  parse_freedom_pdf pages = Ok txs -> Forall dir_ok txs.
Proof.
  unfold Freedom.parse_freedom_pdf.
  destruct (freedom_pages pages []) as [acc|e] eqn:E; cbn [bind];
    [|discriminate].
  intros H. injection H as <-.
  apply freedom_pages_direction in E; [|constructor].
  induction E; cbn [map]; constructor; assumption.
Qed.

End Lines.

(** ** The tabular extractor *)

Section Table.

Variable lower : str -> str.
Variable capitalize : str -> str.
Variable strptime_dmy : str -> option Date.
Variable re_digit : char -> bool.
Variable FOOTER_MARKERS : list str.
Variable NOISE_PATTERNS : list (str -> str).

Local Abbreviation looks_like_header := (Kaspi._looks_like_header lower).
Local Abbreviation scan_header := (Kaspi.scan_header lower).
Local Abbreviation decode_row :=
  (Kaspi.decode_row lower capitalize strptime_dmy FOOTER_MARKERS
     NOISE_PATTERNS).
Local Abbreviation row_step :=
  (Kaspi.row_step lower capitalize strptime_dmy re_digit FOOTER_MARKERS
     NOISE_PATTERNS).
Local Abbreviation table_loop :=
  (Kaspi.table_loop lower capitalize strptime_dmy re_digit FOOTER_MARKERS
     NOISE_PATTERNS).
Local Abbreviation page_step :=
  (Kaspi.page_step lower capitalize strptime_dmy re_digit FOOTER_MARKERS
     NOISE_PATTERNS).
Local Abbreviation pages_loop :=
  (Kaspi.pages_loop lower capitalize strptime_dmy re_digit FOOTER_MARKERS
     NOISE_PATTERNS).
Local Abbreviation parse_kaspi_pdf :=
  (Kaspi.parse_kaspi_pdf lower capitalize strptime_dmy re_digit
     FOOTER_MARKERS NOISE_PATTERNS).
Local Abbreviation row_records :=
  (KaspiSpec.row_records lower capitalize strptime_dmy re_digit
     FOOTER_MARKERS NOISE_PATTERNS).
Local Abbreviation page_records :=
  (KaspiSpec.page_records lower capitalize strptime_dmy re_digit
     FOOTER_MARKERS NOISE_PATTERNS).
Local Abbreviation headerless := (KaspiSpec.headerless lower).
Local Abbreviation absent := (KaspiSpec.absent lower).

(** *** Header rows *)

Lemma absent_tail (ind cell : str) (row : list str) :
  absent ind (cell :: row) ->
  contains ind (lower cell) = false /\ absent ind row.
Proof.
  intros H. split.
  - apply H. now left.
  - intros x Hx. apply H. now right.
Qed.

Ltac scan_cases :=
  repeat match goal with
         | |- context [if ?b then _ else _] => destruct b
         end; try reflexivity; try discriminate.

Lemma scan_header_date (row : list str) :
  forall i c, absent (u "дата") row ->
              Kaspi.idx_date (scan_header i row c) = Kaspi.idx_date c.
Proof.
  induction row as [|cell rest IH]; intros i c H; cbn [Kaspi.scan_header].
  - reflexivity.
  - apply absent_tail in H as [H1 H2]. rewrite (IH _ _ H2), H1.
    scan_cases.
Qed.

Lemma scan_header_amount (row : list str) :
  forall i c, absent (u "сумм") row ->
              Kaspi.idx_amount (scan_header i row c) = Kaspi.idx_amount c.
Proof.
  induction row as [|cell rest IH]; intros i c H; cbn [Kaspi.scan_header].
  - reflexivity.
  - apply absent_tail in H as [H1 H2]. rewrite (IH _ _ H2), H1.
    scan_cases.
Qed.

Lemma scan_header_operation (row : list str) :
  forall i c, absent (u "операц") row ->
              Kaspi.idx_operation (scan_header i row c)
              = Kaspi.idx_operation c.
Proof.
  induction row as [|cell rest IH]; intros i c H; cbn [Kaspi.scan_header].
  - reflexivity.
  - apply absent_tail in H as [H1 H2]. rewrite (IH _ _ H2), H1.
    scan_cases.
Qed.

Lemma scan_header_details (row : list str) :
  forall i c, absent (u "детал") row ->
              Kaspi.idx_details (scan_header i row c) = Kaspi.idx_details c.
Proof.
  induction row as [|cell rest IH]; intros i c H; cbn [Kaspi.scan_header].
  - reflexivity.
  - apply absent_tail in H as [H1 H2]. rewrite (IH _ _ H2), H1.
    scan_cases.
Qed.

(** An indicator is absent from the row, or some cell contains it. *)
Lemma absent_or_present (ind : str) (row : list str) :
  absent ind row
  \/ exists cell, In cell row /\ contains ind (lower cell) = true.
Proof.
  induction row as [|cell rest [IH|(x & Hx & Hc)]].
  - left. intros x [].
  - destruct (contains ind (lower cell)) eqn:E.
    + right. exists cell. split; [now left | assumption].
    + left. intros x [<-|Hx]; [assumption | now apply IH].
  - right. exists x. split; [now right | assumption].
Qed.

(** C10: at a header row the extractor emits nothing, an index whose
    indicator occurs in no cell of the row keeps its value, the index of
    the details column included, and an index that changes has its
    indicator in some cell of the row. *)
Theorem header_retains_absent_indices
        (c : Kaspi.Cols) (txs : list Tx) (raw : list (option str)) :
  looks_like_header (Kaspi.normalize_row raw) = true ->
  let row := Kaspi.normalize_row raw in
  let c' := fst (row_step (c, txs) raw) in
  snd (row_step (c, txs) raw) = txs
  /\ (absent (u "дата") row -> Kaspi.idx_date c' = Kaspi.idx_date c)
  /\ (absent (u "сумм") row -> Kaspi.idx_amount c' = Kaspi.idx_amount c)
  /\ (absent (u "операц") row ->
      Kaspi.idx_operation c' = Kaspi.idx_operation c)
  /\ (absent (u "детал") row ->
      Kaspi.idx_details c' = Kaspi.idx_details c)
  /\ (Kaspi.idx_date c' <> Kaspi.idx_date c ->
      exists cell, In cell row /\ contains (u "дата") (lower cell) = true)
  /\ (Kaspi.idx_amount c' <> Kaspi.idx_amount c ->
      exists cell, In cell row /\ contains (u "сумм") (lower cell) = true)
  /\ (Kaspi.idx_operation c' <> Kaspi.idx_operation c ->
      exists cell, In cell row /\ contains (u "операц") (lower cell) = true)
  /\ (Kaspi.idx_details c' <> Kaspi.idx_details c ->
      exists cell, In cell row /\ contains (u "детал") (lower cell) = true).
Proof.
  intros Hh row c'. subst c'. unfold Kaspi.row_step. cbn [fst snd].
  rewrite Hh. cbn [fst snd]. fold row.
  split; [reflexivity|].
  split; [apply scan_header_date|].
  split; [apply scan_header_amount|].
  split; [apply scan_header_operation|].
  split; [apply scan_header_details|].
  split; [|split; [|split]]; intros Hne.
  - destruct (absent_or_present (u "дата") row) as [A|P]; [|assumption].
    exfalso. apply Hne. now apply scan_header_date.
  - destruct (absent_or_present (u "сумм") row) as [A|P]; [|assumption].
    exfalso. apply Hne. now apply scan_header_amount.
  - destruct (absent_or_present (u "операц") row) as [A|P]; [|assumption].
    exfalso. apply Hne. now apply scan_header_operation.
  - destruct (absent_or_present (u "детал") row) as [A|P]; [|assumption].
    exfalso. apply Hne. now apply scan_header_details.
Qed.

(** *** Rows that are no header *)

Lemma row_step_data (c : Kaspi.Cols) (txs : list Tx)
      (raw : list (option str)) :
  looks_like_header (Kaspi.normalize_row raw) = false ->
  row_step (c, txs) raw = (c, txs ++ row_records c raw).
Proof.
  intros Hh. unfold KaspiSpec.row_records, Kaspi.row_step. cbn [fst snd].
  rewrite Hh.
  destruct (Kaspi.idx_date c) as [i_date|];
    [|now rewrite app_nil_r].
  destruct (Kaspi.idx_amount c) as [i_amount|];
    [|now rewrite app_nil_r].
  destruct (Kaspi.idx_operation c) as [i_operation|];
    [|now rewrite app_nil_r].
  destruct (negb _); [now rewrite app_nil_r|].
  destruct (decode_row _ _ _ _ _) as [[tx|]|e]; cbn [snd];
    now rewrite ?app_nil_r.
Qed.

Lemma row_records_unknown (c : Kaspi.Cols) (raw : list (option str)) :
  KaspiSpec.unknown c ->
  looks_like_header (Kaspi.normalize_row raw) = false ->
  row_records c raw = [].
Proof.
  intros U Hh. unfold KaspiSpec.row_records, Kaspi.row_step. cbn [fst snd].
  rewrite Hh.
  destruct U as [U|[U|U]]; rewrite U;
    repeat match goal with
           | |- context [match ?o with Some _ => _ | None => _ end] =>
               destruct o
           end; reflexivity.
Qed.

(** A row that is no header and begins with a date is decoded with the
    indices at hand. *)
Lemma row_records_decode (c : Kaspi.Cols) (raw : list (option str))
      (i_date i_amount i_operation : nat) :
  Kaspi.idx_date c = Some i_date ->
  Kaspi.idx_amount c = Some i_amount ->
  Kaspi.idx_operation c = Some i_operation ->
  looks_like_header (Kaspi.normalize_row raw) = false ->
  Kaspi._looks_like_transaction_row re_digit (Kaspi.normalize_row raw) = true ->
  row_records c raw =
    match decode_row i_date i_amount i_operation (Kaspi.idx_details c)
                     (Kaspi.normalize_row raw) with
    | Ok (Some tx) => [tx]
    | _ => []
    end.
Proof.
  intros Hd Ha Ho Hh Ht. unfold KaspiSpec.row_records, Kaspi.row_step.
  cbn [fst snd]. rewrite Hh, Hd, Ha, Ho, Ht. cbn [negb].
  now destruct (decode_row _ _ _ _ _) as [[tx|]|e].
Qed.

Lemma table_loop_headerless (table : list (list (option str))) :
  forall c txs,
    KaspiSpec.headerless_table lower table ->
    table_loop table (c, txs) = (c, txs ++ flat_map (row_records c) table).
Proof.
  unfold Kaspi.table_loop.
  induction table as [|raw rest IH]; intros c txs H; cbn [fold_left flat_map].
  - now rewrite app_nil_r.
  - inversion H as [|x l Hraw Hrest]; subst.
    rewrite (row_step_data _ _ _ Hraw), (IH _ _ Hrest).
    now rewrite app_assoc.
Qed.

Lemma page_step_headerless (page : option (list (list (option str)))) :
  forall c txs,
    headerless page ->
    page_step (c, txs) page = (c, txs ++ page_records c page).
Proof.
  intros c txs H. destruct page as [table|]; cbn.
  - destruct table as [|raw rest]; cbn [is_nil].
    + now rewrite app_nil_r.
    + now apply table_loop_headerless.
  - now rewrite app_nil_r.
Qed.

Lemma pages_loop_headerless
      (pages : list (option (list (list (option str))))) :
  forall c txs,
    Forall headerless pages ->
    pages_loop pages (c, txs)
    = (c, txs ++ flat_map (page_records c) pages).
Proof.
  unfold Kaspi.pages_loop.
  induction pages as [|page rest IH]; intros c txs H;
    cbn [fold_left flat_map].
  - now rewrite app_nil_r.
  - inversion H as [|x l Hp Hrest]; subst.
    rewrite (page_step_headerless _ _ _ Hp), (IH _ _ Hrest).
    now rewrite app_assoc.
Qed.

Lemma page_records_unknown
      (c : Kaspi.Cols) (pages : list (option (list (list (option str))))) :
  KaspiSpec.unknown c ->
  Forall headerless pages ->
  flat_map (page_records c) pages = [].
Proof.
  intros U H. induction H as [|page rest Hp _ IH]; cbn [flat_map].
  - reflexivity.
  - rewrite IH, app_nil_r. destruct page as [table|]; [|reflexivity].
    cbn in *. induction Hp as [|raw t Hraw _ IHt]; cbn [flat_map].
    + reflexivity.
    + now rewrite IHt, (row_records_unknown _ _ U Hraw).
Qed.


(** C8: when the decoding of a row raises an exception, the row changes
    neither the indices nor the records, and the table and the document
    are processed as if the row were not there. *)
Theorem row_exception_skipped
        (st : Kaspi.doc_state) (pre post : list (list (option str)))
        (raw : list (option str))
        (pages : list (option (list (list (option str)))))
        (i_date i_amount i_operation : nat) (e : exn) :
  let st1 := table_loop pre st in
  Kaspi.idx_date (fst st1) = Some i_date ->
  Kaspi.idx_amount (fst st1) = Some i_amount ->
  Kaspi.idx_operation (fst st1) = Some i_operation ->
  looks_like_header (Kaspi.normalize_row raw) = false ->
  decode_row i_date i_amount i_operation (Kaspi.idx_details (fst st1))
             (Kaspi.normalize_row raw) = Raise e ->
  row_step st1 raw = st1
  /\ table_loop (pre ++ raw :: post) st = table_loop (pre ++ post) st
  /\ pages_loop (Some (pre ++ raw :: post) :: pages) st
     = pages_loop (Some (pre ++ post) :: pages) st.
Proof.
  intros st1 Hd Ha Ho Hh He.
  assert (Hrow : row_step st1 raw = st1).
  { unfold Kaspi.row_step. rewrite Hh, Hd, Ha, Ho, He.
    now destruct (negb _). }
  assert (Htab : table_loop (pre ++ raw :: post) st
                 = table_loop (pre ++ post) st).
  { unfold Kaspi.table_loop. rewrite !fold_left_app. cbn [fold_left].
    fold (table_loop pre st). fold st1. now rewrite Hrow. }
  split; [assumption|]. split; [assumption|].
  unfold Kaspi.pages_loop. cbn [fold_left]. f_equal.
  unfold Kaspi.page_step.
  replace (is_nil (pre ++ raw :: post)) with false
    by (now destruct pre).
  rewrite Htab. destruct (pre ++ post); reflexivity.
Qed.

(** *** The records of a row *)

Lemma decode_row_inv (i_date i_amount i_operation : nat)
      (i_details : option nat) (row : list str) (r : Tx) :
  decode_row i_date i_amount i_operation i_details row = Ok (Some r) ->
  exists cell, nth_error row i_operation = Some cell
               /\ operation r = capitalize cell
               /\ dir_ok r.
Proof.
  unfold Kaspi.decode_row, Kaspi.index.
  destruct (nth_error row i_date) as [dc|]; cbn [bind]; [|discriminate].
  destruct (Kaspi._parse_date strptime_dmy dc) as [dt|]; [|discriminate].
  destruct (nth_error row i_amount) as [ac|]; cbn [bind]; [|discriminate].
  destruct (Kaspi._parse_amount ac) as [a|]; cbn [bind]; [|discriminate].
  destruct (nth_error row i_operation) as [oc|]; cbn [bind];
    [|discriminate].
  destruct i_details as [i|].
  - destruct (nth_error row i) as [d|]; cbn [bind]; [|discriminate].
    intros H. injection H as <-. exists oc. now repeat split.
  - cbn [bind]. intros H. injection H as <-. exists oc. now repeat split.
Qed.

Lemma row_step_direction (st : Kaspi.doc_state) (raw : list (option str)) :
  Forall dir_ok (snd st) -> Forall dir_ok (snd (row_step st raw)).
Proof.
  intros H. unfold Kaspi.row_step.
  destruct (looks_like_header _); [assumption|].
  destruct (Kaspi.idx_date (fst st)); [|assumption].
  destruct (Kaspi.idx_amount (fst st)); [|assumption].
  destruct (Kaspi.idx_operation (fst st)); [|assumption].
  destruct (negb _); [assumption|].
  destruct (decode_row _ _ _ _ _) as [[tx|]|e] eqn:E; try assumption.
  cbn [snd]. apply Forall_app. split; [assumption|].
  constructor; [|constructor].
  now apply decode_row_inv in E as (cell & _ & _ & D).
Qed.

(** The records of [parse_kaspi_pdf] have the direction of their
    amount. *)
Lemma kaspi_direction (pages : list (option (list (list (option str))))) :
  Forall dir_ok (parse_kaspi_pdf pages).
Proof.
  unfold Kaspi.parse_kaspi_pdf, Kaspi.pages_loop.
  assert (G : forall st, Forall dir_ok (snd st) ->
                         Forall dir_ok (snd (fold_left page_step pages st))).
  { induction pages as [|page rest IH]; intros st H; cbn [fold_left].
    - assumption.
    - apply IH. destruct page as [table|]; cbn; [|assumption].
      destruct (is_nil table); [assumption|].
      unfold Kaspi.table_loop. clear IH. revert st H.
      induction table as [|raw t IHt]; intros st H; cbn [fold_left].
      + assumption.
      + apply IHt. now apply row_step_direction. }
  apply G. constructor.
Qed.

End Table.

(** ** Operation labels *)

(** C9: the head decoders of the line-based format emit the capitalized
    token when it is in the vocabulary and the default label when it is
    not; the tabular extractor emits the capitalized cell as it is. *)
Theorem operation_coercion
        (lower capitalize : str -> str)
        (strptime_dmY strptime_dmy : str -> option Date)
        (TX_HEAD_RE : str -> option HeadMatch)
        (KNOWN_OPERATIONS FOOTER_MARKERS : list str)
        (NOISE_PATTERNS : list (str -> str)) :
  (forall line m r,
      TX_HEAD_RE line = Some m ->
      Freedom._parse_head_line capitalize strptime_dmY TX_HEAD_RE
        KNOWN_OPERATIONS line = Ok (Some r)
      \/ Parser._parse_head capitalize strptime_dmY TX_HEAD_RE
           KNOWN_OPERATIONS line = Ok (Some r) ->
      (In (capitalize (g_operation m)) KNOWN_OPERATIONS ->
       operation r = capitalize (g_operation m))
      /\ (~ In (capitalize (g_operation m)) KNOWN_OPERATIONS ->
          operation r = u "Покупка"))
  /\ (forall i_date i_amount i_operation i_details row r,
         Kaspi.decode_row lower capitalize strptime_dmy FOOTER_MARKERS
           NOISE_PATTERNS i_date i_amount i_operation i_details row
         = Ok (Some r) ->
         exists cell, nth_error row i_operation = Some cell
                      /\ operation r = capitalize cell).
Proof.
  split.
  - intros line m r Hm H.
    rewrite (head_operation _ _ _ _ _ _ _ Hm H).
    split; intros Hin.
    + apply str_in_In in Hin. now rewrite Hin.
    + apply str_in_not_In in Hin. now rewrite Hin.
  - intros i_date i_amount i_operation i_details row r H.
    apply decode_row_inv in H as (cell & H1 & H2 & _). eauto.
Qed.

(** ** Footer stripping *)

Lemma find_occurs (sub s : str) :
  forall i, find sub s = Some i ->
            occurs_at sub s i /\ forall j, j < i -> ~ occurs_at sub s j.
Proof.
  unfold occurs_at.
  induction s as [|c s IH]; intros i; cbn [find].
  - destruct (startswith sub []) eqn:E; [|discriminate].
    intros H. injection H as <-. split; [now split | lia].
  - destruct (startswith sub (c :: s)) eqn:E.
    + intros H. injection H as <-. split; [split; [cbn; lia | exact E] | lia].
    + destruct (find sub s) as [k|]; [|discriminate]. cbn [option_map].
      intros H. injection H as <-. destruct (IH k eq_refl) as [[L O] M].
      split; [split; [cbn; lia | exact O]|].
      intros [|j] Hj [Lj Oj].
      * cbn [skipn] in Oj. congruence.
      * apply (M j); [lia|]. split; [cbn in Lj; lia | exact Oj].
Qed.

Lemma find_none (sub s : str) :
  find sub s = None -> forall j, ~ occurs_at sub s j.
Proof.
  unfold occurs_at.
  induction s as [|c s IH]; cbn [find].
  - destruct (startswith sub []) eqn:E; [discriminate|].
    intros _ [|j] [L O]; [cbn in O; congruence | cbn in L; lia].
  - destruct (startswith sub (c :: s)) eqn:E; [discriminate|].
    destruct (find sub s) as [k|]; [discriminate|].
    intros _ [|j] [L O].
    + cbn [skipn] in O. congruence.
    + apply (IH eq_refl j). split; [cbn in L; lia | exact O].
Qed.

Lemma find_absent (sub s : str) :
  (forall j, ~ occurs_at sub s j) -> find sub s = None.
Proof.
  intros H. destruct (find sub s) as [i|] eqn:E; [|reflexivity].
  apply find_occurs in E as [O _]. now apply H in O.
Qed.

Lemma find_first (sub s : str) (i : nat) :
  occurs_at sub s i -> (forall j, j < i -> ~ occurs_at sub s j) ->
  find sub s = Some i.
Proof.
  intros O M. destruct (find sub s) as [k|] eqn:E.
  - apply find_occurs in E as [Ok Mk].
    destruct (Nat.lt_trichotomy k i) as [L|[->|L]].
    + now apply M in Ok.
    + reflexivity.
    + now apply Mk in O.
  - now apply (find_none _ _ E) in O.
Qed.

Section Cleaning.

Variable lower : str -> str.
Variable FOOTER_MARKERS : list str.
Variable NOISE_PATTERNS : list (str -> str).

Local Abbreviation strip_footer := (Cleaner.strip_footer lower FOOTER_MARKERS).
Local Abbreviation remove_noise := (Cleaner.remove_noise NOISE_PATTERNS).
Local Abbreviation clean_description :=
  (Cleaner.clean_description lower FOOTER_MARKERS NOISE_PATTERNS).

Lemma strip_footer_loop_skip (pre rest : list str) (low text : str) :
  (forall m, In m pre -> find m low = None) ->
  Cleaner.strip_footer_loop (pre ++ rest) low text
  = Cleaner.strip_footer_loop rest low text.
Proof.
  induction pre as [|m pre IH]; intros H; cbn [app Cleaner.strip_footer_loop].
  - reflexivity.
  - rewrite (H m (or_introl eq_refl)). apply IH.
    intros m' Hm'. apply H. now right.
Qed.

(** C4, as the code has it: [strip_footer] returns the text unchanged
    when no marker occurs in the lowered text; otherwise it cuts the
    text at the first occurrence of the first marker, in the order of
    the configured list, that occurs in the lowered text. *)
Theorem strip_footer_first_listed (text : str) :
  ((forall m j, In m FOOTER_MARKERS -> ~ occurs_at m (lower text) j) ->
   strip_footer text = text)
  /\ (forall pre m post i,
         FOOTER_MARKERS = pre ++ m :: post ->
         (forall m' j, In m' pre -> ~ occurs_at m' (lower text) j) ->
         occurs_at m (lower text) i ->
         (forall j, j < i -> ~ occurs_at m (lower text) j) ->
         strip_footer text = slice_to i text).
Proof.
  unfold Cleaner.strip_footer. split.
  - intros H.
    rewrite <- (app_nil_r FOOTER_MARKERS), strip_footer_loop_skip;
      [reflexivity|].
    intros m Hm. apply find_absent. intros j. now apply H.
  - intros pre m post i -> Hpre O M.
    rewrite strip_footer_loop_skip.
    + cbn [Cleaner.strip_footer_loop]. now rewrite (find_first _ _ _ O M).
    + intros m' Hm'. apply find_absent. intros j. now apply Hpre.
Qed.

(** *** White space *)

Lemma lstrip_head_ok (s : str) : head_ok (lstrip s) = true.
Proof.
  induction s as [|c t IH]; cbn [lstrip]; [reflexivity|].
  destruct (is_space c) eqn:E; [assumption|]. cbn. now rewrite E.
Qed.

Lemma lstrip_fixed (s : str) : head_ok s = true -> lstrip s = s.
Proof.
  destruct s as [|c t]; cbn; [reflexivity|].
  now destruct (is_space c).
Qed.

Lemma lstrip_snoc (s : str) (a : char) :
  is_space a = false -> lstrip (s ++ [a]) = lstrip s ++ [a].
Proof.
  intros H. induction s as [|c t IH]; cbn [app lstrip].
  - now rewrite H.
  - now destruct (is_space c).
Qed.

Lemma rstrip_head_ok (s : str) :
  head_ok s = true -> head_ok (rstrip s) = true.
Proof.
  destruct s as [|c t]; [reflexivity|]. cbn [head_ok]. intros H.
  unfold rstrip. cbn [rev]. rewrite lstrip_snoc.
  - rewrite rev_app_distr. cbn. exact H.
  - now destruct (is_space c).
Qed.

Lemma rstrip_fixed (s : str) : head_ok (rev s) = true -> rstrip s = s.
Proof.
  intros H. unfold rstrip. rewrite (lstrip_fixed _ H). apply rev_involutive.
Qed.

Lemma strip_idempotent (s : str) : strip (strip s) = strip s.
Proof.
  unfold strip. rewrite (lstrip_fixed (rstrip (lstrip s))).
  - apply rstrip_fixed. unfold rstrip. rewrite rev_involutive.
    apply lstrip_head_ok.
  - apply rstrip_head_ok, lstrip_head_ok.
Qed.

Lemma lstrip_suffix (s : str) : exists w, s = w ++ lstrip s.
Proof.
  induction s as [|c t [w IH]]; cbn [lstrip].
  - now exists [].
  - destruct (is_space c).
    + exists (c :: w). cbn. now f_equal.
    + now exists [].
Qed.

Lemma rstrip_prefix (s : str) : exists w, s = rstrip s ++ w.
Proof.
  destruct (lstrip_suffix (rev s)) as [w H]. exists (rev w).
  unfold rstrip. rewrite <- rev_app_distr, <- H. now rewrite rev_involutive.
Qed.

Lemma tidy_app_l (a b : str) : tidy (a ++ b) -> tidy a.
Proof.
  induction a as [|c a IH]; cbn [app tidy]; [trivial|].
  intros [H1 H2]. split; [|now apply IH].
  intros Hs. destruct (H1 Hs) as [-> Hh]. split; [reflexivity|].
  destruct a; [reflexivity | exact Hh].
Qed.

Lemma tidy_lstrip (s : str) : tidy s -> tidy (lstrip s).
Proof.
  induction s as [|c t IH]; cbn [lstrip]; [trivial|].
  intros H. destruct (is_space c); [|exact H].
  apply IH. now destruct H.
Qed.

Lemma tidy_strip (s : str) : tidy s -> tidy (strip s).
Proof.
  intros H. unfold strip.
  destruct (rstrip_prefix (lstrip s)) as [w E].
  apply tidy_app_l with w. rewrite <- E. now apply tidy_lstrip.
Qed.

Lemma collapse_ws_cons (c : char) (t : str) :
  collapse_ws (c :: t) =
    if is_space c then
      match t with
      | [] => [c_space]
      | c' :: _ => if is_space c' then collapse_ws t
                   else c_space :: collapse_ws t
      end
    else c :: collapse_ws t.
Proof. reflexivity. Qed.

Lemma tidy_collapse (s : str) : tidy (collapse_ws s).
Proof.
  induction s as [|c t IH]; [exact I|].
  rewrite collapse_ws_cons. destruct (is_space c) eqn:E.
  - destruct t as [|c' t'].
    + cbn. now repeat split.
    + destruct (is_space c') eqn:E'; [exact IH|].
      cbn [tidy]. split; [|exact IH].
      intros _. split; [reflexivity|].
      rewrite collapse_ws_cons, E'. cbn. now rewrite E'.
  - cbn [tidy]. split; [|exact IH]. intros H. congruence.
Qed.

Lemma collapse_tidy (s : str) : tidy s -> collapse_ws s = s.
Proof.
  induction s as [|c t IH]; [reflexivity|].
  cbn [tidy]. intros [H1 H2]. rewrite collapse_ws_cons.
  destruct (is_space c) eqn:E.
  - destruct (H1 eq_refl) as [-> Hh].
    destruct t as [|c' t']; [reflexivity|].
    cbn [head_ok] in Hh. destruct (is_space c'); [discriminate|].
    f_equal. now apply IH.
  - f_equal. now apply IH.
Qed.

(** Collapsing and trimming white space twice is the same as once. *)
Lemma normalize_idempotent (s : str) :
  strip (collapse_ws (strip (collapse_ws s))) = strip (collapse_ws s).
Proof.
  rewrite (collapse_tidy (strip (collapse_ws s))).
  - apply strip_idempotent.
  - apply tidy_strip, tidy_collapse.
Qed.

(** C6, as the code has it: cleaning a cleaned description changes
    nothing when the cleaned description contains no footer marker and
    no noise pattern removes anything from it. *)
Theorem clean_description_idempotent_when_settled (s : str) :
  strip_footer (clean_description s) = clean_description s ->
  remove_noise (clean_description s) = clean_description s ->
  clean_description (clean_description s) = clean_description s.
Proof.
  intros Hf Hn.
  unfold Cleaner.clean_description at 1. cbv zeta.
  rewrite Hf, Hn. unfold Cleaner.clean_description. cbv zeta.
  apply normalize_idempotent.
Qed.

End Cleaning.

(** Without markers and patterns cleaning is idempotent. *)
Lemma clean_description_idempotent_plain (lower : str -> str) (s : str) :
  Cleaner.clean_description lower [] []
    (Cleaner.clean_description lower [] [] s)
  = Cleaner.clean_description lower [] [] s.
Proof. apply normalize_idempotent. Qed.

(** * The properties on concrete statements *)

Lemma head_date_error_escapes_witness :
  Sample.DATE_START_RE Sample.bad_date_line = true
  /\ (exists m, Sample.TX_HEAD_RE Sample.bad_date_line = Some m
                /\ g_date m = u "31.13.2025"
                /\ Sample.strptime_dmY (g_date m) = None)
  /\ Sample.freedom_head Sample.bad_date_line = Raise ValueError
  /\ Sample.parse_freedom_pdf [Some Sample.bad_date_line] = Raise ValueError
  /\ Sample.parse_pdf [Some Sample.bad_date_line] = Raise ValueError.
Proof.
  pose (m := mkHeadMatch (u "31.13.2025") (u "-500,00") (u "KZT")
                         (u "Перевод") (Some (u "Оплата"))).
  assert (Hs : Sample.DATE_START_RE Sample.bad_date_line = true)
    by (vm_compute; reflexivity).
  assert (Hm : Sample.TX_HEAD_RE Sample.bad_date_line = Some m)
    by (vm_compute; reflexivity).
  assert (Hd : Sample.strptime_dmY (g_date m) = None)
    by (vm_compute; reflexivity).
  assert (Hl : Freedom.page_lines Sample.bad_date_line
               = Sample.bad_date_line :: [])
    by (vm_compute; reflexivity).
  destruct (head_date_error_escapes
              Sample.lower Sample.capitalize Sample.strptime_dmY
              Sample.FOOTER_MARKERS Sample.NOISE_PATTERNS
              Sample.DATE_START_RE Sample.TX_HEAD_RE Sample.KNOWN_OPERATIONS
              Sample.bad_date_line m [] Sample.bad_date_line []
              Hs Hm Hd Hl) as (H1 & _ & H3 & H4).
  split; [exact Hs|].
  split; [exists m; split; [exact Hm | split; [reflexivity | exact Hd]]|].
  split; [exact H1|]. split; [exact H3 | exact H4].
Defined.

Lemma parser_head_direction_constant_witness :
  exists r, Sample.parser_head Sample.income_line = Ok (Some r)
            /\ amount r = mkDecimal false 100000 (-2)
            /\ dec_lt0 (amount r) = false
            /\ direction r = expense
            /\ direction_of (amount r) = income.
Proof.
  eexists. split; [vm_compute; reflexivity|].
  split; [reflexivity|]. split; [reflexivity|]. split; [|reflexivity].
  refine (proj1 (parser_head_direction_constant
                   Sample.capitalize Sample.strptime_dmY Sample.TX_HEAD_RE
                   Sample.KNOWN_OPERATIONS Sample.income_line _ _ _));
    vm_compute; reflexivity.
Defined.

Lemma head_amount_sign_forced_witness :
  exists m r,
    Sample.TX_HEAD_RE Sample.expense_line = Some m
    /\ Sample.freedom_head Sample.expense_line = Ok (Some r)
    /\ g_amount m = u "-500,00"
    /\ Freedom._to_decimal (g_amount m) = Ok (mkDecimal true 50000 (-2))
    /\ fits_context (mkDecimal true 50000 (-2))
    /\ amount r = exact_neg (exact_abs (mkDecimal true 50000 (-2)))
    /\ amount r = mkDecimal true 50000 (-2).
Proof.
  assert (F : fits_context (mkDecimal true 50000 (-2))).
  { repeat split; vm_compute; discriminate. }
  eexists. eexists.
  split; [vm_compute; reflexivity|].
  split; [vm_compute; reflexivity|].
  split; [reflexivity|]. split; [reflexivity|]. split; [exact F|].
  split; [|reflexivity].
  match goal with
  | |- amount ?r = _ =>
      destruct (proj1 (head_amount_sign_forced
                         Sample.capitalize Sample.strptime_dmY
                         Sample.TX_HEAD_RE Sample.KNOWN_OPERATIONS
                         Sample.expense_line
                         (mkHeadMatch (u "17.12.2025") (u "-500,00")
                            (u "KZT") (u "Перевод")
                            (Some (u "Безвозмездный перевод")))
                         ltac:(vm_compute; reflexivity)) r)
        as (d & Hd & Hneg & _); [vm_compute; reflexivity|]
  end.
  destruct Hneg as (_ & _ & Hex).
  - exists (u "500,00"). left. reflexivity.
  - vm_compute in Hd. injection Hd as <-. exact (Hex F).
Defined.

(** C5, as the claim has it, fails: an amount of 32 digits is rounded by
    [abs] to the 28 digits of the decimal context, so the amount of the
    record is another number than the absolute value of the normalized
    amount. *)
Lemma head_amount_rounded :
  exists r d,
    Sample.freedom_head
      (u "17.12.2025 123456789012345678901234567890,12 KZT Покупка Товар")
    = Ok (Some r)
    /\ Freedom._to_decimal (u "123456789012345678901234567890,12") = Ok d
    /\ d = mkDecimal false 12345678901234567890123456789012 (-2)
    /\ amount r = mkDecimal false 1234567890123456789012345679 2
    /\ amount r <> exact_abs d
    /\ ~ same_number (amount r) (exact_abs d).
Proof.
  eexists. eexists.
  split; [vm_compute; reflexivity|].
  split; [vm_compute; reflexivity|].
  split; [reflexivity|]. split; [reflexivity|].
  split; [discriminate|].
  intros H. vm_compute in H. discriminate H.
Qed.

(** With a head pattern that gives the amount token "+-500,00", which
    does not begin with a hyphen, the decoder of [parser.py] emits a
    negative amount. *)
Example parser_head_keeps_negative :
  exists r,
    Parser._parse_head Sample.capitalize Sample.strptime_dmY
      (fun _ => Some (mkHeadMatch (u "17.12.2025") (u "+-500,00") (u "KZT")
                        (u "Покупка") None))
      Sample.KNOWN_OPERATIONS (u "17.12.2025 +-500,00 KZT Покупка")
    = Ok (Some r)
    /\ Freedom.negated (u "+-500,00") = false
    /\ amount r = mkDecimal true 50000 (-2).
Proof.
  eexists. split; [vm_compute; reflexivity|]. split; reflexivity.
Qed.

Lemma strip_footer_first_listed_witness :
  Sample.FOOTER_MARKERS = [] ++ u "итого" :: [u "страница"]
  /\ occurs_at (u "итого")
       (Sample.lower (u "Оплата страница 1 итого 500")) 18
  /\ Sample.strip_footer (u "Оплата страница 1 итого 500")
     = slice_to 18 (u "Оплата страница 1 итого 500")
  /\ Sample.strip_footer (u "Оплата за интернет") = u "Оплата за интернет".
Proof.
  assert (O : occurs_at (u "итого")
                (Sample.lower (u "Оплата страница 1 итого 500")) 18).
  { split; [vm_compute; lia | vm_compute; reflexivity]. }
  split; [reflexivity|]. split; [exact O|]. split.
  - apply (proj2 (strip_footer_first_listed Sample.lower
                    Sample.FOOTER_MARKERS (u "Оплата страница 1 итого 500"))
             [] (u "итого") [u "страница"] 18).
    + reflexivity.
    + intros m' j [].
    + exact O.
    + intros j Hj [_ Oj].
      do 18 (destruct j as [|j]; [vm_compute in Oj; discriminate Oj|]). lia.
  - apply (proj1 (strip_footer_first_listed Sample.lower
                    Sample.FOOTER_MARKERS (u "Оплата за интернет"))).
    intros m j [<-|[<-|[]]] [L Oj]; vm_compute in L;
      do 19 (destruct j as [|j]; [vm_compute in Oj; discriminate Oj|]); lia.
Defined.

(** C4, as the claim has it, fails: with the markers "итого" and
    "страница", in this order, the marker "страница" occurs at index 7 of
    the text below, before the marker "итого" at index 18, and
    [strip_footer] cuts at index 18. *)
Lemma strip_footer_not_earliest :
  occurs_at (u "страница")
    (Sample.lower (u "Оплата страница 1 итого 500")) 7
  /\ Cleaner.strip_footer_earliest Sample.lower Sample.FOOTER_MARKERS
       (u "Оплата страница 1 итого 500") = u "Оплата "
  /\ Sample.strip_footer (u "Оплата страница 1 итого 500")
     = u "Оплата страница 1 "
  /\ Sample.strip_footer (u "Оплата страница 1 итого 500")
     <> Cleaner.strip_footer_earliest Sample.lower Sample.FOOTER_MARKERS
          (u "Оплата страница 1 итого 500").
Proof.
  split; [split; [vm_compute; lia | vm_compute; reflexivity]|].
  split; [vm_compute; reflexivity|].
  split; [vm_compute; reflexivity|].
  vm_compute. discriminate.
Qed.

Lemma clean_description_idempotent_when_settled_witness :
  Sample.strip_footer (Sample.clean_description (u "  Оплата   за интернет "))
  = Sample.clean_description (u "  Оплата   за интернет ")
  /\ Cleaner.remove_noise Sample.NOISE_PATTERNS
       (Sample.clean_description (u "  Оплата   за интернет "))
     = Sample.clean_description (u "  Оплата   за интернет ")
  /\ Sample.clean_description
       (Sample.clean_description (u "  Оплата   за интернет "))
     = Sample.clean_description (u "  Оплата   за интернет ")
  /\ Sample.clean_description (u "  Оплата   за интернет ")
     = u "Оплата за интернет".
Proof.
  split; [vm_compute; reflexivity|]. split; [vm_compute; reflexivity|].
  split; [|vm_compute; reflexivity].
  apply (clean_description_idempotent_when_settled
           Sample.lower Sample.FOOTER_MARKERS Sample.NOISE_PATTERNS
           (u "  Оплата   за интернет ")); vm_compute; reflexivity.
Defined.

(** C6, as the claim has it, fails: with the noise pattern
    "оплата услуг", two spaces keep the pattern from matching in the first
    cleaning; the cleaning makes them one space, and the second cleaning
    removes the phrase. *)
Lemma clean_description_not_idempotent :
  Sample.clean_description (u "Кафе оплата  услуг") = u "Кафе оплата услуг"
  /\ Sample.clean_description (Sample.clean_description (u "Кафе оплата  услуг"))
     = u "Кафе"
  /\ Sample.clean_description (Sample.clean_description (u "Кафе оплата  услуг"))
     <> Sample.clean_description (u "Кафе оплата  услуг").
Proof.
  split; [vm_compute; reflexivity|]. split; [vm_compute; reflexivity|].
  vm_compute. discriminate.
Qed.


Lemma row_exception_skipped_witness :
  Kaspi.decode_row Sample.lower Sample.capitalize Sample.strptime_dmy
    Sample.FOOTER_MARKERS Sample.NOISE_PATTERNS 0 1 2 (Some 3)
    (Kaspi.normalize_row Sample.kaspi_row_short) = Raise IndexError
  /\ Sample.kaspi_pages_loop
       [Some ([Sample.kaspi_header]
                ++ Sample.kaspi_row_short :: [Sample.kaspi_row1]);
        Some [Sample.kaspi_row2]] (Kaspi.no_cols, [])
     = Sample.kaspi_pages_loop
         [Some ([Sample.kaspi_header] ++ [Sample.kaspi_row1]);
          Some [Sample.kaspi_row2]] (Kaspi.no_cols, [])
  /\ map date
       (Sample.parse_kaspi_pdf
          [Some [Sample.kaspi_header; Sample.kaspi_row_short;
                 Sample.kaspi_row1];
           Some [Sample.kaspi_row2]])
     = [mkDate 2025 12 17; mkDate 2025 12 18].
Proof.
  split; [vm_compute; reflexivity|]. split; [|vm_compute; reflexivity].
  apply (row_exception_skipped
           Sample.lower Sample.capitalize Sample.strptime_dmy Sample.re_digit
           Sample.FOOTER_MARKERS Sample.NOISE_PATTERNS
           (Kaspi.no_cols, []) [Sample.kaspi_header] [Sample.kaspi_row1]
           Sample.kaspi_row_short [Some [Sample.kaspi_row2]]
           0 1 2 IndexError); vm_compute; reflexivity.
Defined.

Lemma operation_coercion_witness :
  ~ In (Sample.capitalize (u "Доход")) Sample.KNOWN_OPERATIONS
  /\ (exists r, Sample.freedom_head Sample.income_line = Ok (Some r)
                /\ operation r = u "Покупка")
  /\ In (Sample.capitalize (u "Перевод")) Sample.KNOWN_OPERATIONS
  /\ (exists r, Sample.freedom_head Sample.expense_line = Ok (Some r)
                /\ operation r = u "Перевод")
  /\ (exists r, Kaspi.decode_row Sample.lower Sample.capitalize
                  Sample.strptime_dmy Sample.FOOTER_MARKERS
                  Sample.NOISE_PATTERNS 0 1 2 (Some 3)
                  (Kaspi.normalize_row Sample.kaspi_row2) = Ok (Some r)
                /\ operation r = Sample.capitalize (u "пополнение")
                /\ operation r = u "Пополнение").
Proof.
  pose proof (operation_coercion
                Sample.lower Sample.capitalize Sample.strptime_dmY
                Sample.strptime_dmy Sample.TX_HEAD_RE Sample.KNOWN_OPERATIONS
                Sample.FOOTER_MARKERS Sample.NOISE_PATTERNS) as [Hhead Hrow].
  assert (Hout : ~ In (Sample.capitalize (u "Доход")) Sample.KNOWN_OPERATIONS).
  { intros H. vm_compute in H.
    repeat (destruct H as [H|H]; [discriminate H|]). exact H. }
  assert (Hin : In (Sample.capitalize (u "Перевод")) Sample.KNOWN_OPERATIONS).
  { right. left. vm_compute. reflexivity. }
  split; [exact Hout|]. split; [|split; [exact Hin | split]].
  - eexists. split; [vm_compute; reflexivity|].
    apply (Hhead Sample.income_line
             (mkHeadMatch (u "18.12.2025") (u "+1000,00") (u "KZT")
                (u "Доход") (Some (u "Зарплата")))).
    + vm_compute. reflexivity.
    + left. vm_compute. reflexivity.
    + exact Hout.
  - eexists. split; [vm_compute; reflexivity|].
    transitivity (Sample.capitalize (u "Перевод"));
      [|vm_compute; reflexivity].
    apply (Hhead Sample.expense_line
             (mkHeadMatch (u "17.12.2025") (u "-500,00") (u "KZT")
                (u "Перевод") (Some (u "Безвозмездный перевод")))).
    + vm_compute. reflexivity.
    + left. vm_compute. reflexivity.
    + exact Hin.
  - eexists. split; [vm_compute; reflexivity|].
    split; vm_compute; reflexivity.
Defined.

Lemma header_retains_absent_indices_witness :
  Kaspi._looks_like_header Sample.lower
    (Kaspi.normalize_row Sample.kaspi_header_short) = true
  /\ KaspiSpec.absent Sample.lower (u "детал")
       (Kaspi.normalize_row Sample.kaspi_header_short)
  /\ Kaspi.idx_details
       (fst (Sample.kaspi_row_step (Sample.all_cols, [])
               Sample.kaspi_header_short)) = Some 3
  /\ fst (Sample.kaspi_row_step (Sample.all_cols, [])
            Sample.kaspi_header_short)
     = Kaspi.mkCols (Some 1) (Some 2) (Some 0) (Some 3).
Proof.
  assert (Hh : Kaspi._looks_like_header Sample.lower
                 (Kaspi.normalize_row Sample.kaspi_header_short) = true)
    by (vm_compute; reflexivity).
  assert (Ha : KaspiSpec.absent Sample.lower (u "детал")
                 (Kaspi.normalize_row Sample.kaspi_header_short)).
  { intros c H. vm_compute in H.
    destruct H as [<-|[<-|[<-|[]]]]; vm_compute; reflexivity. }
  split; [exact Hh|]. split; [exact Ha|]. split; [|vm_compute; reflexivity].
  destruct (header_retains_absent_indices
              Sample.lower Sample.capitalize Sample.strptime_dmy
              Sample.re_digit Sample.FOOTER_MARKERS Sample.NOISE_PATTERNS
              Sample.all_cols [] Sample.kaspi_header_short Hh)
    as (_ & _ & _ & _ & Hdet & _).
  exact (Hdet Ha).
Defined.

(** * The examples of the specification *)

Example amount_examples :
  Freedom._to_decimal (u "1 234,56") = Ok (mkDecimal false 123456 (-2))
  /\ Freedom._to_decimal (u "-500,00") = Ok (mkDecimal true 50000 (-2))
  /\ Freedom._to_decimal (u "−2 880,00") = Ok (mkDecimal true 288000 (-2))
  /\ Kaspi._parse_amount (u "+3 000,00 ₸") = Ok (mkDecimal false 300000 (-2))
  /\ Freedom._to_decimal (u "???") = Ok dec_zero
  /\ Kaspi._parse_amount (u "???") = Ok dec_zero.
Proof. repeat split; reflexivity. Qed.

Example date_examples :
  Sample.strptime_dmY (u "17.12.2025") = Some (mkDate 2025 12 17)
  /\ Sample.strptime_dmy (u "17.12.25") = Some (mkDate 2025 12 17)
  /\ Sample.strptime_dmY (u "31.13.2025") = None
  /\ Sample.strptime_dmy (u "31.13.2025") = None.
Proof. repeat split; reflexivity. Qed.

(** The lines of a block are merged and the block is flushed at the next
    head line; a line that continues a block on the next page is lost. *)
Example page_merge_example :
  (exists txs,
      Sample.parse_freedom_pdf
        [Some (u "17.12.2025 -500,00 KZT Перевод Оплата"
                 ++ [c_newline] ++ u "за интернет"
                 ++ [c_newline] ++ u "18.12.2025 +1000,00 KZT Доход Зарплата")]
      = Ok txs
      /\ map description txs = [u "Оплата за интернет"; u "Зарплата"]
      /\ map direction txs = [expense; income]
      /\ map source txs = [Some freedom; Some freedom])
  /\ (exists txs,
         Sample.parse_freedom_pdf
           [Some (u "17.12.2025 -500,00 KZT Перевод Оплата");
            Some (u "за интернет")] = Ok txs
         /\ map description txs = [u "Оплата"]).
Proof.
  split; eexists; (split; [vm_compute; reflexivity|]);
    repeat split; reflexivity.
Qed.

(** * Further properties of the code *)

(** ** Cleaning *)

Lemma strip_footer_loop_prefix (markers : list str) (low text : str) :
  exists suffix, text = Cleaner.strip_footer_loop markers low text ++ suffix.
Proof.
  induction markers as [|m rest IH]; cbn [Cleaner.strip_footer_loop].
  - exists []. now rewrite app_nil_r.
  - destruct (find m low) as [idx|]; [|exact IH].
    exists (skipn idx text). unfold slice_to. now rewrite firstn_skipn.
Qed.

(** X1: [strip_footer] only cuts: its result is a prefix of the text. *)
Theorem strip_footer_prefix
        (lower : str -> str) (FOOTER_MARKERS : list str) (text : str) :
  exists suffix,
    text = Cleaner.strip_footer lower FOOTER_MARKERS text ++ suffix.
Proof. apply strip_footer_loop_prefix. Qed.

Lemma tidy_spaces (s : str) :
  tidy s -> forall c, In c s -> is_space c = true -> c = c_space.
Proof.
  induction s as [|x t IH]; cbn [tidy];
    [intros _ c [] | intros [H1 H2] c [<-|Hc] Hs].
  - now destruct (H1 Hs).
  - now apply IH.
Qed.

Lemma tidy_no_double (s : str) :
  tidy s -> forall p q a b, s = p ++ a :: b :: q ->
                            is_space a = true -> is_space b = false.
Proof.
  intros H p. revert s H.
  induction p as [|x p IH]; intros s H q a b -> Ha.
  - cbn in H. destruct H as [H _]. destruct (H Ha) as [_ Hh].
    cbn in Hh. now destruct (is_space b).
  - cbn in H. destruct H as [_ H]. now apply (IH _ H q a b).
Qed.

(** X2: The result of [clean_description] is normalized, whatever the
    markers and patterns: its only white space characters are single
    spaces between other characters. *)
Theorem clean_description_normalized
        (lower : str -> str) (FOOTER_MARKERS : list str)
        (NOISE_PATTERNS : list (str -> str)) (text : str) :
  let out := Cleaner.clean_description lower FOOTER_MARKERS NOISE_PATTERNS
               text in
  (forall c, In c out -> is_space c = true -> c = c_space)
  /\ (forall p q a b, out = p ++ a :: b :: q ->
                      is_space a = true -> is_space b = false)
  /\ head_ok out = true
  /\ head_ok (rev out) = true.
Proof.
  intros out. subst out. unfold Cleaner.clean_description. cbv zeta.
  set (x := collapse_ws _).
  assert (T : tidy (strip x)) by apply tidy_strip, tidy_collapse.
  split; [now apply tidy_spaces|]. split; [now apply tidy_no_double|].
  unfold strip. split.
  - apply rstrip_head_ok, lstrip_head_ok.
  - unfold rstrip. rewrite rev_involutive. apply lstrip_head_ok.
Qed.

(** ** The amount normalizers *)

Lemma span_digits_spec (s : str) :
  forall ip rest, span_digits s = (ip, rest) ->
                  s = ip ++ rest /\ forallb is_ascii_digit ip = true.
Proof.
  induction s as [|c t IH]; intros ip rest; cbn [span_digits].
  - intros H. injection H as <- <-. now split.
  - destruct (is_ascii_digit c) eqn:E.
    + destruct (span_digits t) as [a b]. intros H. injection H as <- <-.
      destruct (IH a b eq_refl) as [-> Hd]. split; [reflexivity|].
      cbn. now rewrite E.
    + intros H. injection H as <- <-. now split.
Qed.

Lemma filter_all (p : char -> bool) (s : str) :
  forallb p s = true -> filter p s = s.
Proof.
  induction s as [|c t IH]; cbn; [reflexivity|].
  intros H. apply andb_true_iff in H as [H1 H2]. rewrite H1.
  now rewrite IH.
Qed.

Lemma Decimal_of_str_digits (s : str) (d : Decimal) :
  Decimal_of_str s = Ok d ->
  dcoeff d = digits_value (filter is_ascii_digit s) /\ (dexp d <= 0)%Z.
Proof.
  unfold Decimal_of_str.
  assert (G : forall sg body,
             (let (ip, rest) := span_digits body in
              match rest with
              | [] => if is_nil ip then Raise InvalidOperation
                      else Ok (mkDecimal sg (digits_value ip) 0)
              | c :: fp =>
                  if char_eqb c c_period && forallb is_ascii_digit fp
                     && negb (is_nil ip && is_nil fp)
                  then Ok (mkDecimal sg (digits_value (ip ++ fp))
                             (- Z.of_nat (List.length fp)))
                  else Raise InvalidOperation
              end) = Ok d ->
             dcoeff d = digits_value (filter is_ascii_digit body)
             /\ (dexp d <= 0)%Z).
  { intros sg body. destruct (span_digits body) as [ip rest] eqn:E.
    apply span_digits_spec in E as [-> Hip].
    destruct rest as [|c fp].
    - destruct (is_nil ip); [discriminate|]. intros H. injection H as <-.
      cbn [dcoeff dexp]. rewrite app_nil_r, (filter_all _ _ Hip).
      split; [reflexivity | lia].
    - destruct (char_eqb c c_period) eqn:Ec; [|discriminate].
      destruct (forallb is_ascii_digit fp) eqn:Ef; [|discriminate].
      destruct (negb _); [|discriminate]. cbn [andb].
      intros H. injection H as <-. cbn [dcoeff dexp].
      apply char_eqb_eq in Ec. subst c.
      rewrite filter_app. cbn [filter].
      change (is_ascii_digit c_period) with false. cbv iota.
      rewrite (filter_all _ _ Hip), (filter_all _ _ Ef).
      split; [reflexivity | lia]. }
  destruct s as [|c t].
  - apply (G false []).
  - destruct (char_eqb c c_hyphen) eqn:Eh.
    + apply char_eqb_eq in Eh. subst c. intros H. apply G in H.
      cbn [filter]. now change (is_ascii_digit c_hyphen) with false.
    + destruct (char_eqb c c_plus) eqn:Ep.
      * apply char_eqb_eq in Ep. subst c. intros H. apply G in H.
        cbn [filter]. now change (is_ascii_digit c_plus) with false.
      * apply G.
Qed.

Lemma filter_replace_char (p : char -> bool) (c : char) (r s : str) :
  p c = false -> forallb (fun x => negb (p x)) r = true ->
  filter p (replace_char c r s) = filter p s.
Proof.
  intros Hc Hr. unfold replace_char.
  induction s as [|x t IH]; cbn [flat_map filter]; [reflexivity|].
  rewrite filter_app, IH. destruct (char_eqb x c) eqn:E.
  - apply char_eqb_eq in E. subst x. rewrite Hc.
    assert (N : filter p r = []).
    { clear -Hr. induction r as [|y r IH]; cbn in *; [reflexivity|].
      apply andb_true_iff in Hr as [H1 H2].
      destruct (p y); [discriminate | now apply IH]. }
    now rewrite N.
  - cbn [filter]. now destruct (p x).
Qed.

Lemma filter_filter_digit (keeps : char -> bool) (s : str) :
  (forall c, is_ascii_digit c = true -> keeps c = true) ->
  filter is_ascii_digit (filter keeps s) = filter is_ascii_digit s.
Proof.
  intros H. induction s as [|c t IH]; cbn [filter]; [reflexivity|].
  destruct (keeps c) eqn:K; cbn [filter];
    destruct (is_ascii_digit c) eqn:D; try now rewrite IH.
  apply H in D. congruence.
Qed.

Lemma freedom_stripped_digits (v : str) :
  filter is_ascii_digit (Freedom.stripped v) = filter is_ascii_digit v.
Proof.
  unfold Freedom.stripped. rewrite filter_filter_digit.
  - destruct (has_char c_period _ && has_char c_comma _);
      now rewrite !filter_replace_char.
  - intros c H. unfold Freedom.keeps. now rewrite H.
Qed.

Lemma kaspi_stripped_digits (v : str) :
  filter is_ascii_digit (Kaspi.stripped v) = filter is_ascii_digit v.
Proof.
  unfold Kaspi.stripped. rewrite filter_filter_digit.
  - now rewrite !filter_replace_char.
  - intros c H. unfold Kaspi.keeps. now rewrite H.
Qed.

(** X3: When a normalizer returns an amount, its coefficient is the number
    written by the ASCII digits of the text, in their order, and its
    exponent is not positive: digits are neither lost nor invented. *)
Theorem normalizer_keeps_digits (v : str) (d : Decimal) :
  Freedom._to_decimal v = Ok d \/ Parser._to_decimal v = Ok d
  \/ Kaspi._parse_amount v = Ok d ->
  dcoeff d = digits_value (filter is_ascii_digit v) /\ (dexp d <= 0)%Z.
Proof.
  change (Parser._to_decimal v) with (Freedom._to_decimal v).
  unfold Freedom._to_decimal, Kaspi._parse_amount.
  intros [H|[H|H]].
  1, 2: rewrite <- freedom_stripped_digits;
    destruct (Freedom.stripped v) as [|c t];
    [injection H as <-; split; [reflexivity | cbn; lia]
    | now apply Decimal_of_str_digits].
  rewrite <- kaspi_stripped_digits.
  destruct (Kaspi.stripped v) as [|c t];
    [injection H as <-; split; [reflexivity | cbn; lia]
    | now apply Decimal_of_str_digits].
Qed.

Lemma normalizer_keeps_digits_witness :
  Freedom._to_decimal (u "1 234,56 KZT") = Ok (mkDecimal false 123456 (-2))
  /\ filter is_ascii_digit (u "1 234,56 KZT") = u "123456"
  /\ dcoeff (mkDecimal false 123456 (-2))
     = digits_value (filter is_ascii_digit (u "1 234,56 KZT")).
Proof.
  split; [reflexivity|]. split; [reflexivity|].
  apply (normalizer_keeps_digits (u "1 234,56 KZT")
           (mkDecimal false 123456 (-2))).
  left. reflexivity.
Defined.

Lemma kaspi_stripped_hyphen (v : str) :
  In c_hyphen (Kaspi.stripped v) -> In c_hyphen v.
Proof.
  unfold Kaspi.stripped. intros H. apply filter_In in H as [H _].
  apply in_replace_char in H as [[H _]|H].
  { destruct H as [H|[]]. discriminate H. }
  apply in_replace_char in H as [[[] _]|H].
  now apply in_replace_char in H as [[[] _]|H].
Qed.

(** X4: The tabular normalizer takes only the ASCII hyphen for a sign: on a
    text without one the amount is not negative, even when the text
    begins with the minus sign U+2212, which the line-based normalizer
    reads as a hyphen. *)
Theorem kaspi_amount_sign (v : str) (d : Decimal) :
  Kaspi._parse_amount v = Ok d ->
  ~ In c_hyphen v ->
  dsign d = false /\ direction_of d <> expense.
Proof.
  intros H Hn.
  assert (S : dsign d = false).
  { destruct (dsign d) eqn:E; [|reflexivity]. exfalso. apply Hn.
    unfold Kaspi._parse_amount in H.
    destruct (Kaspi.stripped v) as [|c t] eqn:Es.
    - injection H as <-. discriminate E.
    - cbn [is_nil] in H. apply Decimal_of_str_sign in H; [|assumption].
      rewrite <- Es in H. now apply kaspi_stripped_hyphen. }
  split; [assumption|]. unfold direction_of, dec_lt0. rewrite S. cbn.
  destruct (dec_gt0 d); discriminate.
Qed.

Lemma kaspi_amount_sign_witness :
  Kaspi._parse_amount (u "−2 880,00 ₸") = Ok (mkDecimal false 288000 (-2))
  /\ ~ In c_hyphen (u "−2 880,00 ₸")
  /\ direction_of (mkDecimal false 288000 (-2)) = income
  /\ Freedom._to_decimal (u "−2 880,00 ₸") = Ok (mkDecimal true 288000 (-2)).
Proof.
  assert (Hn : ~ In c_hyphen (u "−2 880,00 ₸")).
  { intros H. vm_compute in H.
    repeat (destruct H as [H|H]; [discriminate H|]). exact H. }
  pose proof (kaspi_amount_sign (u "−2 880,00 ₸")
                (mkDecimal false 288000 (-2)) eq_refl Hn) as [_ Hd].
  split; [reflexivity|]. split; [exact Hn|].
  split; [reflexivity | reflexivity].
Defined.

(** *** Characters the normalizers drop *)

Lemma replace_char_remove_comm (a c : char) (r s : str) :
  ~ In c r -> a <> c \/ r = [] ->
  replace_char a r (replace_char c [] s)
  = replace_char c [] (replace_char a r s).
Proof.
  intros Hr Hac. unfold replace_char.
  induction s as [|x t IH]; cbn [flat_map]; [reflexivity|].
  rewrite !flat_map_app, IH. f_equal.
  destruct (char_eqb x c) eqn:Exc; destruct (char_eqb x a) eqn:Exa.
  - apply char_eqb_eq in Exc, Exa. subst.
    destruct Hac as [Hac| ->]; [congruence | reflexivity].
  - cbn [flat_map app]. now rewrite Exc.
  - cbn [flat_map app]. rewrite Exa, app_nil_r.
    clear -Hr. induction r as [|y r IH]; cbn [flat_map]; [reflexivity|].
    destruct (char_eqb y c) eqn:E.
    + apply char_eqb_eq in E. subst. exfalso. apply Hr. now left.
    + cbn [app]. f_equal. apply IH. intros H. apply Hr. now right.
  - cbn [flat_map app]. now rewrite Exa, Exc.
Qed.

Lemma has_char_remove (a c : char) (s : str) :
  a <> c -> has_char a (replace_char c [] s) = has_char a s.
Proof.
  intros Hac. unfold has_char, replace_char.
  induction s as [|x t IH]; cbn [flat_map existsb]; [reflexivity|].
  destruct (char_eqb x c) eqn:E; cbn [app existsb]; rewrite IH.
  - apply char_eqb_eq in E. subst x.
    destruct (char_eqb a c) eqn:E'; [|reflexivity].
    apply char_eqb_eq in E'. congruence.
  - reflexivity.
Qed.

Lemma freedom_stripped_remove (c : char) (v : str) :
  Freedom.keeps c = false -> c <> c_comma -> c <> c_minus ->
  Freedom.stripped (replace_char c [] v) = Freedom.stripped v.
Proof.
  intros K Hc Hm. unfold Freedom.stripped.
  assert (Hp : c <> c_period) by (intros ->; discriminate K).
  assert (Hh : c <> c_hyphen) by (intros ->; discriminate K).
  rewrite (replace_char_remove_comm c_minus c [c_hyphen] v);
    [| intros [H|[]]; congruence | left; congruence].
  rewrite (replace_char_remove_comm c_space c []);
    [| intros [] | now right].
  rewrite (has_char_remove c_period c) by (intros E; now apply Hp).
  rewrite (has_char_remove c_comma c) by (intros E; now apply Hc).
  set (x := replace_char c_space [] (replace_char c_minus [c_hyphen] v)).
  destruct (has_char c_period x && has_char c_comma x).
  - rewrite (replace_char_remove_comm c_comma c []);
      [| intros [] | now right].
    now apply filter_replace_char.
  - rewrite (replace_char_remove_comm c_comma c [c_period]);
      [| intros [H|[]]; congruence | left; congruence].
    now apply filter_replace_char.
Qed.

Lemma kaspi_stripped_remove (c : char) (v : str) :
  Kaspi.keeps c = false -> c <> c_comma ->
  Kaspi.stripped (replace_char c [] v) = Kaspi.stripped v.
Proof.
  intros K Hc. unfold Kaspi.stripped.
  assert (Hp : c <> c_period) by (intros ->; discriminate K).
  rewrite (replace_char_remove_comm c_tenge c []);
    [| intros [] | now right].
  rewrite (replace_char_remove_comm c_space c []);
    [| intros [] | now right].
  rewrite (replace_char_remove_comm c_comma c [c_period]);
    [| intros [H|[]]; congruence | left; congruence].
  now apply filter_replace_char.
Qed.

(** X5: A character outside the digits, the period, the comma and the signs
    does not influence the amount: removing all its occurrences from the
    text leaves the result of every normalizer as it is, a raised
    exception included. *)
Theorem normalizer_ignores_other_characters (c : char) (v : str) :
  Kaspi.keeps c = false -> c <> c_comma -> c <> c_minus ->
  Freedom._to_decimal (replace_char c [] v) = Freedom._to_decimal v
  /\ Parser._to_decimal (replace_char c [] v) = Parser._to_decimal v
  /\ Kaspi._parse_amount (replace_char c [] v) = Kaspi._parse_amount v.
Proof.
  intros K Hc Hm.
  assert (KF : Freedom.keeps c = false).
  { unfold Kaspi.keeps in K. unfold Freedom.keeps.
    now apply orb_false_iff in K as [K _]. }
  change (Parser._to_decimal (replace_char c [] v))
    with (Freedom._to_decimal (replace_char c [] v)).
  change (Parser._to_decimal v) with (Freedom._to_decimal v).
  unfold Freedom._to_decimal, Kaspi._parse_amount.
  rewrite (freedom_stripped_remove c v KF Hc Hm).
  rewrite (kaspi_stripped_remove c v K Hc).
  repeat split.
Qed.

Lemma normalizer_ignores_other_characters_witness :
  Kaspi.keeps c_tenge = false
  /\ replace_char c_tenge [] (u "+3 000,00 ₸") = u "+3 000,00 "
  /\ Kaspi._parse_amount (u "+3 000,00 ")
     = Kaspi._parse_amount (u "+3 000,00 ₸")
  /\ Freedom._to_decimal (u "+3 000,00 ")
     = Freedom._to_decimal (u "+3 000,00 ₸").
Proof.
  destruct (normalizer_ignores_other_characters c_tenge (u "+3 000,00 ₸"))
    as (H1 & _ & H3); [reflexivity | discriminate | discriminate |].
  split; [reflexivity|]. split; [reflexivity|].
  split; [exact H3 | exact H1].
Defined.

(** ** The line-based reconstruction *)

Section Blocks.

Variable lower : str -> str.
Variable capitalize : str -> str.
Variable strptime_dmY : str -> option Date.
Variable FOOTER_MARKERS : list str.
Variable NOISE_PATTERNS : list (str -> str).
Variable DATE_START_RE : str -> bool.
Variable TX_HEAD_RE : str -> option HeadMatch.
Variable KNOWN_OPERATIONS : list str.

Local Abbreviation clean :=
  (Cleaner.clean_description lower FOOTER_MARKERS NOISE_PATTERNS).
Local Abbreviation head_line :=
  (Freedom._parse_head_line capitalize strptime_dmY TX_HEAD_RE
     KNOWN_OPERATIONS).
Local Abbreviation flush :=
  (Freedom.flush lower FOOTER_MARKERS NOISE_PATTERNS).
Local Abbreviation page_loop :=
  (Freedom.page_loop lower capitalize strptime_dmY FOOTER_MARKERS
     NOISE_PATTERNS DATE_START_RE TX_HEAD_RE KNOWN_OPERATIONS).
Local Abbreviation parse_page :=
  (Freedom._parse_page lower capitalize strptime_dmY FOOTER_MARKERS
     NOISE_PATTERNS DATE_START_RE TX_HEAD_RE KNOWN_OPERATIONS).
Local Abbreviation pages_loop :=
  (Freedom.pages_loop lower capitalize strptime_dmY FOOTER_MARKERS
     NOISE_PATTERNS DATE_START_RE TX_HEAD_RE KNOWN_OPERATIONS).
Local Abbreviation parse_freedom_pdf :=
  (Freedom.parse_freedom_pdf lower capitalize strptime_dmY FOOTER_MARKERS
     NOISE_PATTERNS DATE_START_RE TX_HEAD_RE KNOWN_OPERATIONS).
(** The record of a block at its flush. *)
Local Abbreviation finished tx :=
  (set_description tx (clean (description tx))).
(** The open block after the continuation lines [conts]. *)
Local Abbreviation merged tx conts :=
  (set_description tx
     (description tx ++ flat_map (fun l : str => c_space :: l) conts)).

Lemma flush_open (txs : list Tx) (tx : Tx) :
  flush (txs, Some tx) = (txs ++ [finished tx], None).
Proof. reflexivity. Qed.

Lemma flush_idle (txs : list Tx) : flush (txs, None) = (txs, None).
Proof. reflexivity. Qed.

Lemma set_description_twice (tx : Tx) (a b : str) :
  set_description (set_description tx a) b = set_description tx b.
Proof. reflexivity. Qed.

Lemma page_loop_idle (conts rest : list str) (txs : list Tx) :
  Forall (fun l => DATE_START_RE l = false) conts ->
  page_loop (conts ++ rest) (txs, None) = page_loop rest (txs, None).
Proof.
  induction 1 as [|l conts Hl _ IH]; [reflexivity|].
  cbn [app Freedom.page_loop]. now rewrite Hl.
Qed.

Lemma page_loop_open (conts rest : list str) :
  Forall (fun l => DATE_START_RE l = false) conts ->
  forall txs tx,
    page_loop (conts ++ rest) (txs, Some tx)
    = page_loop rest (txs, Some (merged tx conts)).
Proof.
  induction 1 as [|l conts Hl _ IH]; intros txs tx.
  - cbn [app flat_map]. rewrite app_nil_r. now destruct tx.
  - cbn [app Freedom.page_loop]. rewrite Hl. cbn [fst snd].
    rewrite IH. cbn [description set_description flat_map].
    unfold set_description at 2. cbn [date amount currency operation
      direction transfer_type source description].
    do 3 f_equal. unfold set_description. cbn. f_equal.
    now rewrite <- !app_assoc.
Qed.

Lemma page_loop_acc (lines : list str) :
  forall txs cur,
    page_loop lines (txs, cur)
    = bind (page_loop lines ([], cur)) (fun t => Ok (txs ++ t)).
Proof.
  induction lines as [|line rest IH]; intros txs cur;
    cbn [Freedom.page_loop].
  - destruct cur as [tx|]; cbn; [reflexivity | now rewrite app_nil_r].
  - destruct (DATE_START_RE line).
    + destruct (head_line line) as [[h|]|e]; cbn [bind]; [| |reflexivity].
      * destruct cur as [tx|]; cbn [Freedom.flush fst snd].
        -- rewrite (IH (txs ++ _)), (IH ([] ++ _)).
           destruct (page_loop rest ([], Some h)); cbn [bind];
             [now rewrite app_assoc | reflexivity].
        -- apply IH.
      * destruct cur as [tx|]; cbn [Freedom.flush fst snd].
        -- rewrite (IH (txs ++ _)), (IH ([] ++ _)).
           destruct (page_loop rest ([], None)); cbn [bind];
             [now rewrite app_assoc | reflexivity].
        -- apply IH.
    + destruct cur as [tx|]; cbn [fst snd]; apply IH.
Qed.

(** X6: The lines of a page before its first transaction start are lost; a
    page without a transaction start gives no record. *)
Theorem leading_lines_dropped (pre rest : list str) :
  Forall (fun l => DATE_START_RE l = false) pre ->
  parse_page (pre ++ rest) = parse_page rest
  /\ parse_page pre = Ok [].
Proof.
  intros H. unfold Freedom._parse_page. split.
  - now apply page_loop_idle.
  - rewrite <- (app_nil_r pre). now rewrite page_loop_idle.
Qed.

(** X7: A head line the decoder accepts opens a block: the lines up to the
    next transaction start, or to the end of the page, are appended to
    its details, each after one space; the block gives one record, with
    the cleaned text as description, in front of the records of the
    lines that follow. *)
Theorem block_record (head : str) (conts rest : list str) (h : Tx) :
  DATE_START_RE head = true ->
  head_line head = Ok (Some h) ->
  Forall (fun l => DATE_START_RE l = false) conts ->
  rest = [] \/ (exists r rs, rest = r :: rs /\ DATE_START_RE r = true) ->
  parse_page (head :: conts ++ rest)
  = bind (parse_page rest)
         (fun t => Ok (finished (merged h conts) :: t)).
Proof.
  intros Hs Hh Hc Hr. unfold Freedom._parse_page.
  cbn [Freedom.page_loop]. rewrite Hs, Hh. cbn [bind Freedom.flush fst snd].
  rewrite (page_loop_open conts rest Hc).
  destruct Hr as [->|(r & rs & -> & Hrs)].
  - reflexivity.
  - cbn [Freedom.page_loop]. rewrite Hrs.
    cbn [Freedom.flush fst snd].
    destruct (head_line r) as [[h'|]|e]; cbn [bind]; [| |reflexivity];
      now rewrite page_loop_acc.
Qed.

(** X8: A line that looks like a transaction start and that the head
    pattern rejects is lost together with the lines that continue it. *)
Theorem rejected_head_dropped (head : str) (conts rest : list str) :
  DATE_START_RE head = true ->
  head_line head = Ok None ->
  Forall (fun l => DATE_START_RE l = false) conts ->
  parse_page (head :: conts ++ rest) = parse_page rest.
Proof.
  intros Hs Hh Hc. unfold Freedom._parse_page.
  cbn [Freedom.page_loop]. rewrite Hs, Hh. cbn [bind Freedom.flush fst snd].
  now apply page_loop_idle.
Qed.

End Blocks.

Section Documents.

Variable lower : str -> str.
Variable capitalize : str -> str.
Variable strptime_dmY : str -> option Date.
Variable FOOTER_MARKERS : list str.
Variable NOISE_PATTERNS : list (str -> str).
Variable DATE_START_RE : str -> bool.
Variable TX_HEAD_RE : str -> option HeadMatch.
Variable KNOWN_OPERATIONS : list str.

Local Abbreviation clean :=
  (Cleaner.clean_description lower FOOTER_MARKERS NOISE_PATTERNS).
Local Abbreviation head_line :=
  (Freedom._parse_head_line capitalize strptime_dmY TX_HEAD_RE
     KNOWN_OPERATIONS).
Local Abbreviation page_loop :=
  (Freedom.page_loop lower capitalize strptime_dmY FOOTER_MARKERS
     NOISE_PATTERNS DATE_START_RE TX_HEAD_RE KNOWN_OPERATIONS).
Local Abbreviation parse_page :=
  (Freedom._parse_page lower capitalize strptime_dmY FOOTER_MARKERS
     NOISE_PATTERNS DATE_START_RE TX_HEAD_RE KNOWN_OPERATIONS).
Local Abbreviation pages_loop :=
  (Freedom.pages_loop lower capitalize strptime_dmY FOOTER_MARKERS
     NOISE_PATTERNS DATE_START_RE TX_HEAD_RE KNOWN_OPERATIONS).
Local Abbreviation parse_freedom_pdf :=
  (Freedom.parse_freedom_pdf lower capitalize strptime_dmY FOOTER_MARKERS
     NOISE_PATTERNS DATE_START_RE TX_HEAD_RE KNOWN_OPERATIONS).
(** The head decoder accepts the line. *)
Local Abbreviation accepted line :=
  (DATE_START_RE line
   && match head_line line with Ok (Some _) => true | _ => false end).

Lemma pages_loop_app (ps1 ps2 : list (option str)) :
  forall acc,
    pages_loop (ps1 ++ ps2) acc
    = bind (pages_loop ps1 acc) (fun t1 => pages_loop ps2 t1).
Proof.
  induction ps1 as [|[text|] ps1 IH]; intros acc;
    cbn [app Freedom.pages_loop]; [reflexivity| |apply IH].
  destruct (is_nil text); [apply IH|].
  destruct (parse_page _); cbn [bind]; [apply IH | reflexivity].
Qed.

Lemma pages_loop_acc (ps : list (option str)) :
  forall acc,
    pages_loop ps acc
    = bind (pages_loop ps []) (fun t => Ok (acc ++ t)).
Proof.
  induction ps as [|[text|] ps IH]; intros acc; cbn [Freedom.pages_loop].
  - cbn. now rewrite app_nil_r.
  - destruct (is_nil text); [apply IH|].
    destruct (parse_page _) as [t|e]; cbn [bind app]; [|reflexivity].
    rewrite (IH (acc ++ t)), (IH t).
    destruct (pages_loop ps []); cbn [bind];
      [now rewrite app_assoc | reflexivity].
  - apply IH.
Qed.

(** X9: The pages of a document are parsed one by one, nothing is carried
    from a page to the next: the records of a document are the records
    of its first pages followed by the records of the other pages, and a
    page without text adds nothing. *)
Theorem freedom_pages_compose (ps1 ps2 : list (option str)) :
  parse_freedom_pdf (ps1 ++ ps2)
  = bind (parse_freedom_pdf ps1)
         (fun t1 => bind (parse_freedom_pdf ps2)
                         (fun t2 => Ok (t1 ++ t2)))
  /\ parse_freedom_pdf (None :: ps2) = parse_freedom_pdf ps2
  /\ parse_freedom_pdf (Some [] :: ps2) = parse_freedom_pdf ps2.
Proof.
  split; [|split; reflexivity].
  unfold Freedom.parse_freedom_pdf. rewrite pages_loop_app.
  destruct (pages_loop ps1 []) as [t1|e]; cbn [bind]; [|reflexivity].
  rewrite pages_loop_acc.
  destruct (pages_loop ps2 []) as [t2|e]; cbn [bind]; [|reflexivity].
  now rewrite map_app.
Qed.

Lemma page_loop_invariant (P Q : Tx -> Prop) :
  (forall line h, head_line line = Ok (Some h) -> Q h) ->
  (forall tx d, Q tx -> Q (set_description tx d)) ->
  (forall tx, Q tx -> P (set_description tx (clean (description tx)))) ->
  forall lines st txs,
    Forall P (fst st) -> (forall c, snd st = Some c -> Q c) ->
    page_loop lines st = Ok txs -> Forall P txs.
Proof.
  intros Hhead Hset Hfin.
  assert (Hflush : forall st : Freedom.page_state,
             Forall P (fst st) -> (forall c, snd st = Some c -> Q c) ->
             Forall P (fst (Freedom.flush lower FOOTER_MARKERS
                              NOISE_PATTERNS st))
             /\ snd (Freedom.flush lower FOOTER_MARKERS NOISE_PATTERNS st)
                = None).
  { intros [txs [c|]] H1 H2; unfold Freedom.flush; cbn [fst snd] in *.
    - split; [|reflexivity]. apply Forall_app. split; [assumption|].
      constructor; [|constructor]. apply Hfin. now apply H2.
    - now split. }
  induction lines as [|line rest IH]; intros st txs H1 H2 H;
    cbn [Freedom.page_loop] in H.
  - injection H as <-. now apply Hflush.
  - destruct (DATE_START_RE line).
    + destruct (Hflush st H1 H2) as [F1 F2].
      destruct (head_line line) as [[h|]|e] eqn:Eh; cbn [bind] in H;
        [| |discriminate].
      * apply IH in H; [assumption | assumption |].
        cbn [snd]. intros c Hc. injection Hc as <-. now apply Hhead in Eh.
      * apply IH in H; [assumption | assumption |].
        rewrite F2. discriminate.
    + destruct st as [done [c|]]; cbn [fst snd] in *.
      * apply IH in H; [assumption | assumption |].
        cbn [snd]. intros c' Hc. injection Hc as <-.
        apply Hset. now apply H2.
      * apply IH in H; assumption.
Qed.

Lemma pages_loop_invariant (P : Tx -> Prop) :
  (forall lines txs, parse_page lines = Ok txs -> Forall P txs) ->
  forall pages acc txs,
    Forall P acc -> pages_loop pages acc = Ok txs -> Forall P txs.
Proof.
  intros Hpage.
  induction pages as [|[text|] rest IH]; intros acc txs Ha H;
    cbn [Freedom.pages_loop] in H.
  - now injection H as <-.
  - destruct (is_nil text); [now apply IH in H|].
    destruct (parse_page (Freedom.page_lines text)) as [p|e] eqn:Ep;
      cbn [bind] in H; [|discriminate].
    apply IH in H; [assumption|]. apply Forall_app. split; [assumption|].
    now apply Hpage in Ep.
  - now apply IH in H.
Qed.

(** X10: Every record of [parse_freedom_pdf] is tagged with the source
    [freedom], has no transfer type, and has a description that came out
    of [clean_description]. *)
Theorem freedom_records_shape (pages : list (option str)) (txs : list Tx) :
  parse_freedom_pdf pages = Ok txs ->
  Forall (fun r => source r = Some freedom
                   /\ transfer_type r = None
                   /\ exists raw, description r = clean raw) txs.
Proof.
  unfold Freedom.parse_freedom_pdf.
  destruct (pages_loop pages []) as [acc|e] eqn:E; cbn [bind];
    [|discriminate].
  intros H. injection H as <-.
  apply (pages_loop_invariant
           (fun r => transfer_type r = None
                     /\ exists raw, description r = clean raw))
    in E; [| |constructor].
  - induction E as [|r l [H1 H2] _ IH]; cbn [map]; constructor;
      [|exact IH]. now repeat split.
  - intros lines t Hp. unfold Freedom._parse_page in Hp.
    apply (page_loop_invariant
             (fun r => transfer_type r = None
                       /\ exists raw, description r = clean raw)
             (fun r => transfer_type r = None)) in Hp;
      [assumption | | | | constructor | discriminate].
    + intros line h Hh.
      now apply freedom_head_inv in Hh
        as (m & dt & d & a & _ & _ & _ & _ & ->).
    + intros tx d Hq. exact Hq.
    + intros tx Hq. split; [exact Hq|]. now exists (description tx).
Qed.

Lemma page_loop_count (lines : list str) :
  forall st txs,
    page_loop lines st = Ok txs ->
    List.length txs
    = List.length (fst st)
      + (match snd st with Some _ => 1 | None => 0 end)
      + List.length (filter (fun l => accepted l) lines).
Proof.
  induction lines as [|line rest IH]; intros [done cur] txs H;
    cbn [Freedom.page_loop fst snd filter] in *.
  - injection H as <-. destruct cur; cbn; rewrite ?length_app; cbn; lia.
  - destruct (DATE_START_RE line); cbn [andb].
    + destruct (head_line line) as [[h|]|e]; cbn [bind] in H;
        [| |discriminate]; apply IH in H; rewrite H;
        destruct cur; cbn; rewrite ?length_app; cbn; lia.
    + destruct cur; apply IH in H; rewrite H; cbn; lia.
Qed.

(** X11: A page gives one record for each line that starts a transaction and
    that the head decoder accepts, and no other record. *)
Theorem page_record_count (lines : list str) (txs : list Tx) :
  parse_page lines = Ok txs ->
  List.length txs = List.length (filter (fun l => accepted l) lines)
  /\ List.length txs <= List.length lines.
Proof.
  intros H. apply page_loop_count in H. cbn [fst snd List.length] in H.
  split; [exact H|]. rewrite H. apply filter_length_le.
Qed.

Lemma page_loop_total (lines : list str) :
  Forall (fun l => DATE_START_RE l = true -> is_ok (head_line l) = true)
         lines ->
  forall st, exists txs, page_loop lines st = Ok txs.
Proof.
  induction 1 as [|line rest Hl _ IH]; intros st; cbn [Freedom.page_loop].
  - eauto.
  - destruct (DATE_START_RE line).
    + specialize (Hl eq_refl).
      destruct (head_line line) as [[h|]|e]; cbn [bind];
        [apply IH | apply IH | discriminate Hl].
    + destruct (snd st); apply IH.
Qed.

Lemma page_loop_heads_ok (lines : list str) :
  forall st txs,
    page_loop lines st = Ok txs ->
    Forall (fun l => DATE_START_RE l = true -> is_ok (head_line l) = true)
           lines.
Proof.
  induction lines as [|line rest IH]; intros st txs H; constructor;
    cbn [Freedom.page_loop] in H.
  - intros Hs. rewrite Hs in H.
    destruct (head_line line); [reflexivity | discriminate H].
  - destruct (DATE_START_RE line).
    + destruct (head_line line) as [[h|]|e]; cbn [bind] in H;
        [| |discriminate]; now apply IH in H.
    + destruct (snd st); now apply IH in H.
Qed.

(** X12: [parse_freedom_pdf] returns its records exactly when the head decoder
    raises on no transaction-start line of the document; otherwise the
    exception of the decoder leaves the entry point. *)
Theorem freedom_returns_iff (pages : list (option str)) :
  (exists txs, parse_freedom_pdf pages = Ok txs)
  <-> (forall text line,
          In (Some text) pages -> In line (Freedom.page_lines text) ->
          DATE_START_RE line = true -> is_ok (head_line line) = true).
Proof.
  unfold Freedom.parse_freedom_pdf.
  assert (G : forall acc,
             (exists txs, pages_loop pages acc = Ok txs)
             <-> (forall text line,
                     In (Some text) pages ->
                     In line (Freedom.page_lines text) ->
                     DATE_START_RE line = true ->
                     is_ok (head_line line) = true)).
  { induction pages as [|[text|] rest IH]; intros acc;
      cbn [Freedom.pages_loop].
    - split; [intros _ t l [] | eauto].
    - destruct (is_nil text) eqn:En.
      + rewrite IH. split.
        * intros H t l [E|Hin]; [|now apply H].
          injection E as <-. destruct text; [intros [] | discriminate En].
        * intros H t l Hin. apply H. now right.
      + split.
        * intros [txs H] t l [E|Hin].
          -- injection E as <-.
             destruct (parse_page (Freedom.page_lines text)) as [p|e]
               eqn:Ep; [|discriminate H].
             unfold Freedom._parse_page in Ep.
             apply page_loop_heads_ok in Ep.
             rewrite Forall_forall in Ep. apply Ep.
          -- destruct (parse_page (Freedom.page_lines text)) as [p|e];
               [|discriminate H]. cbn [bind] in H.
             apply (proj1 (IH (acc ++ p))); eauto.
        * intros H.
          destruct (page_loop_total (Freedom.page_lines text)) with
            (st := (@nil Tx, @None Tx)) as [p Hp].
          { apply Forall_forall. intros l Hl. apply (H text); auto.
            now left. }
          unfold Freedom._parse_page. rewrite Hp. cbn [bind].
          apply IH. intros t l Hin. apply H. now right.
    - rewrite IH. split.
      + intros H t l [E|Hin]; [discriminate E | now apply H].
      + intros H t l Hin. apply H. now right. }
  rewrite <- (G []). split.
  - intros [txs H]. destruct (pages_loop pages []); [eauto | discriminate].
  - intros [txs H]. rewrite H. cbn. eauto.
Qed.

End Documents.

Lemma freedom_records_shape_witness :
  exists txs,
    Sample.parse_freedom_pdf [Some Sample.expense_line] = Ok txs
    /\ Forall (fun r => source r = Some freedom
                        /\ transfer_type r = None
                        /\ exists raw, description r
                                       = Sample.clean_description raw) txs.
Proof.
  eexists. split; [vm_compute; reflexivity|].
  apply (freedom_records_shape
           Sample.lower Sample.capitalize Sample.strptime_dmY
           Sample.FOOTER_MARKERS Sample.NOISE_PATTERNS Sample.DATE_START_RE
           Sample.TX_HEAD_RE Sample.KNOWN_OPERATIONS
           [Some Sample.expense_line]).
  vm_compute. reflexivity.
Defined.

Lemma page_record_count_witness :
  exists txs,
    Freedom._parse_page Sample.lower Sample.capitalize Sample.strptime_dmY
      Sample.FOOTER_MARKERS Sample.NOISE_PATTERNS Sample.DATE_START_RE
      Sample.TX_HEAD_RE Sample.KNOWN_OPERATIONS
      [u "Выписка"; Sample.expense_line; u "за интернет";
       u "01.01.2025 итог"; Sample.income_line] = Ok txs
    /\ List.length txs = 2.
Proof.
  eexists. split; [vm_compute; reflexivity|].
  etransitivity.
  - apply (page_record_count
             Sample.lower Sample.capitalize Sample.strptime_dmY
             Sample.FOOTER_MARKERS Sample.NOISE_PATTERNS
             Sample.DATE_START_RE Sample.TX_HEAD_RE Sample.KNOWN_OPERATIONS
             [u "Выписка"; Sample.expense_line; u "за интернет";
              u "01.01.2025 итог"; Sample.income_line]).
    vm_compute. reflexivity.
  - vm_compute. reflexivity.
Defined.

Lemma leading_lines_dropped_witness :
  Forall (fun l => Sample.DATE_START_RE l = false)
         [u "Выписка по счету"; u "Страница 1"]
  /\ Freedom._parse_page Sample.lower Sample.capitalize Sample.strptime_dmY
       Sample.FOOTER_MARKERS Sample.NOISE_PATTERNS Sample.DATE_START_RE
       Sample.TX_HEAD_RE Sample.KNOWN_OPERATIONS
       ([u "Выписка по счету"; u "Страница 1"] ++ [Sample.expense_line])
     = Freedom._parse_page Sample.lower Sample.capitalize
         Sample.strptime_dmY Sample.FOOTER_MARKERS Sample.NOISE_PATTERNS
         Sample.DATE_START_RE Sample.TX_HEAD_RE Sample.KNOWN_OPERATIONS
         [Sample.expense_line].
Proof.
  assert (H : Forall (fun l => Sample.DATE_START_RE l = false)
                     [u "Выписка по счету"; u "Страница 1"])
    by (repeat constructor).
  split; [exact H|].
  apply (leading_lines_dropped
           Sample.lower Sample.capitalize Sample.strptime_dmY
           Sample.FOOTER_MARKERS Sample.NOISE_PATTERNS Sample.DATE_START_RE
           Sample.TX_HEAD_RE Sample.KNOWN_OPERATIONS _ _ H).
Defined.

Lemma block_record_witness :
  exists h txs,
    Sample.freedom_head Sample.expense_line = Ok (Some h)
    /\ Freedom._parse_page Sample.lower Sample.capitalize Sample.strptime_dmY
         Sample.FOOTER_MARKERS Sample.NOISE_PATTERNS Sample.DATE_START_RE
         Sample.TX_HEAD_RE Sample.KNOWN_OPERATIONS
         (Sample.expense_line :: [u "за интернет"; u "и связь"]
            ++ [Sample.income_line]) = Ok txs
    /\ map description txs
       = [u "Безвозмездный перевод за интернет и связь"; u "Зарплата"].
Proof.
  eexists. eexists. split; [vm_compute; reflexivity|]. split.
  - etransitivity.
    + apply (block_record
               Sample.lower Sample.capitalize Sample.strptime_dmY
               Sample.FOOTER_MARKERS Sample.NOISE_PATTERNS
               Sample.DATE_START_RE Sample.TX_HEAD_RE
               Sample.KNOWN_OPERATIONS Sample.expense_line
               [u "за интернет"; u "и связь"] [Sample.income_line]).
      * vm_compute. reflexivity.
      * vm_compute. reflexivity.
      * repeat constructor.
      * right. exists Sample.income_line, []. split; [reflexivity|].
        vm_compute. reflexivity.
    + vm_compute. reflexivity.
  - vm_compute. reflexivity.
Defined.

Lemma rejected_head_dropped_witness :
  Sample.DATE_START_RE (u "01.01.2025 итог за день") = true
  /\ Sample.freedom_head (u "01.01.2025 итог за день") = Ok None
  /\ Freedom._parse_page Sample.lower Sample.capitalize Sample.strptime_dmY
       Sample.FOOTER_MARKERS Sample.NOISE_PATTERNS Sample.DATE_START_RE
       Sample.TX_HEAD_RE Sample.KNOWN_OPERATIONS
       (u "01.01.2025 итог за день" :: [u "продолжение"]
          ++ [Sample.income_line])
     = Freedom._parse_page Sample.lower Sample.capitalize
         Sample.strptime_dmY Sample.FOOTER_MARKERS Sample.NOISE_PATTERNS
         Sample.DATE_START_RE Sample.TX_HEAD_RE Sample.KNOWN_OPERATIONS
         [Sample.income_line].
Proof.
  split; [vm_compute; reflexivity|]. split; [vm_compute; reflexivity|].
  apply (rejected_head_dropped
           Sample.lower Sample.capitalize Sample.strptime_dmY
           Sample.FOOTER_MARKERS Sample.NOISE_PATTERNS Sample.DATE_START_RE
           Sample.TX_HEAD_RE Sample.KNOWN_OPERATIONS).
  - vm_compute. reflexivity.
  - vm_compute. reflexivity.
  - repeat constructor.
Defined.

(** *** The lines of a page *)

Lemma in_lstrip (c : char) (s : str) : In c (lstrip s) -> In c s.
Proof.
  destruct (lstrip_suffix s) as [w E]. intros H. rewrite E.
  apply in_or_app. now right.
Qed.

Lemma in_rstrip (c : char) (s : str) : In c (rstrip s) -> In c s.
Proof.
  destruct (rstrip_prefix s) as [w E]. intros H. rewrite E.
  apply in_or_app. now left.
Qed.

Lemma split_lines_aux_no_newline (s : str) :
  forall cur, ~ In c_newline cur ->
              Forall (fun l => ~ In c_newline l) (split_lines_aux cur s).
Proof.
  induction s as [|c t IH]; intros cur Hc; cbn [split_lines_aux].
  - constructor; [|constructor]. now rewrite <- in_rev.
  - destruct (char_eqb c c_newline) eqn:E.
    + constructor; [now rewrite <- in_rev|]. apply IH. intros [].
    + apply IH. intros [->|H]; [|now apply Hc].
      unfold char_eqb in E. now rewrite N.eqb_refl in E.
Qed.

(** X13: The lines a page is cut into are not empty, neither begin nor end
    with white space, and hold no line feed. *)
Theorem page_lines_trimmed (text : str) :
  Forall (fun l => l <> []
                   /\ head_ok l = true /\ head_ok (rev l) = true
                   /\ ~ In c_newline l)
         (Freedom.page_lines text).
Proof.
  unfold Freedom.page_lines. apply Forall_forall. intros l Hl.
  apply in_map_iff in Hl as (l0 & <- & Hl0).
  apply filter_In in Hl0 as [Hin Hne].
  split; [|split; [|split]].
  - destruct (strip l0); [discriminate Hne | discriminate].
  - unfold strip. apply rstrip_head_ok, lstrip_head_ok.
  - unfold strip, rstrip. rewrite rev_involutive. apply lstrip_head_ok.
  - intros H. unfold strip in H. apply in_rstrip, in_lstrip in H.
    pose proof (split_lines_aux_no_newline text [] (fun f => f)) as F.
    rewrite Forall_forall in F. now apply (F l0).
Qed.

(** ** The tabular extraction *)

(** *** Substrings of joined cells *)

Lemma startswith_iff (p s : str) :
  startswith p s = true <-> exists q, s = p ++ q.
Proof.
  revert s. induction p as [|x p IH]; intros s; cbn [startswith].
  - split; [intros _; now exists s | reflexivity].
  - destruct s as [|y s].
    + split; [discriminate | intros (q & H); discriminate H].
    + rewrite andb_true_iff, char_eqb_eq, IH. split.
      * intros [-> (q & ->)]. now exists q.
      * intros (q & H). injection H as -> ->. split; [reflexivity|].
        now exists q.
Qed.

Lemma contains_iff (sub s : str) :
  contains sub s = true <-> exists p q, s = p ++ sub ++ q.
Proof.
  unfold contains. split.
  - destruct (find sub s) as [i|] eqn:E; [|discriminate]. intros _.
    apply find_occurs in E as [[_ O] _].
    apply startswith_iff in O as (q & O).
    exists (firstn i s), q. now rewrite <- O, firstn_skipn.
  - intros (p & q & ->).
    destruct (find sub (p ++ sub ++ q)) eqn:E; [reflexivity|].
    exfalso. apply (find_none _ _ E (List.length p)). split.
    + rewrite length_app. lia.
    + rewrite skipn_app, skipn_all, Nat.sub_diag. cbn [app skipn].
      apply startswith_iff. now exists q.
Qed.

Lemma prefix_before_separator (ind a b q : str) (sep : char) :
  ~ In sep ind -> ind ++ q = a ++ sep :: b -> exists q', a = ind ++ q'.
Proof.
  revert a. induction ind as [|y ind IH]; intros a Hn H.
  - now exists a.
  - destruct a as [|x a]; cbn [app] in H; injection H as -> H.
    + exfalso. apply Hn. now left.
    + destruct (IH a) as (q' & ->); [|assumption|now exists q'].
      intros Hin. apply Hn. now right.
Qed.

Lemma infix_of_separated (ind a b : str) (sep : char) :
  ind <> [] -> ~ In sep ind ->
  (exists p q, a ++ sep :: b = p ++ ind ++ q) ->
  (exists p q, a = p ++ ind ++ q) \/ (exists p q, b = p ++ ind ++ q).
Proof.
  intros Hne Hn. induction a as [|x a IH]; intros (p & q & H).
  - destruct p as [|y p]; cbn [app] in H.
    + destruct ind as [|y ind]; [congruence|]. injection H as -> _.
      exfalso. apply Hn. now left.
    + injection H as _ ->. right. now exists p, q.
  - destruct p as [|y p]; cbn [app] in H.
    + symmetry in H.
      apply (prefix_before_separator ind (x :: a) b q sep Hn) in H
        as (q' & ->).
      left. now exists [], q'.
    + injection H as -> H. destruct IH as [(p' & q' & ->)|R].
      * now exists p, q.
      * left. now exists (y :: p'), q'.
      * now right.
Qed.

Lemma contains_join_space (ind : str) (cells : list str) :
  ind <> [] -> ~ In c_space ind ->
  contains ind (Kaspi.join_space cells) = true
  <-> exists cell, In cell cells /\ contains ind cell = true.
Proof.
  intros Hne Hn. rewrite contains_iff.
  induction cells as [|c rest IH].
  - cbn. split.
    + intros (p & q & H). destruct p; [|discriminate H].
      destruct ind; [congruence | discriminate H].
    + intros (cell & [] & _).
  - destruct rest as [|c' rest'].
    + cbn [Kaspi.join_space]. rewrite <- contains_iff. split.
      * intros H. exists c. split; [now left | assumption].
      * intros (cell & [<-|[]] & H). assumption.
    + change (Kaspi.join_space (c :: c' :: rest'))
        with (c ++ c_space :: Kaspi.join_space (c' :: rest')).
      split.
      * intros H. apply infix_of_separated in H as [H|H]; try assumption.
        -- exists c. split; [now left | now apply contains_iff].
        -- apply IH in H as (cell & Hin & Hc). exists cell.
           split; [now right | assumption].
      * intros (cell & [<-|Hin] & Hc).
        -- apply contains_iff in Hc as (p & q & ->).
           exists p, (q ++ c_space :: Kaspi.join_space (c' :: rest')).
           now rewrite <- !app_assoc.
        -- destruct (proj2 IH) as (p & q & E); [now exists cell|].
           exists (c ++ c_space :: p), q. rewrite E.
           now rewrite <- app_assoc.
Qed.

Section Rows.

Variable lower : str -> str.
Variable capitalize : str -> str.
Variable strptime_dmy : str -> option Date.
Variable re_digit : char -> bool.
Variable FOOTER_MARKERS : list str.
Variable NOISE_PATTERNS : list (str -> str).

Local Abbreviation clean :=
  (Cleaner.clean_description lower FOOTER_MARKERS NOISE_PATTERNS).
Local Abbreviation looks_like_header := (Kaspi._looks_like_header lower).
Local Abbreviation looks_like_row :=
  (Kaspi._looks_like_transaction_row re_digit).
Local Abbreviation scan_header := (Kaspi.scan_header lower).
Local Abbreviation decode_row :=
  (Kaspi.decode_row lower capitalize strptime_dmy FOOTER_MARKERS
     NOISE_PATTERNS).
Local Abbreviation row_step :=
  (Kaspi.row_step lower capitalize strptime_dmy re_digit FOOTER_MARKERS
     NOISE_PATTERNS).
Local Abbreviation table_loop :=
  (Kaspi.table_loop lower capitalize strptime_dmy re_digit FOOTER_MARKERS
     NOISE_PATTERNS).
Local Abbreviation page_step :=
  (Kaspi.page_step lower capitalize strptime_dmy re_digit FOOTER_MARKERS
     NOISE_PATTERNS).
Local Abbreviation pages_loop :=
  (Kaspi.pages_loop lower capitalize strptime_dmy re_digit FOOTER_MARKERS
     NOISE_PATTERNS).
Local Abbreviation parse_kaspi_pdf :=
  (Kaspi.parse_kaspi_pdf lower capitalize strptime_dmy re_digit
     FOOTER_MARKERS NOISE_PATTERNS).
Local Abbreviation row_records :=
  (KaspiSpec.row_records lower capitalize strptime_dmy re_digit
     FOOTER_MARKERS NOISE_PATTERNS).
Local Abbreviation headerless := (KaspiSpec.headerless lower).

(** *** Header rows *)

Lemma indicator_in_header (ind : str) (row : list str) :
  ind <> [] -> ~ In c_space ind ->
  contains ind
    (Kaspi.join_space (map lower (filter (fun cell => negb (is_nil cell)) row)))
  = true
  <-> exists cell, In cell row /\ cell <> []
                   /\ contains ind (lower cell) = true.
Proof.
  intros Hne Hn. rewrite (contains_join_space _ _ Hne Hn). split.
  - intros (l & Hl & Hc). apply in_map_iff in Hl as (cell & <- & Hin).
    apply filter_In in Hin as [Hin Hnil]. exists cell.
    repeat split; try assumption. intros ->. discriminate Hnil.
  - intros (cell & Hin & Hnil & Hc). exists (lower cell).
    split; [|assumption]. apply in_map, filter_In.
    split; [assumption|]. now destruct cell.
Qed.

Lemma scan_header_known (row : list str) :
  forall i c,
    (Kaspi.idx_date c <> None ->
     Kaspi.idx_date (scan_header i row c) <> None)
    /\ (Kaspi.idx_amount c <> None ->
        Kaspi.idx_amount (scan_header i row c) <> None)
    /\ (Kaspi.idx_operation c <> None ->
        Kaspi.idx_operation (scan_header i row c) <> None)
    /\ (Kaspi.idx_details c <> None ->
        Kaspi.idx_details (scan_header i row c) <> None).
Proof.
  induction row as [|cell rest IH]; intros i c; cbn [Kaspi.scan_header].
  - now repeat split.
  - repeat split; intros H; apply IH;
      repeat match goal with
             | |- context [if ?b then _ else _] => destruct b
             end; cbn; first [assumption | discriminate].
Qed.

Lemma scan_header_date_set (row : list str) :
  forall i c,
    (exists cell, In cell row /\ contains (u "дата") (lower cell) = true) ->
    Kaspi.idx_date (scan_header i row c) <> None.
Proof.
  induction row as [|cell rest IH]; intros i c (x & Hin & Hc).
  - destruct Hin.
  - cbn [Kaspi.scan_header].
    destruct (contains (u "дата") (lower cell)) eqn:E.
    + apply scan_header_known. discriminate.
    + destruct Hin as [<-|Hin]; [congruence|]. apply IH. now exists x.
Qed.

(** X14: A row is taken for a header exactly when, for each of the date,
    amount and operation indicators, some non-empty cell contains it in
    lower case; such a row always leaves the date index known, and never
    makes a known index unknown. *)
Theorem header_row_detection
        (c : Kaspi.Cols) (txs : list Tx) (raw : list (option str)) :
  let row := Kaspi.normalize_row raw in
  let present ind :=
    exists cell, In cell row /\ cell <> []
                 /\ contains ind (lower cell) = true in
  (looks_like_header row = true
   <-> present (u "дата") /\ present (u "сумм") /\ present (u "операц"))
  /\ (looks_like_header row = true ->
      let c' := fst (row_step (c, txs) raw) in
      Kaspi.idx_date c' <> None
      /\ (Kaspi.idx_amount c <> None -> Kaspi.idx_amount c' <> None)
      /\ (Kaspi.idx_operation c <> None -> Kaspi.idx_operation c' <> None)
      /\ (Kaspi.idx_details c <> None -> Kaspi.idx_details c' <> None)).
Proof.
  intros row present.
  assert (Hiff : looks_like_header row = true
                 <-> present (u "дата") /\ present (u "сумм")
                     /\ present (u "операц")).
  { unfold Kaspi._looks_like_header, present.
    rewrite !andb_true_iff, !indicator_in_header;
      try discriminate;
      try (intros H; vm_compute in H;
           repeat (destruct H as [H|H]; [discriminate H|]); exact H).
    tauto. }
  split; [exact Hiff|].
  intros Hh c'. subst c'. unfold Kaspi.row_step. cbn [fst snd].
  fold row. rewrite Hh. cbn [fst].
  apply Hiff in Hh as [(cell & Hin & _ & Hc) _].
  split; [apply scan_header_date_set; now exists cell|].
  pose proof (scan_header_known row 0 c) as (_ & Ha & Ho & Hd).
  now repeat split.
Qed.

End Rows.

Lemma header_row_detection_witness :
  Kaspi._looks_like_header Sample.lower
    (Kaspi.normalize_row [Sample.cell "Дата и сумма операции"]) = true
  /\ Kaspi.idx_date
       (fst (Sample.kaspi_row_step (Kaspi.no_cols, [])
               [Sample.cell "Дата и сумма операции"])) <> None
  /\ fst (Sample.kaspi_row_step (Kaspi.no_cols, [])
            [Sample.cell "Дата и сумма операции"])
     = Kaspi.mkCols (Some 0) None None None.
Proof.
  split; [vm_compute; reflexivity|]. split; [|vm_compute; reflexivity].
  apply (header_row_detection
           Sample.lower Sample.capitalize Sample.strptime_dmy
           Sample.re_digit Sample.FOOTER_MARKERS Sample.NOISE_PATTERNS
           Kaspi.no_cols [] [Sample.cell "Дата и сумма операции"]).
  vm_compute. reflexivity.
Defined.

Section Extraction.

Variable lower : str -> str.
Variable capitalize : str -> str.
Variable strptime_dmy : str -> option Date.
Variable re_digit : char -> bool.
Variable FOOTER_MARKERS : list str.
Variable NOISE_PATTERNS : list (str -> str).

Local Abbreviation clean :=
  (Cleaner.clean_description lower FOOTER_MARKERS NOISE_PATTERNS).
Local Abbreviation looks_like_header := (Kaspi._looks_like_header lower).
Local Abbreviation looks_like_row :=
  (Kaspi._looks_like_transaction_row re_digit).
Local Abbreviation scan_header := (Kaspi.scan_header lower).
Local Abbreviation decode_row :=
  (Kaspi.decode_row lower capitalize strptime_dmy FOOTER_MARKERS
     NOISE_PATTERNS).
Local Abbreviation row_step :=
  (Kaspi.row_step lower capitalize strptime_dmy re_digit FOOTER_MARKERS
     NOISE_PATTERNS).
Local Abbreviation table_loop :=
  (Kaspi.table_loop lower capitalize strptime_dmy re_digit FOOTER_MARKERS
     NOISE_PATTERNS).
Local Abbreviation page_step :=
  (Kaspi.page_step lower capitalize strptime_dmy re_digit FOOTER_MARKERS
     NOISE_PATTERNS).
Local Abbreviation pages_loop :=
  (Kaspi.pages_loop lower capitalize strptime_dmy re_digit FOOTER_MARKERS
     NOISE_PATTERNS).
Local Abbreviation parse_kaspi_pdf :=
  (Kaspi.parse_kaspi_pdf lower capitalize strptime_dmy re_digit
     FOOTER_MARKERS NOISE_PATTERNS).
Local Abbreviation row_records :=
  (KaspiSpec.row_records lower capitalize strptime_dmy re_digit
     FOOTER_MARKERS NOISE_PATTERNS).
Local Abbreviation headerless := (KaspiSpec.headerless lower).

(** *** The records never depend on the records before them *)

Lemma row_step_acc (c : Kaspi.Cols) (txs : list Tx)
      (raw : list (option str)) :
  row_step (c, txs) raw
  = (fst (row_step (c, []) raw), txs ++ row_records c raw).
Proof.
  unfold KaspiSpec.row_records, Kaspi.row_step. cbn [fst snd].
  destruct (looks_like_header _); cbn [fst snd];
    [now rewrite app_nil_r|].
  destruct (Kaspi.idx_date c); [|now rewrite app_nil_r].
  destruct (Kaspi.idx_amount c); [|now rewrite app_nil_r].
  destruct (Kaspi.idx_operation c); [|now rewrite app_nil_r].
  destruct (negb _); [now rewrite app_nil_r|].
  destruct (decode_row _ _ _ _ _) as [[tx|]|e]; cbn [fst snd];
    now rewrite ?app_nil_r.
Qed.

Lemma table_loop_acc (table : list (list (option str))) :
  forall c txs,
    table_loop table (c, txs)
    = (fst (table_loop table (c, [])),
       txs ++ snd (table_loop table (c, []))).
Proof.
  unfold Kaspi.table_loop.
  induction table as [|raw rest IH]; intros c txs; cbn [fold_left].
  - cbn. now rewrite app_nil_r.
  - rewrite (row_step_acc c txs), (row_step_acc c []).
    cbn [app]. rewrite (IH _ (txs ++ _)), (IH _ (row_records c raw)).
    cbn [fst snd]. now rewrite app_assoc.
Qed.

Lemma page_step_acc (page : option (list (list (option str))))
      (c : Kaspi.Cols) (txs : list Tx) :
  page_step (c, txs) page
  = (fst (page_step (c, []) page), txs ++ snd (page_step (c, []) page)).
Proof.
  unfold Kaspi.page_step. destruct page as [table|];
    [|cbn; now rewrite app_nil_r].
  destruct (is_nil table); [cbn; now rewrite app_nil_r|].
  apply table_loop_acc.
Qed.

Lemma pages_loop_kaspi_acc
      (pages : list (option (list (list (option str))))) :
  forall c txs,
    pages_loop pages (c, txs)
    = (fst (pages_loop pages (c, [])),
       txs ++ snd (pages_loop pages (c, []))).
Proof.
  unfold Kaspi.pages_loop.
  induction pages as [|page rest IH]; intros c txs; cbn [fold_left].
  - cbn. now rewrite app_nil_r.
  - rewrite (page_step_acc page c txs).
    destruct (page_step (c, []) page) as [c1 t1]. cbn [fst snd].
    rewrite (IH c1 (txs ++ t1)), (IH c1 t1). cbn [fst snd].
    now rewrite app_assoc.
Qed.

(** X15: Later pages neither change nor reorder the records of earlier
    pages: the records of a document are those of its first pages,
    followed by the records the other pages give with the column indices
    the first pages leave; a page without a table adds nothing. *)
Theorem kaspi_pages_compose
        (ps1 ps2 : list (option (list (list (option str))))) :
  parse_kaspi_pdf (ps1 ++ ps2)
  = parse_kaspi_pdf ps1
      ++ snd (pages_loop ps2 (fst (pages_loop ps1 (Kaspi.no_cols, [])), []))
  /\ parse_kaspi_pdf (ps1 ++ None :: ps2) = parse_kaspi_pdf (ps1 ++ ps2)
  /\ parse_kaspi_pdf (ps1 ++ Some [] :: ps2) = parse_kaspi_pdf (ps1 ++ ps2).
Proof.
  unfold Kaspi.parse_kaspi_pdf, Kaspi.pages_loop.
  rewrite !fold_left_app. cbn [fold_left Kaspi.page_step is_nil].
  split; [|split; reflexivity].
  fold (pages_loop ps1 (Kaspi.no_cols, [])).
  destruct (pages_loop ps1 (Kaspi.no_cols, [])) as [c1 t1].
  fold (pages_loop ps2 (c1, t1)). fold (pages_loop ps2 (c1, [])).
  now rewrite pages_loop_kaspi_acc.
Qed.

(** X16: A document without a header row gives no record: the column indices
    are never learned. *)
Theorem no_header_no_record
        (pages : list (option (list (list (option str))))) :
  Forall headerless pages -> parse_kaspi_pdf pages = [].
Proof.
  intros H. unfold Kaspi.parse_kaspi_pdf.
  rewrite (pages_loop_headerless lower capitalize strptime_dmy re_digit
             FOOTER_MARKERS NOISE_PATTERNS pages Kaspi.no_cols [] H).
  cbn [snd app].
  apply page_records_unknown; [now left | assumption].
Qed.

(** *** The cells a header row points to *)

Lemma scan_header_targets (row : list str) :
  forall i c,
    let c' := scan_header i row c in
    (Kaspi.idx_date c' = Kaspi.idx_date c
     \/ exists k cell, Kaspi.idx_date c' = Some (i + k)
                       /\ nth_error row k = Some cell
                       /\ contains (u "дата") (lower cell) = true)
    /\ (Kaspi.idx_amount c' = Kaspi.idx_amount c
        \/ exists k cell, Kaspi.idx_amount c' = Some (i + k)
                          /\ nth_error row k = Some cell
                          /\ contains (u "сумм") (lower cell) = true)
    /\ (Kaspi.idx_operation c' = Kaspi.idx_operation c
        \/ exists k cell, Kaspi.idx_operation c' = Some (i + k)
                          /\ nth_error row k = Some cell
                          /\ contains (u "операц") (lower cell) = true)
    /\ (Kaspi.idx_details c' = Kaspi.idx_details c
        \/ exists k cell, Kaspi.idx_details c' = Some (i + k)
                          /\ nth_error row k = Some cell
                          /\ contains (u "детал") (lower cell) = true).
Proof.
  induction row as [|cell rest IH]; intros i c; cbn zeta;
    cbn [Kaspi.scan_header].
  - repeat split; now left.
  - match goal with
    | |- context [scan_header (S i) rest ?c1] =>
        set (c1' := c1); specialize (IH (S i) c1'); cbn zeta in IH
    end.
    destruct IH as (Id & Ia & Io & Idt).
    assert (shift : forall (get : Kaspi.Cols -> option nat) (ind : str),
               (get (scan_header (S i) rest c1') = get c1'
                \/ exists k x, get (scan_header (S i) rest c1')
                               = Some (S i + k)
                               /\ nth_error rest k = Some x
                               /\ contains ind (lower x) = true) ->
               (get c1' = get c
                \/ get c1' = Some i
                   /\ contains ind (lower cell) = true) ->
               get (scan_header (S i) rest c1') = get c
               \/ exists k x, get (scan_header (S i) rest c1')
                              = Some (i + k)
                              /\ nth_error (cell :: rest) k = Some x
                              /\ contains ind (lower x) = true).
    { intros get ind [E|(k & x & E & Hn & Hc)] Hstep.
      - rewrite E. destruct Hstep as [E'|[E' Hc]]; [now left|].
        right. exists 0, cell. rewrite Nat.add_0_r. now repeat split.
      - right. exists (S k), x.
        replace (i + S k) with (S i + k) by lia. now repeat split. }
    repeat split.
    + apply (shift Kaspi.idx_date _ Id). subst c1'.
      destruct (contains (u "дата") (lower cell)) eqn:E1; cbn [Kaspi.idx_date Kaspi.idx_amount Kaspi.idx_operation
             Kaspi.idx_details];
        [now right|].
      repeat match goal with
             | |- context [if ?b then _ else _] => destruct b
             end; now left.
    + apply (shift Kaspi.idx_amount _ Ia). subst c1'.
      destruct (contains (u "дата") (lower cell)); cbn [Kaspi.idx_date Kaspi.idx_amount Kaspi.idx_operation
             Kaspi.idx_details]; [now left|].
      destruct (contains (u "сумм") (lower cell)) eqn:E2; cbn [Kaspi.idx_date Kaspi.idx_amount Kaspi.idx_operation
             Kaspi.idx_details];
        [now right|].
      repeat match goal with
             | |- context [if ?b then _ else _] => destruct b
             end; now left.
    + apply (shift Kaspi.idx_operation _ Io). subst c1'.
      destruct (contains (u "дата") (lower cell)); cbn [Kaspi.idx_date Kaspi.idx_amount Kaspi.idx_operation
             Kaspi.idx_details]; [now left|].
      destruct (contains (u "сумм") (lower cell)); cbn [Kaspi.idx_date Kaspi.idx_amount Kaspi.idx_operation
             Kaspi.idx_details]; [now left|].
      destruct (contains (u "операц") (lower cell)) eqn:E3; cbn [Kaspi.idx_date Kaspi.idx_amount Kaspi.idx_operation
             Kaspi.idx_details];
        [now right|].
      repeat match goal with
             | |- context [if ?b then _ else _] => destruct b
             end; now left.
    + apply (shift Kaspi.idx_details _ Idt). subst c1'.
      destruct (contains (u "дата") (lower cell)); cbn [Kaspi.idx_date Kaspi.idx_amount Kaspi.idx_operation
             Kaspi.idx_details]; [now left|].
      destruct (contains (u "сумм") (lower cell)); cbn [Kaspi.idx_date Kaspi.idx_amount Kaspi.idx_operation
             Kaspi.idx_details]; [now left|].
      destruct (contains (u "операц") (lower cell)); cbn [Kaspi.idx_date Kaspi.idx_amount Kaspi.idx_operation
             Kaspi.idx_details]; [now left|].
      destruct (contains (u "детал") (lower cell)) eqn:E4; cbn [Kaspi.idx_date Kaspi.idx_amount Kaspi.idx_operation
             Kaspi.idx_details];
        [now right | now left].
Qed.

(** X17: An index a header row assigns is the position, in that row, of a
    cell that contains the indicator of the column: the extractor never
    sets an index outside the header row. *)
Theorem header_index_targets
        (c : Kaspi.Cols) (txs : list Tx) (raw : list (option str)) :
  looks_like_header (Kaspi.normalize_row raw) = true ->
  let row := Kaspi.normalize_row raw in
  let c' := fst (row_step (c, txs) raw) in
  (Kaspi.idx_date c' = Kaspi.idx_date c
   \/ exists k cell, Kaspi.idx_date c' = Some k
                     /\ nth_error row k = Some cell
                     /\ contains (u "дата") (lower cell) = true)
  /\ (Kaspi.idx_amount c' = Kaspi.idx_amount c
      \/ exists k cell, Kaspi.idx_amount c' = Some k
                        /\ nth_error row k = Some cell
                        /\ contains (u "сумм") (lower cell) = true)
  /\ (Kaspi.idx_operation c' = Kaspi.idx_operation c
      \/ exists k cell, Kaspi.idx_operation c' = Some k
                        /\ nth_error row k = Some cell
                        /\ contains (u "операц") (lower cell) = true)
  /\ (Kaspi.idx_details c' = Kaspi.idx_details c
      \/ exists k cell, Kaspi.idx_details c' = Some k
                        /\ nth_error row k = Some cell
                        /\ contains (u "детал") (lower cell) = true).
Proof.
  intros Hh row c'. subst c'. unfold Kaspi.row_step. cbn [fst snd].
  rewrite Hh. cbn [fst]. fold row.
  exact (scan_header_targets row 0 c).
Qed.

End Extraction.

Lemma no_header_no_record_witness :
  Forall (KaspiSpec.headerless Sample.lower)
         [Some [Sample.kaspi_row1; Sample.kaspi_row2]; None;
          Some [Sample.kaspi_row3]]
  /\ Sample.parse_kaspi_pdf
       [Some [Sample.kaspi_row1; Sample.kaspi_row2]; None;
        Some [Sample.kaspi_row3]] = [].
Proof.
  assert (H : Forall (KaspiSpec.headerless Sample.lower)
                     [Some [Sample.kaspi_row1; Sample.kaspi_row2]; None;
                      Some [Sample.kaspi_row3]])
    by (repeat constructor).
  split; [exact H|].
  exact (no_header_no_record
           Sample.lower Sample.capitalize Sample.strptime_dmy
           Sample.re_digit Sample.FOOTER_MARKERS Sample.NOISE_PATTERNS _ H).
Defined.

Lemma header_index_targets_witness :
  Kaspi._looks_like_header Sample.lower
    (Kaspi.normalize_row Sample.kaspi_header_short) = true
  /\ exists k cell,
       Kaspi.idx_amount
         (fst (Sample.kaspi_row_step (Kaspi.no_cols, [])
                 Sample.kaspi_header_short)) = Some k
       /\ nth_error (Kaspi.normalize_row Sample.kaspi_header_short) k
          = Some cell
       /\ contains (u "сумм") (Sample.lower cell) = true.
Proof.
  assert (Hh : Kaspi._looks_like_header Sample.lower
                 (Kaspi.normalize_row Sample.kaspi_header_short) = true)
    by (vm_compute; reflexivity).
  split; [exact Hh|].
  destruct (header_index_targets
              Sample.lower Sample.capitalize Sample.strptime_dmy
              Sample.re_digit Sample.FOOTER_MARKERS Sample.NOISE_PATTERNS
              Kaspi.no_cols [] Sample.kaspi_header_short Hh)
    as (_ & [E|T] & _).
  - vm_compute in E. discriminate E.
  - exact T.
Defined.

Section Provenance.

Variable lower : str -> str.
Variable capitalize : str -> str.
Variable strptime_dmy : str -> option Date.
Variable re_digit : char -> bool.
Variable FOOTER_MARKERS : list str.
Variable NOISE_PATTERNS : list (str -> str).

Local Abbreviation clean :=
  (Cleaner.clean_description lower FOOTER_MARKERS NOISE_PATTERNS).
Local Abbreviation looks_like_header := (Kaspi._looks_like_header lower).
Local Abbreviation looks_like_row :=
  (Kaspi._looks_like_transaction_row re_digit).
Local Abbreviation decode_row :=
  (Kaspi.decode_row lower capitalize strptime_dmy FOOTER_MARKERS
     NOISE_PATTERNS).
Local Abbreviation row_step :=
  (Kaspi.row_step lower capitalize strptime_dmy re_digit FOOTER_MARKERS
     NOISE_PATTERNS).
Local Abbreviation table_loop :=
  (Kaspi.table_loop lower capitalize strptime_dmy re_digit FOOTER_MARKERS
     NOISE_PATTERNS).
Local Abbreviation page_step :=
  (Kaspi.page_step lower capitalize strptime_dmy re_digit FOOTER_MARKERS
     NOISE_PATTERNS).
Local Abbreviation pages_loop :=
  (Kaspi.pages_loop lower capitalize strptime_dmy re_digit FOOTER_MARKERS
     NOISE_PATTERNS).
Local Abbreviation parse_kaspi_pdf :=
  (Kaspi.parse_kaspi_pdf lower capitalize strptime_dmy re_digit
     FOOTER_MARKERS NOISE_PATTERNS).
Local Abbreviation row_records :=
  (KaspiSpec.row_records lower capitalize strptime_dmy re_digit
     FOOTER_MARKERS NOISE_PATTERNS).
(** What a record owes to the row it is decoded from. *)
Local Abbreviation from_row r row :=
  (looks_like_row row = true
   /\ (exists cell, In cell row
                    /\ Kaspi._parse_date strptime_dmy cell = Some (date r))
   /\ (exists cell, In cell row
                    /\ Kaspi._parse_amount cell = Ok (amount r))
   /\ (exists cell, In cell row /\ operation r = capitalize cell)
   /\ (exists text, description r = clean text)
   /\ currency r = u "KZT"
   /\ source r = Some kaspi
   /\ transfer_type r = None).

Lemma decode_row_source (i_date i_amount i_operation : nat)
      (i_details : option nat) (row : list str) (r : Tx) :
  decode_row i_date i_amount i_operation i_details row = Ok (Some r) ->
  looks_like_row row = true -> from_row r row.
Proof.
  unfold Kaspi.decode_row, Kaspi.index. intros H Hrow.
  destruct (nth_error row i_date) as [dc|] eqn:Ed; cbn [bind] in H;
    [|discriminate].
  destruct (Kaspi._parse_date strptime_dmy dc) as [dt|] eqn:Edt;
    [|discriminate].
  destruct (nth_error row i_amount) as [ac|] eqn:Ea; cbn [bind] in H;
    [|discriminate].
  destruct (Kaspi._parse_amount ac) as [a|] eqn:Eam; cbn [bind] in H;
    [|discriminate].
  destruct (nth_error row i_operation) as [oc|] eqn:Eo; cbn [bind] in H;
    [|discriminate].
  apply nth_error_In in Ed, Ea, Eo.
  assert (G : forall text,
             Ok (Some (mkTx dt a (u "KZT") (capitalize oc) (clean text)
                         (direction_of a) None (Some kaspi)))
             = Ok (Some r) -> from_row r row).
  { intros text E. injection E as <-. cbn.
    repeat split; try assumption; eauto. }
  destruct i_details as [i|].
  - destruct (nth_error row i) as [d|]; cbn [bind] in H; [|discriminate].
    now apply (G d).
  - cbn [bind] in H. now apply (G []).
Qed.

Lemma row_records_cases (c : Kaspi.Cols) (raw : list (option str)) :
  row_records c raw = []
  \/ exists r, row_records c raw = [r]
               /\ from_row r (Kaspi.normalize_row raw).
Proof.
  unfold KaspiSpec.row_records, Kaspi.row_step. cbn [fst snd].
  destruct (looks_like_header _); [now left|].
  destruct (Kaspi.idx_date c); [|now left].
  destruct (Kaspi.idx_amount c); [|now left].
  destruct (Kaspi.idx_operation c); [|now left].
  destruct (looks_like_row _) eqn:Er; cbn [negb]; [|now left].
  destruct (decode_row _ _ _ _ _) as [[tx|]|e] eqn:E; [|now left..].
  right. exists tx. split; [reflexivity|].
  now apply decode_row_source in E.
Qed.

Lemma table_loop_records (P : Tx -> Prop)
      (table : list (list (option str))) :
  (forall c raw r, In raw table -> row_records c raw = [r] -> P r) ->
  forall c,
    Forall P (snd (table_loop table (c, [])))
    /\ List.length (snd (table_loop table (c, [])))
       <= List.length
            (filter (fun raw => looks_like_row (Kaspi.normalize_row raw))
                    table).
Proof.
  unfold Kaspi.table_loop.
  induction table as [|raw rest IH]; intros H c; cbn [fold_left filter].
  - split; [constructor | cbn; lia].
  - rewrite (row_step_acc lower capitalize strptime_dmy re_digit
               FOOTER_MARKERS NOISE_PATTERNS c [] raw).
    cbn [app].
    pose proof (table_loop_acc lower capitalize strptime_dmy re_digit
                  FOOTER_MARKERS NOISE_PATTERNS rest) as A.
    unfold Kaspi.table_loop in A. rewrite A. cbn [snd].
    destruct (IH (fun c raw r Hin => H c raw r (or_intror Hin))
                 (fst (row_step (c, []) raw))) as [F L].
    destruct (row_records_cases c raw) as [E|(r & E & Hr)].
    + rewrite E. cbn [app]. split; [exact F|].
      destruct (looks_like_row _); cbn [List.length]; lia.
    + rewrite E. cbn [app List.length]. split.
      * constructor; [|exact F]. apply (H c raw); [now left | exact E].
      * destruct Hr as [-> _]. cbn [List.length]. lia.
Qed.

Lemma pages_loop_records (P : Tx -> Prop)
      (pages : list (option (list (list (option str))))) :
  (forall c table raw r,
      In (Some table) pages -> In raw table ->
      row_records c raw = [r] -> P r) ->
  forall c,
    Forall P (snd (pages_loop pages (c, [])))
    /\ List.length (snd (pages_loop pages (c, [])))
       <= List.length
            (filter (fun raw => looks_like_row (Kaspi.normalize_row raw))
                    (flat_map (fun page => match page with
                                           | Some table => table
                                           | None => []
                                           end) pages)).
Proof.
  unfold Kaspi.pages_loop.
  induction pages as [|page rest IH]; intros H c;
    cbn [fold_left flat_map].
  - split; [constructor | cbn; lia].
  - assert (Hrest : forall c table raw r,
               In (Some table) rest -> In raw table ->
               row_records c raw = [r] -> P r).
    { intros c0 t raw r Hin. apply H. now right. }
    pose proof (pages_loop_kaspi_acc lower capitalize strptime_dmy re_digit
                  FOOTER_MARKERS NOISE_PATTERNS rest) as A.
    unfold Kaspi.pages_loop in A.
    rewrite filter_app, length_app.
    destruct page as [table|]; cbn [Kaspi.page_step].
    + destruct (is_nil table) eqn:En.
      * destruct table; [|discriminate En]. cbn [filter List.length].
        apply (IH Hrest).
      * destruct (table_loop_records P table
                    (fun c raw r Hin => H c table raw r
                                          (or_introl eq_refl) Hin) c)
          as [F L].
        destruct (table_loop table (c, [])) as [c1 t1] eqn:E.
        cbn [snd] in F, L. rewrite A. cbn [snd].
        destruct (IH Hrest c1) as [F' L'].
        split; [apply Forall_app; now split|].
        rewrite length_app. lia.
    + cbn [filter List.length]. apply (IH Hrest).
Qed.

(** X18: Every record of [parse_kaspi_pdf] comes from a row of a table of the
    document whose first cell begins like a date: its date, its amount
    and its operation are read from cells of that row, its description
    came out of [clean_description], its currency is "KZT", its source
    [kaspi], and it has no transfer type; and there are no more records
    than such rows. *)
Theorem kaspi_records_from_rows
        (pages : list (option (list (list (option str))))) :
  Forall (fun r =>
            exists table raw,
              In (Some table) pages /\ In raw table
              /\ from_row r (Kaspi.normalize_row raw))
         (parse_kaspi_pdf pages)
  /\ List.length (parse_kaspi_pdf pages)
     <= List.length
          (filter (fun raw => looks_like_row (Kaspi.normalize_row raw))
                  (flat_map (fun page => match page with
                                         | Some table => table
                                         | None => []
                                         end) pages)).
Proof.
  unfold Kaspi.parse_kaspi_pdf. apply pages_loop_records.
  intros c table raw r Hp Hr E. exists table, raw.
  split; [assumption|]. split; [assumption|].
  destruct (row_records_cases c raw) as [E'|(r' & E' & Hfrom)].
  - rewrite E' in E. discriminate E.
  - rewrite E' in E. injection E as <-. exact Hfrom.
Qed.

End Provenance.

(** ** Classification, categories and recurring payments *)

Section AnalyticsProperties.

Variable lower : str -> str.
Variable upper : str -> str.
Variable SELF_KEYWORDS : list str.
Variable FAMILY_KEYWORDS : list str.
Variable CATEGORIES : list (str * list (str -> bool)).

Local Abbreviation contains_any := (Analytics._contains_any lower).
Local Abbreviation classify_one :=
  (Analytics.classify_one lower SELF_KEYWORDS FAMILY_KEYWORDS).
Local Abbreviation classify_transfers :=
  (Analytics.classify_transfers lower SELF_KEYWORDS FAMILY_KEYWORDS).
Local Abbreviation categorize_one :=
  (Analytics.categorize_one upper CATEGORIES).
Local Abbreviation categorize_transactions :=
  (Analytics.categorize_transactions upper CATEGORIES).
Local Abbreviation recurring_payments :=
  (Analytics.recurring_payments upper).
(** The transaction is a transfer to the user's own account. *)
Local Abbreviation self_transfer tx :=
  (str_eqb (operation tx) (u "Перевод")
   && contains_any (description tx) SELF_KEYWORDS).

Lemma classify_one_cases (tx : Tx) :
  (operation tx <> u "Перевод" /\ classify_one tx = tx)
  \/ (operation tx = u "Перевод"
      /\ exists k,
          classify_one tx = set_transfer_type tx k
          /\ (k = self <-> contains_any (description tx) SELF_KEYWORDS = true)
          /\ (k = family <->
              contains_any (description tx) SELF_KEYWORDS = false
              /\ contains_any (description tx) FAMILY_KEYWORDS = true)).
Proof.
  unfold Analytics.classify_one.
  destruct (str_eqb (operation tx) (u "Перевод")) eqn:E; cbn [negb].
  - right. apply str_eqb_eq in E. split; [assumption|].
    destruct (contains_any (description tx) SELF_KEYWORDS).
    + exists self. repeat split; try discriminate; intros [H _];
        discriminate H.
    + destruct (contains_any (description tx) FAMILY_KEYWORDS).
      * exists family. repeat split; discriminate.
      * exists other. repeat split; try discriminate; intros [_ H];
          discriminate H.
  - left. split; [|reflexivity]. intros H. apply str_eqb_eq in H.
    congruence.
Qed.

(** X19: [classify_transfers] keeps the length and the order of the list and
    changes nothing but the transfer type, and that only of the records
    whose operation is "Перевод"; among these a keyword of the user's own
    accounts decides before a family keyword. *)
Theorem classify_transfers_only_types (transactions : list Tx) :
  Forall2
    (fun tx tx' =>
       date tx' = date tx /\ amount tx' = amount tx
       /\ currency tx' = currency tx /\ operation tx' = operation tx
       /\ description tx' = description tx /\ direction tx' = direction tx
       /\ source tx' = source tx
       /\ (operation tx <> u "Перевод" -> tx' = tx)
       /\ (operation tx = u "Перевод" ->
           transfer_type tx' <> None
           /\ (transfer_type tx' = Some self <->
               contains_any (description tx) SELF_KEYWORDS = true)
           /\ (transfer_type tx' = Some family <->
               contains_any (description tx) SELF_KEYWORDS = false
               /\ contains_any (description tx) FAMILY_KEYWORDS = true)))
    transactions (classify_transfers transactions).
Proof.
  unfold Analytics.classify_transfers.
  induction transactions as [|tx rest IH]; cbn [map]; constructor;
    [|exact IH].
  destruct (classify_one_cases tx) as [[Hn ->]|(Ho & k & -> & Hs & Hf)].
  - do 7 (split; [reflexivity|]). split; [reflexivity|].
    intros H. congruence.
  - do 7 (split; [reflexivity|]). split; [intros H; congruence|].
    intros _. cbn [transfer_type set_transfer_type].
    split; [discriminate|]. split; split.
    + intros H. injection H as H. now apply Hs.
    + intros H. f_equal. now apply Hs.
    + intros H. injection H as H. now apply Hf.
    + intros H. f_equal. now apply Hf.
Qed.

(** X20: Classifying twice is the same as classifying once. *)
Theorem classify_transfers_idempotent (transactions : list Tx) :
  classify_transfers (classify_transfers transactions)
  = classify_transfers transactions.
Proof.
  unfold Analytics.classify_transfers. rewrite map_map.
  apply map_ext. intros tx. unfold Analytics.classify_one.
  destruct (str_eqb (operation tx) (u "Перевод")) eqn:E; cbn [negb].
  - destruct (contains_any (description tx) SELF_KEYWORDS) eqn:Es;
      [|destruct (contains_any (description tx) FAMILY_KEYWORDS) eqn:Ef];
      cbn [set_transfer_type operation description]; rewrite E;
      cbn [negb]; rewrite Es, ?Ef; reflexivity.
  - now rewrite E.
Qed.

(** X21: On records that have no transfer type yet, as the extractors emit
    them, classifying and then filtering removes exactly the transfers
    whose description holds a keyword of the user's own accounts; every
    other record is kept, in order, and no kept record is a transfer to
    oneself. *)
Theorem self_transfers_removed (transactions : list Tx) :
  Forall (fun tx => transfer_type tx = None) transactions ->
  Analytics.filter_self_transfers (classify_transfers transactions)
  = classify_transfers
      (filter (fun tx => negb (self_transfer tx)) transactions)
  /\ Forall (fun tx => transfer_type tx <> Some self)
            (Analytics.filter_self_transfers
               (classify_transfers transactions)).
Proof.
  intros H. split.
  - unfold Analytics.filter_self_transfers, Analytics.classify_transfers.
    induction H as [|tx rest Hn _ IH]; cbn [map filter]; [reflexivity|].
    rewrite IH. unfold Analytics.classify_one at 1 3.
    destruct (str_eqb (operation tx) (u "Перевод")); cbn [negb andb].
    + destruct (contains_any (description tx) SELF_KEYWORDS);
        cbn [negb transfer_type set_transfer_type]; [reflexivity|].
      destruct (contains_any (description tx) FAMILY_KEYWORDS);
        cbn [transfer_type set_transfer_type map]; reflexivity.
    + rewrite Hn. reflexivity.
  - apply Forall_forall. intros tx Hin.
    unfold Analytics.filter_self_transfers in Hin.
    apply filter_In in Hin as [_ Hf]. intros E. rewrite E in Hf.
    discriminate Hf.
Qed.

(** X22: The category of a record is the name of the first entry of
    [CATEGORIES], other than an entry named "Прочее", one of whose
    patterns matches the description in upper case, and "Прочее" when
    there is none: an entry named "Прочее" never ends the search.  The
    records themselves are kept as they are. *)
Theorem categorize_first_match (transactions : list Tx) :
  map tx_of (categorize_transactions transactions) = transactions
  /\ Forall
       (fun ctx =>
          category ctx =
            match List.find
                    (fun entry =>
                       negb (str_eqb (fst entry) (u "Прочее"))
                       && existsb
                            (fun p => p (upper (description (tx_of ctx))))
                            (snd entry))
                    CATEGORIES with
            | Some entry => fst entry
            | None => u "Прочее"
            end)
       (categorize_transactions transactions).
Proof.
  unfold Analytics.categorize_transactions. split.
  - rewrite map_map. cbn. apply map_id.
  - apply Forall_forall. intros ctx Hin.
    apply in_map_iff in Hin as (tx & <- & _).
    unfold Analytics.categorize_one. cbn [category tx_of].
    generalize (upper (description tx)). intros desc.
    induction CATEGORIES as [|[name patterns] rest IH];
      cbn [Analytics.category_loop List.find fst snd]; [reflexivity|].
    destruct (existsb (fun p => p desc) patterns).
    + destruct (str_eqb name (u "Прочее")) eqn:E; cbn [negb andb].
      * apply str_eqb_eq in E. subst name. exact IH.
      * reflexivity.
    + rewrite andb_false_r.
      change (str_eqb (u "Прочее") (u "Прочее")) with true. cbn [negb].
      exact IH.
Qed.

(** *** Counting *)

Lemma counter_get_incr_same (key : str) (counter : list (str * nat)) :
  Analytics.counter_get key (Analytics.counter_incr key counter)
  = S (Analytics.counter_get key counter).
Proof.
  induction counter as [|[k n] rest IH];
    cbn [Analytics.counter_incr Analytics.counter_get].
  - replace (str_eqb key key) with true; [reflexivity|].
    symmetry. now apply str_eqb_eq.
  - destruct (str_eqb k key) eqn:E; cbn [Analytics.counter_get];
      rewrite E; [reflexivity | exact IH].
Qed.

Lemma counter_get_incr_other (key key' : str) (counter : list (str * nat)) :
  key' <> key ->
  Analytics.counter_get key' (Analytics.counter_incr key counter)
  = Analytics.counter_get key' counter.
Proof.
  intros Hne.
  assert (N : str_eqb key key' = false).
  { destruct (str_eqb key key') eqn:E; [|reflexivity].
    apply str_eqb_eq in E. congruence. }
  induction counter as [|[k n] rest IH];
    cbn [Analytics.counter_incr Analytics.counter_get].
  - now rewrite N.
  - destruct (str_eqb k key) eqn:E; cbn [Analytics.counter_get].
    + apply str_eqb_eq in E. subst k. now rewrite N.
    + destruct (str_eqb k key'); [reflexivity | exact IH].
Qed.

Lemma counter_incr_keys (key : str) (counter : list (str * nat)) :
  (forall k, In k (map fst (Analytics.counter_incr key counter))
             <-> k = key \/ In k (map fst counter))
  /\ (NoDup (map fst counter) ->
      NoDup (map fst (Analytics.counter_incr key counter)))
  /\ (Forall (fun item => 1 <= snd item) counter ->
      Forall (fun item => 1 <= snd item)
             (Analytics.counter_incr key counter)).
Proof.
  induction counter as [|[k n] rest (IHk & IHn & IHp)];
    cbn [Analytics.counter_incr map fst].
  - repeat split.
    + intros [<-|[]]. now left.
    + intros [->|[]]. now left.
    + intros _. constructor; [intros [] | constructor].
    + intros _. constructor; [cbn; lia | constructor].
  - destruct (str_eqb k key) eqn:E; cbn [map fst].
    + apply str_eqb_eq in E. subst k. repeat split.
      * intros H. now right.
      * intros [->|H]; [now left | assumption].
      * intros H. exact H.
      * intros H. inversion H as [|x l H1 H2]; subst.
        constructor; [cbn in *; lia | assumption].
    + repeat split.
      * intros [<-|H]; [right; now left|].
        apply IHk in H as [->|H]; [now left | right; now right].
      * intros [->|[<-|H]].
        -- right. apply IHk. now left.
        -- now left.
        -- right. apply IHk. now right.
      * intros H. inversion H as [|x l H1 H2]; subst.
        constructor; [|now apply IHn].
        intros Hin. apply IHk in Hin as [->|Hin]; [|contradiction].
        assert (T : str_eqb key key = true) by now apply str_eqb_eq.
        congruence.
      * intros H. inversion H as [|x l H1 H2]; subst.
        constructor; [assumption | now apply IHp].
Qed.

Lemma counter_get_in (counter : list (str * nat)) :
  NoDup (map fst counter) ->
  forall k n, In (k, n) counter -> Analytics.counter_get k counter = n.
Proof.
  induction counter as [|[k0 n0] rest IH]; intros Hd k n Hin;
    [destruct Hin|].
  inversion Hd as [|x l Hnot Hd']; subst. cbn [Analytics.counter_get].
  destruct Hin as [E|Hin].
  - injection E as -> ->.
    replace (str_eqb k k) with true; [reflexivity|].
    symmetry. now apply str_eqb_eq.
  - destruct (str_eqb k0 k) eqn:E; [|now apply IH].
    apply str_eqb_eq in E. subst k0. exfalso. apply Hnot.
    change k with (fst (k, n)). now apply in_map.
Qed.

Lemma counter_in_get (counter : list (str * nat)) (k : str) :
  1 <= Analytics.counter_get k counter ->
  In (k, Analytics.counter_get k counter) counter.
Proof.
  induction counter as [|[k0 n0] rest IH]; cbn [Analytics.counter_get].
  - lia.
  - destruct (str_eqb k0 k) eqn:E.
    + apply str_eqb_eq in E. subst k0. intros _. now left.
    + intros H. right. now apply IH.
Qed.

Lemma count_loop_spec (transactions : list Tx) :
  forall counter,
    NoDup (map fst counter) ->
    Forall (fun item => 1 <= snd item) counter ->
    let result := fold_left (Analytics.count_step upper) transactions
                            counter in
    NoDup (map fst result)
    /\ Forall (fun item => 1 <= snd item) result
    /\ forall k,
        Analytics.counter_get k result
        = Analytics.counter_get k counter
          + List.length
              (filter (fun tx => Analytics.is_expense tx
                                 && str_eqb (upper (description tx)) k)
                      transactions).
Proof.
  induction transactions as [|tx rest IH]; intros counter Hd Hp;
    cbn zeta; cbn [fold_left filter].
  - repeat split; try assumption. intros k. cbn. lia.
  - unfold Analytics.count_step at 2 4 6.
    destruct (Analytics.is_expense tx); cbn [andb].
    + destruct (counter_incr_keys (upper (description tx)) counter)
        as (_ & Hn & Hq).
      destruct (IH _ (Hn Hd) (Hq Hp)) as (R1 & R2 & R3).
      repeat split; try assumption. intros k. rewrite R3.
      destruct (str_eqb (upper (description tx)) k) eqn:E.
      * apply str_eqb_eq in E. subst k. rewrite counter_get_incr_same.
        cbn [List.length]. lia.
      * rewrite counter_get_incr_other; [reflexivity|].
        intros ->. assert (T : str_eqb (upper (description tx))
                                 (upper (description tx)) = true)
          by now apply str_eqb_eq.
        congruence.
    + now apply IH.
Qed.

(** X23: [recurring_payments] reports a description, in upper case, with the
    number [n] exactly when [n] is the number of expense records with
    that description, [n] is at least one and at least [min_count]; no
    description is reported twice. *)
Theorem recurring_payments_counts
        (transactions : list Tx) (min_count : Z) :
  NoDup (map fst (recurring_payments transactions min_count))
  /\ forall desc n,
      In (desc, n) (recurring_payments transactions min_count)
      <-> n = List.length
                (filter (fun tx => Analytics.is_expense tx
                                   && str_eqb (upper (description tx)) desc)
                        transactions)
          /\ 1 <= n /\ (min_count <= Z.of_nat n)%Z.
Proof.
  unfold Analytics.recurring_payments.
  destruct (count_loop_spec transactions [] (NoDup_nil _) (Forall_nil _))
    as (Hd & Hp & Hc).
  cbn zeta in Hd, Hp, Hc.
  set (counter := fold_left (Analytics.count_step upper) transactions [])
    in *.
  split.
  - clear -Hd. induction counter as [|[k n] rest IH]; cbn [filter];
      [constructor|].
    inversion Hd as [|x l Hnot Hd']; subst.
    destruct (_ <=? _)%Z; cbn [snd]; [|now apply IH].
    cbn [map fst]. constructor; [|now apply IH].
    intros Hin. apply Hnot. apply in_map_iff in Hin as ([k' n'] & E & Hf).
    apply filter_In in Hf as [Hf _]. cbn in E. subst k'.
    change k with (fst (k, n')). now apply in_map.
  - intros desc n. rewrite filter_In. cbn [snd]. rewrite Z.leb_le. split.
    + intros [Hin Hm]. pose proof (counter_get_in counter Hd _ _ Hin) as G.
      rewrite Forall_forall in Hp. specialize (Hp _ Hin). cbn in Hp.
      rewrite Hc in G. cbn in G. now repeat split.
    + intros (-> & H1 & Hm). split; [|assumption].
      specialize (Hc desc). cbn [Analytics.counter_get] in Hc.
      rewrite Nat.add_0_l in Hc. rewrite <- Hc.
      apply counter_in_get. rewrite Hc. exact H1.
Qed.

End AnalyticsProperties.

Lemma self_transfers_removed_witness :
  exists txs,
    Sample.parse_kaspi_pdf
      [Some [Sample.kaspi_header; Sample.kaspi_row1; Sample.kaspi_row3;
             [Sample.cell "21.12.25"; Sample.cell "-1 000,00 ₸";
              Sample.cell "Перевод"; Sample.cell "На Свой Счет"]]] = txs
    /\ Forall (fun tx => transfer_type tx = None) txs
    /\ map transfer_type (AnalyticsSample.classify_transfers txs)
       = [None; Some family; Some self]
    /\ map description
         (Analytics.filter_self_transfers
            (AnalyticsSample.classify_transfers txs))
       = [u "Магазин"; u "Алия"].
Proof.
  eexists. split; [vm_compute; reflexivity|].
  assert (H : Forall (fun tx => transfer_type tx = None)
                (Sample.parse_kaspi_pdf
                   [Some [Sample.kaspi_header; Sample.kaspi_row1;
                          Sample.kaspi_row3;
                          [Sample.cell "21.12.25";
                           Sample.cell "-1 000,00 ₸";
                           Sample.cell "Перевод";
                           Sample.cell "На Свой Счет"]]])).
  { vm_compute. repeat constructor. }
  vm_compute in H.
  split; [exact H|]. split; [vm_compute; reflexivity|].
  unfold AnalyticsSample.classify_transfers.
  rewrite (proj1 (self_transfers_removed
                    Sample.lower AnalyticsSample.SELF_KEYWORDS
                    AnalyticsSample.FAMILY_KEYWORDS _ H)).
  vm_compute. reflexivity.
Defined.

(** A description that matches an entry named "Прочее" and a later
    entry gets the category of the later entry. *)
Example categorize_example :
  category
    (AnalyticsSample.categorize_one
       (mkTx (mkDate 2025 12 17) (mkDecimal true 50000 (-2)) (u "KZT")
             (u "Покупка") (u "Комиссия кафе") expense None (Some kaspi)))
  = u "Еда".
Proof. vm_compute. reflexivity. Qed.

(** ** The two line-based parsers *)

Section Siblings.

Variable lower : str -> str.
Variable capitalize : str -> str.
Variable strptime_dmY : str -> option Date.
Variable FOOTER_MARKERS : list str.
Variable NOISE_PATTERNS : list (str -> str).
Variable DATE_START_RE : str -> bool.
Variable TX_HEAD_RE : str -> option HeadMatch.
Variable KNOWN_OPERATIONS : list str.

Local Abbreviation freedom_head :=
  (Freedom._parse_head_line capitalize strptime_dmY TX_HEAD_RE
     KNOWN_OPERATIONS).
Local Abbreviation parser_head :=
  (Parser._parse_head capitalize strptime_dmY TX_HEAD_RE KNOWN_OPERATIONS).
Local Abbreviation freedom_loop :=
  (Freedom.page_loop lower capitalize strptime_dmY FOOTER_MARKERS
     NOISE_PATTERNS DATE_START_RE TX_HEAD_RE KNOWN_OPERATIONS).
Local Abbreviation parser_loop :=
  (Parser.page_loop lower capitalize strptime_dmY FOOTER_MARKERS
     NOISE_PATTERNS DATE_START_RE TX_HEAD_RE KNOWN_OPERATIONS).
Local Abbreviation freedom_pages :=
  (Freedom.pages_loop lower capitalize strptime_dmY FOOTER_MARKERS
     NOISE_PATTERNS DATE_START_RE TX_HEAD_RE KNOWN_OPERATIONS).
Local Abbreviation parser_pages :=
  (Parser.pages_loop lower capitalize strptime_dmY FOOTER_MARKERS
     NOISE_PATTERNS DATE_START_RE TX_HEAD_RE KNOWN_OPERATIONS).
Local Abbreviation parse_freedom_pdf :=
  (Freedom.parse_freedom_pdf lower capitalize strptime_dmY FOOTER_MARKERS
     NOISE_PATTERNS DATE_START_RE TX_HEAD_RE KNOWN_OPERATIONS).
Local Abbreviation parse_pdf :=
  (Parser.parse_pdf lower capitalize strptime_dmY FOOTER_MARKERS
     NOISE_PATTERNS DATE_START_RE TX_HEAD_RE KNOWN_OPERATIONS).
(** The records agree but for the amount, the direction and the source;
    the amounts are equal, or the first is [abs] of the second. *)
Local Abbreviation alike a b :=
  (date a = date b
   /\ (amount a = amount b \/ dec_abs (amount b) = Ok (amount a))
   /\ currency a = currency b /\ operation a = operation b
   /\ description a = description b
   /\ transfer_type a = transfer_type b).
(** The result [r1] of the parser of [freedom_parser.py] and the result
    [r2] of the parser of [parser.py] agree. *)
Local Abbreviation agree r1 r2 :=
  (match r1, r2 with
   | Ok t1, Ok t2 => Forall2 (fun a b => alike a b) t1 t2
   | Ok _, Raise _ => False
   | Raise e1, Ok _ => e1 = Overflow
   | Raise e1, Raise e2 => e1 = e2 \/ e1 = Overflow
   end).

Lemma agree_overflow (r2 : result (list Tx)) : agree (Raise Overflow) r2.
Proof. destruct r2; [reflexivity | now right]. Qed.

Lemma heads_agree (line : str) :
  match freedom_head line, parser_head line with
  | Ok (Some a), Ok (Some b) => alike a b
  | Ok None, Ok None => True
  | Raise e1, Raise e2 => e1 = e2
  | Raise e1, Ok (Some _) => e1 = Overflow
  | _, _ => False
  end.
Proof.
  unfold Freedom._parse_head_line, Parser._parse_head.
  destruct (TX_HEAD_RE line) as [m|]; [|exact I].
  destruct (strptime_dmY (g_date m)) as [dt|]; cbn [bind]; [|reflexivity].
  change (Parser._to_decimal (g_amount m))
    with (Freedom._to_decimal (g_amount m)).
  destruct (Freedom._to_decimal (g_amount m)) as [d|e]; cbn [bind];
    [|reflexivity].
  destruct (Freedom.negated (g_amount m)).
  - destruct (bind (dec_abs d) dec_neg) as [a|e]; cbn [bind];
      [|reflexivity].
    cbn. repeat split. now left.
  - destruct (dec_abs d) as [a|e] eqn:Ea; cbn [bind].
    + cbn. repeat split. now right.
    + now apply dec_fix_raises in Ea.
Qed.

Lemma loops_agree (lines : list str) :
  forall st1 st2,
    Forall2 (fun a b => alike a b) (fst st1) (fst st2) ->
    match snd st1, snd st2 with
    | Some a, Some b => alike a b
    | None, None => True
    | _, _ => False
    end ->
    agree (freedom_loop lines st1) (parser_loop lines st2).
Proof.
  assert (Hflush : forall st1 st2 : list Tx * option Tx,
             Forall2 (fun a b => alike a b) (fst st1) (fst st2) ->
             match snd st1, snd st2 with
             | Some a, Some b => alike a b
             | None, None => True
             | _, _ => False
             end ->
             Forall2 (fun a b => alike a b)
               (fst (Freedom.flush lower FOOTER_MARKERS NOISE_PATTERNS st1))
               (fst (Parser.flush lower FOOTER_MARKERS NOISE_PATTERNS st2))
             /\ snd (Freedom.flush lower FOOTER_MARKERS NOISE_PATTERNS st1)
                = None
             /\ snd (Parser.flush lower FOOTER_MARKERS NOISE_PATTERNS st2)
                = None).
  { intros [t1 [a|]] [t2 [b|]] Ht Hc; cbn [fst snd] in *;
      try contradiction; unfold Freedom.flush, Parser.flush;
      cbn [fst snd]; [|now repeat split].
    split; [|now split]. apply Forall2_app; [assumption|].
    constructor; [|constructor].
    destruct Hc as (H1 & H2 & H3 & H4 & H5 & H6). cbn.
    rewrite H5. now repeat split. }
  induction lines as [|line rest IH]; intros st1 st2 Ht Hc;
    cbn [Freedom.page_loop Parser.page_loop].
  - now apply Hflush.
  - destruct (DATE_START_RE line).
    + destruct (Hflush st1 st2 Ht Hc) as (F & N1 & N2).
      pose proof (heads_agree line) as Hh.
      destruct (freedom_head line) as [[a|]|e1];
        destruct (parser_head line) as [[b|]|e2]; cbn [bind];
        try contradiction.
      * apply IH; assumption.
      * apply IH; [assumption|]. now rewrite N1, N2.
      * subst e1. apply agree_overflow.
      * now left.
    + destruct st1 as [t1 [a|]]; destruct st2 as [t2 [b|]];
        cbn [fst snd] in *; try contradiction.
      * apply IH; [assumption|]. cbn [snd].
        destruct Hc as (H1 & H2 & H3 & H4 & H5 & H6). cbn.
        rewrite H5. now repeat split.
      * now apply IH.
Qed.

Lemma pages_agree (pages : list (option str)) :
  forall t1 t2,
    Forall2 (fun a b => alike a b) t1 t2 ->
    agree (freedom_pages pages t1) (parser_pages pages t2).
Proof.
  induction pages as [|[text|] rest IH]; intros t1 t2 Ht;
    cbn [Freedom.pages_loop Parser.pages_loop].
  - assumption.
  - destruct (is_nil text); [now apply IH|].
    unfold Freedom._parse_page, Parser._parse_page.
    pose proof (loops_agree (Freedom.page_lines text)
                  ([], None) ([], None) (Forall2_nil _) I) as Hl.
    destruct (freedom_loop _ _) as [p1|e1];
      destruct (parser_loop _ _) as [p2|e2]; cbn [bind];
      try contradiction.
    + apply IH. now apply Forall2_app.
    + subst e1. apply agree_overflow.
    + assumption.
  - now apply IH.
Qed.

(** X24: The parser of [parser.py] and [parse_freedom_pdf] agree but for
    the amount, the direction and the source.  When [parse_freedom_pdf]
    returns, [parse_pdf] returns as many records, with the same dates,
    currencies, operations and descriptions, and each amount of
    [parse_freedom_pdf] is the amount of [parse_pdf] or its [abs].  When
    [parse_pdf] raises, [parse_freedom_pdf] raises the same exception or
    [Overflow]; [parse_freedom_pdf] raises alone only [Overflow], from
    the [abs] that [parser.py] does not take. *)
Theorem line_parsers_agree (pages : list (option str)) :
  agree (parse_freedom_pdf pages) (parse_pdf pages).
Proof.
  unfold Freedom.parse_freedom_pdf, Parser.parse_pdf.
  pose proof (pages_agree pages [] [] (Forall2_nil _)) as H.
  destruct (freedom_pages pages []) as [t1|e1];
    destruct (parser_pages pages []) as [t2|e2]; cbn [bind];
    try contradiction; try assumption.
  induction H as [|a b l1 l2 Hab _ IH]; cbn [map]; constructor;
    [|exact IH].
  exact Hab.
Qed.

End Siblings.

(** The amounts of the two parsers differ on an amount of more than 28
    digits: [freedom_parser.py] rounds it, [parser.py] keeps it. *)
Example parsers_differ_on_long_amount :
  exists a b,
    Sample.freedom_head
      (u "17.12.2025 123456789012345678901234567890,12 KZT Покупка Товар")
    = Ok (Some a)
    /\ Sample.parser_head
         (u "17.12.2025 123456789012345678901234567890,12 KZT Покупка Товар")
       = Ok (Some b)
    /\ amount a = mkDecimal false 1234567890123456789012345679 2
    /\ amount b = mkDecimal false 12345678901234567890123456789012 (-2)
    /\ dec_abs (amount b) = Ok (amount a).
Proof.
  eexists. eexists.
  split; [vm_compute; reflexivity|].
  split; [vm_compute; reflexivity|].
  split; [reflexivity|]. split; [reflexivity|].
  vm_compute. reflexivity.
Qed.

